(** * govh: signed-request client for the OVH API

    A shallow embedding of the two versions of the caller found in the
    repository, [src/caller.go] (module [V1]) and [src/unnamed/part_000]
    (module [V2]), together with the parts of the Go standard library they
    call: [strconv], [encoding/hex], [crypto/sha1], [encoding/json],
    [net/http], [time], [fmt] and [strings].

    Go strings and byte slices are [string]s (sequences of bytes), Go
    integers are [Z] with their 64-bit range written out, the header of a
    request is a finite map from canonical keys to the list of values added
    under that key, and the effects of a method (reading the clock, one HTTP
    round trip, writing a field of the receiver) are threaded through a small
    state monad.  The clock, the transport and the URL parser are given by
    an environment; the function [NewError], which [src/caller.go] calls and
    the sources do not hold, is a parameter of the methods that call it. *)

From Stdlib Require Import ZArith Ascii String List Lia Bool.
From stdpp Require Import base option list strings gmap.
Import ListNotations.

Local Open Scope string_scope.
Local Open Scope Z_scope.

(** ** Bytes and strings *)

Module Bytes.

Definition byte_of (c : ascii) : Z := Z.of_N (N_of_ascii c).

Definition char_of (b : Z) : ascii := ascii_of_N (Z.to_N (b mod 256)).

(** [[]byte(s)] *)
Definition of_string (s : string) : list Z :=
  map byte_of (list_ascii_of_string s).

(** [string(bs)] *)
Definition to_string (bs : list Z) : string :=
  string_of_list_ascii (map char_of bs).

Definition is_digit (c : ascii) : bool :=
  (48 <=? byte_of c) && (byte_of c <=? 57).

Definition is_lower (c : ascii) : bool :=
  (97 <=? byte_of c) && (byte_of c <=? 122).

Definition is_upper (c : ascii) : bool :=
  (65 <=? byte_of c) && (byte_of c <=? 90).

Definition upper_char (c : ascii) : ascii :=
  if is_lower c then char_of (byte_of c - 32) else c.

Definition lower_char (c : ascii) : ascii :=
  if is_upper c then char_of (byte_of c + 32) else c.

(** [strings.ToUpper] on the ASCII letters. *)
Fixpoint ToUpper (s : string) : string :=
  match s with
  | EmptyString => EmptyString
  | String c r => String (upper_char c) (ToUpper r)
  end.

End Bytes.

(** ** strconv *)

Module strconv.

Definition digit_char (d : Z) : ascii := Bytes.char_of (48 + d).

(** The decimal digits of a non-negative number, most significant first;
    [acc] holds the digits already produced.  The loop of [formatBits]:
    divide by ten until the quotient is zero. *)
Fixpoint format_loop (fuel : nat) (u : Z) (acc : string) : string :=
  match fuel with
  | O => acc
  | S fuel' =>
      let acc' := String (digit_char (u mod 10)) acc in
      if u / 10 =? 0 then acc' else format_loop fuel' (u / 10) acc'
  end.

Definition format_uint (u : Z) : string :=
  format_loop (S (Z.to_nat (Z.log2 u))) u EmptyString.

(** [strconv.FormatInt(i, 10)]; it is also what [fmt.Sprintf("%d", i)]
    prints for an integer: a minus sign for a negative number, then the
    digits of its absolute value. *)
Definition FormatInt (i : Z) : string :=
  if i <? 0 then String "-" (format_uint (- i)) else format_uint i.

Inductive NumError := ErrSyntax | ErrRange.

Definition min_int : Z := - 2 ^ 63.
Definition max_int : Z := 2 ^ 63 - 1.

(** Accumulate the digits of [s] on [n]; [None] at the first byte that is
    not a digit. *)
Fixpoint parse_digits (s : string) (n : Z) : option Z :=
  match s with
  | EmptyString => Some n
  | String c r =>
      if Bytes.is_digit c
      then parse_digits r (n * 10 + (Bytes.byte_of c - 48))
      else None
  end.

(** [strconv.Atoi] on a 64-bit platform: an optional sign, at least one
    digit, nothing else, and a value that fits an [int]. *)
Definition Atoi (s : string) : NumError + Z :=
  let '(neg, digits) :=
    match s with
    | String c r =>
        if Ascii.eqb c "-" then (true, r)
        else if Ascii.eqb c "+" then (false, r)
        else (false, s)
    | EmptyString => (false, s)
    end in
  match digits with
  | EmptyString => inl ErrSyntax
  | _ =>
      match parse_digits digits 0 with
      | None => inl ErrSyntax
      | Some n =>
          let v := if neg then - n else n in
          if (min_int <=? v) && (v <=? max_int) then inr v else inl ErrRange
      end
  end.

End strconv.

(** ** encoding/hex *)

Module hex.

Definition hextable : string := "0123456789abcdef".

Definition digit (n : Z) : ascii :=
  match String.get (Z.to_nat n) hextable with
  | Some c => c
  | None => "0"%char
  end.

(** [hex.EncodeToString]: two characters of [hextable] per byte, the high
    nibble first. *)
Fixpoint EncodeToString (src : list Z) : string :=
  match src with
  | [] => EmptyString
  | v :: r =>
      String (digit (Z.shiftr v 4)) (String (digit (Z.land v 15)) (EncodeToString r))
  end.

Definition from_char (c : ascii) : option Z :=
  let b := Bytes.byte_of c in
  if Bytes.is_digit c then Some (b - 48)
  else if (97 <=? b) && (b <=? 102) then Some (b - 97 + 10)
  else if (65 <=? b) && (b <=? 70) then Some (b - 65 + 10)
  else None.

(** [hex.DecodeString] *)
Fixpoint DecodeString (s : string) : option (list Z) :=
  match s with
  | EmptyString => Some []
  | String a (String b r) =>
      match from_char a, from_char b, DecodeString r with
      | Some x, Some y, Some l => Some (Z.lor (Z.shiftl x 4) y :: l)
      | _, _, _ => None
      end
  | String _ EmptyString => None
  end.

(** A character of the lower-case hexadecimal alphabet. *)
Definition is_lower_hex (c : ascii) : bool :=
  Bytes.is_digit c || ((97 <=? Bytes.byte_of c) && (Bytes.byte_of c <=? 102)).

End hex.

(** ** crypto/sha1 *)

Module sha1.

Definition u32 (x : Z) : Z := x mod 2 ^ 32.

(** [bits.RotateLeft32] *)
Definition rotl (x : Z) (k : Z) : Z :=
  u32 (Z.lor (Z.shiftl x k) (Z.shiftr x (32 - k))).

Definition not32 (x : Z) : Z := Z.lxor x (2 ^ 32 - 1).

Definition init : list Z :=
  [0x67452301; 0xEFCDAB89; 0x98BADCFE; 0x10325476; 0xC3D2E1F0].

Definition K0 : Z := 0x5A827999.
Definition K1 : Z := 0x6ED9EBA1.
Definition K2 : Z := 0x8F1BBCDC.
Definition K3 : Z := 0xCA62C1D6.

(** The message followed by the padding of [digest.checkSum]: the byte
    0x80, zeros up to 56 modulo 64, and the length in bits on eight bytes,
    big-endian. *)
Definition be_bytes (n : nat) (x : Z) : list Z :=
  map (fun i => Z.shiftr x (8 * Z.of_nat i) mod 256) (rev (seq 0 n)).

Definition pad (msg : list Z) : list Z :=
  let len := Z.of_nat (length msg) in
  let zeros := Z.to_nat ((55 - len) mod 64) in
  msg ++ [0x80] ++ repeat 0 zeros ++ be_bytes 8 (8 * len).

Fixpoint be_word (bs : list Z) (acc : Z) : Z :=
  match bs with
  | [] => acc
  | b :: r => be_word r (Z.lor (Z.shiftl acc 8) b)
  end.

(** The sixteen big-endian words of a 64-byte chunk. *)
Fixpoint words (n : nat) (p : list Z) : list Z :=
  match n with
  | O => []
  | S n' => be_word (firstn 4 p) 0 :: words n' (skipn 4 p)
  end.

(** The message schedule, kept in reverse: the head is the last word
    produced, so [w[i-3]], [w[i-8]], [w[i-14]] and [w[i-16]] sit at
    positions 2, 7, 13 and 15. *)
Fixpoint schedule (n : nat) (rw : list Z) : list Z :=
  match n with
  | O => rw
  | S n' =>
      let t := Z.lxor (Z.lxor (nth 2 rw 0) (nth 7 rw 0))
                      (Z.lxor (nth 13 rw 0) (nth 15 rw 0)) in
      schedule n' (rotl t 1 :: rw)
  end.

Record regs := { ra : Z; rb : Z; rc : Z; rd : Z; re : Z }.

Definition round (f : Z -> Z -> Z -> Z) (k : Z) (r : regs) (w : Z) : regs :=
  let t := u32 (rotl (ra r) 5 + f (rb r) (rc r) (rd r) + re r + w + k) in
  {| ra := t; rb := ra r; rc := rotl (rb r) 30; rd := rc r; re := rd r |}.

Definition f0 (b c d : Z) : Z := Z.lor (Z.land b c) (Z.land (not32 b) d).
Definition f1 (b c d : Z) : Z := Z.lxor (Z.lxor b c) d.
Definition f2 (b c d : Z) : Z :=
  Z.lor (Z.land (Z.lor b c) d) (Z.land b c).

(** [block] on one chunk: eighty rounds, then the sum with the state. *)
Definition block1 (h : list Z) (p : list Z) : list Z :=
  let w := rev (schedule 64 (rev (words 16 p))) in
  let r0 := {| ra := nth 0 h 0; rb := nth 1 h 0; rc := nth 2 h 0;
               rd := nth 3 h 0; re := nth 4 h 0 |} in
  let r1 := fold_left (round f0 K0) (firstn 20 w) r0 in
  let r2 := fold_left (round f1 K1) (firstn 20 (skipn 20 w)) r1 in
  let r3 := fold_left (round f2 K2) (firstn 20 (skipn 40 w)) r2 in
  let r4 := fold_left (round f1 K3) (firstn 20 (skipn 60 w)) r3 in
  [u32 (nth 0 h 0 + ra r4); u32 (nth 1 h 0 + rb r4); u32 (nth 2 h 0 + rc r4);
   u32 (nth 3 h 0 + rd r4); u32 (nth 4 h 0 + re r4)].

Fixpoint blocks (n : nat) (h : list Z) (p : list Z) : list Z :=
  match n with
  | O => h
  | S n' => blocks n' (block1 h (firstn 64 p)) (skipn 64 p)
  end.

(** The twenty bytes of the digest of [msg]. *)
Definition Sum (msg : list Z) : list Z :=
  let p := pad msg in
  flat_map (be_bytes 4) (blocks (length p / 64) init p).

(** The hash object of the code: [sha1.New()] starts with nothing
    written, [io.WriteString] appends, [h.Sum(nil)] is the digest of what
    was written. *)
Definition New : list Z := [].
Definition WriteString (h : list Z) (s : string) : list Z :=
  h ++ Bytes.of_string s.

End sha1.

(** ** encoding/json *)

Module json.

(** A JSON document.  A number keeps its literal, as the decoder of Go
    does until it knows the type of the target. *)
#[warnings="-register-all"] Inductive value :=
| Null
| Bool (b : bool)
| Number (lit : string)
| Str (s : string)
| Array (l : list value)
| Object (kvs : list (string * value)).

Inductive Error := SyntaxError | UnmarshalTypeError | UnsupportedTypeError.

Definition dquote : ascii := "034"%char.
Definition backslash : ascii := "092"%char.

Definition eqc (c : ascii) (d : ascii) : bool := Ascii.eqb c d.

Definition is_space (c : ascii) : bool :=
  eqc c " " || eqc c "009" || eqc c "010" || eqc c "013".

Fixpoint skip_ws (s : string) : string :=
  match s with
  | String c r => if is_space c then skip_ws r else s
  | EmptyString => s
  end.

Fixpoint strip_prefix (p s : string) : option string :=
  match p, s with
  | EmptyString, _ => Some s
  | String a p', String b s' => if eqc a b then strip_prefix p' s' else None
  | String _ _, EmptyString => None
  end.

(** [utf8.EncodeRune] *)
Definition utf8 (cp : Z) : string :=
  Bytes.to_string
    (if cp <? 0x80 then [cp]
     else if cp <? 0x800 then
       [Z.lor 0xC0 (Z.shiftr cp 6); Z.lor 0x80 (Z.land cp 0x3F)]
     else if cp <? 0x10000 then
       [Z.lor 0xE0 (Z.shiftr cp 12); Z.lor 0x80 (Z.land (Z.shiftr cp 6) 0x3F);
        Z.lor 0x80 (Z.land cp 0x3F)]
     else
       [Z.lor 0xF0 (Z.shiftr cp 18); Z.lor 0x80 (Z.land (Z.shiftr cp 12) 0x3F);
        Z.lor 0x80 (Z.land (Z.shiftr cp 6) 0x3F); Z.lor 0x80 (Z.land cp 0x3F)]).

(** [getu4]: the value of four hexadecimal digits. *)
Definition getu4 (a b c d : ascii) : option Z :=
  match hex.from_char a, hex.from_char b, hex.from_char c, hex.from_char d with
  | Some x, Some y, Some z, Some w => Some (((x * 16 + y) * 16 + z) * 16 + w)
  | _, _, _, _ => None
  end.

Definition simple_escape (e : ascii) : option ascii :=
  if eqc e dquote then Some dquote
  else if eqc e backslash then Some backslash
  else if eqc e "/" then Some "/"%char
  else if eqc e "b" then Some "008"%char
  else if eqc e "f" then Some "012"%char
  else if eqc e "n" then Some "010"%char
  else if eqc e "r" then Some "013"%char
  else if eqc e "t" then Some "009"%char
  else None.

Definition replacement : Z := 0xFFFD.

(** The second half of a surrogate pair after the high surrogate [u], if
    the text goes on with one ([utf16.DecodeRune]). *)
Definition low_surrogate (u : Z) (s : string) : option Z :=
  match s with
  | String b (String v (String g1 (String g2 (String g3 (String g4 _))))) =>
      if eqc b backslash && eqc v "u" then
        match getu4 g1 g2 g3 g4 with
        | Some u2 =>
            if (0xD800 <=? u) && (u <? 0xDC00) && (0xDC00 <=? u2) && (u2 <? 0xE000)
            then Some (Z.shiftl (u - 0xD800) 10 + (u2 - 0xDC00) + 0x10000)
            else None
        | None => None
        end
      else None
  | _ => None
  end.

(** The text of a string literal after its opening quote: the decoded
    string and what follows the closing quote ([unquote]). *)
Fixpoint string_body (s : string) : option (string * string) :=
  match s with
  | EmptyString => None
  | String c r =>
      if eqc c dquote then Some (EmptyString, r)
      else if eqc c backslash then
        match r with
        | EmptyString => None
        | String e r1 =>
            match simple_escape e with
            | Some ch =>
                match string_body r1 with
                | Some (t, rest) => Some (String ch t, rest)
                | None => None
                end
            | None =>
                if eqc e "u" then
                  match r1 with
                  | String h1 (String h2 (String h3 (String h4 r2))) =>
                      match getu4 h1 h2 h3 h4 with
                      | None => None
                      | Some u =>
                          if (0xD800 <=? u) && (u <? 0xE000) then
                            match low_surrogate u r2, r2 with
                            | Some cp, String _ (String _ (String _ (String _
                                         (String _ (String _ r3))))) =>
                                match string_body r3 with
                                | Some (t, rest) => Some (utf8 cp ++ t, rest)%string
                                | None => None
                                end
                            | _, _ =>
                                match string_body r2 with
                                | Some (t, rest) =>
                                    Some (utf8 replacement ++ t, rest)%string
                                | None => None
                                end
                            end
                          else
                            match string_body r2 with
                            | Some (t, rest) => Some (utf8 u ++ t, rest)%string
                            | None => None
                            end
                      end
                  | _ => None
                  end
                else None
            end
        end
      else if Bytes.byte_of c <? 0x20 then None
      else
        match string_body r with
        | Some (t, rest) => Some (String c t, rest)
        | None => None
        end
  end.

Fixpoint span_digits (s : string) : string * string :=
  match s with
  | String c r =>
      if Bytes.is_digit c
      then let '(ds, rest) := span_digits r in (String c ds, rest)
      else (EmptyString, s)
  | EmptyString => (EmptyString, EmptyString)
  end.

(** A number literal: an optional minus sign; a zero, or a digit from one
    to nine followed by digits; optionally a dot and at least one digit;
    optionally an exponent, e or E, an optional sign and at least one
    digit. *)
Definition number (s : string) : option (string * string) :=
  let '(sign, s1) :=
    match s with
    | String c r => if eqc c "-" then ("-", r) else (EmptyString, s)
    | EmptyString => (EmptyString, s)
    end in
  match s1 with
  | EmptyString => None
  | String c r =>
      if negb (Bytes.is_digit c) then None else
      let '(int, s2) :=
        if eqc c "0" then ("0", r)
        else let '(ds, rest) := span_digits r in (String c ds, rest) in
      let frac :=
        match s2 with
        | String d r2 =>
            if eqc d "." then
              let '(ds, rest) := span_digits r2 in
              match ds with
              | EmptyString => None
              | _ => Some (String d ds, rest)
              end
            else Some (EmptyString, s2)
        | EmptyString => Some (EmptyString, s2)
        end in
      match frac with
      | None => None
      | Some (fr, s3) =>
          let exp :=
            match s3 with
            | String e r3 =>
                if eqc e "e" || eqc e "E" then
                  let '(sg, r4) :=
                    match r3 with
                    | String g r5 =>
                        if eqc g "+" || eqc g "-"
                        then (String g EmptyString, r5) else (EmptyString, r3)
                    | EmptyString => (EmptyString, r3)
                    end in
                  let '(ds, rest) := span_digits r4 in
                  match ds with
                  | EmptyString => None
                  | _ => Some (String e (sg ++ ds), rest)%string
                  end
                else Some (EmptyString, s3)
            | EmptyString => Some (EmptyString, s3)
            end in
          match exp with
          | None => None
          | Some (ex, s4) => Some ((sign ++ int ++ fr ++ ex)%string, s4)
          end
      end
  end.

(** One value, then the elements of an array after its first, then the
    members of an object: recursive descent, one unit of [fuel] for each
    call. *)
Fixpoint parse_value (fuel : nat) (s : string) : option (value * string) :=
  match fuel with
  | O => None
  | S fuel' =>
      match skip_ws s with
      | EmptyString => None
      | String c r =>
          if eqc c "n" then
            match strip_prefix "ull" r with Some t => Some (Null, t) | None => None end
          else if eqc c "t" then
            match strip_prefix "rue" r with
            | Some t => Some (Bool true, t) | None => None end
          else if eqc c "f" then
            match strip_prefix "alse" r with
            | Some t => Some (Bool false, t) | None => None end
          else if eqc c dquote then
            match string_body r with
            | Some (str, t) => Some (Str str, t) | None => None end
          else if eqc c "[" then
            match skip_ws r with
            | String d t =>
                if eqc d "]" then Some (Array [], t)
                else
                  match parse_elems fuel' r with
                  | Some (l, t') => Some (Array l, t') | None => None end
            | EmptyString => None
            end
          else if eqc c "{" then
            match skip_ws r with
            | String d t =>
                if eqc d "}" then Some (Object [], t)
                else
                  match parse_members fuel' r with
                  | Some (kvs, t') => Some (Object kvs, t') | None => None end
            | EmptyString => None
            end
          else
            match number (String c r) with
            | Some (lit, t) => Some (Number lit, t) | None => None end
      end
  end
with parse_elems (fuel : nat) (s : string) : option (list value * string) :=
  match fuel with
  | O => None
  | S fuel' =>
      match parse_value fuel' s with
      | None => None
      | Some (v, t) =>
          match skip_ws t with
          | String d t' =>
              if eqc d "]" then Some ([v], t')
              else if eqc d "," then
                match parse_elems fuel' t' with
                | Some (l, t'') => Some (v :: l, t'') | None => None end
              else None
          | EmptyString => None
          end
      end
  end
with parse_members (fuel : nat) (s : string)
  : option (list (string * value) * string) :=
  match fuel with
  | O => None
  | S fuel' =>
      match skip_ws s with
      | String q r =>
          if eqc q dquote then
            match string_body r with
            | None => None
            | Some (k, t) =>
                match skip_ws t with
                | String col t1 =>
                    if eqc col ":" then
                      match parse_value fuel' t1 with
                      | None => None
                      | Some (v, t2) =>
                          match skip_ws t2 with
                          | String d t3 =>
                              if eqc d "}" then Some ([(k, v)], t3)
                              else if eqc d "," then
                                match parse_members fuel' t3 with
                                | Some (kvs, t4) => Some ((k, v) :: kvs, t4)
                                | None => None
                                end
                              else None
                          | EmptyString => None
                          end
                      end
                    else None
                | EmptyString => None
                end
            end
          else None
      | EmptyString => None
      end
  end.

(** The document that [data] holds, if it is valid JSON ([checkValid]
    and the scan of [Unmarshal]): one value between optional white space.
    The fuel is twice the length of the text, which the descent never
    exhausts (lemma [parse_has_enough_fuel]).  Bytes above 127 are kept as
    they are, and the limit of Go on the depth of nesting (ten thousand) is
    left out. *)
Definition parse (data : string) : option value :=
  match parse_value (2 * String.length data + 2) data with
  | Some (v, rest) =>
      match skip_ws rest with
      | EmptyString => Some v
      | String _ _ => None
      end
  | None => None
  end.

(** [Unmarshal(data, target)]: a syntax error if [data] is not a JSON
    document, otherwise what storing the document in the target gives.  The
    target is the function that stores a document in it. *)
Definition Unmarshal {T : Type} (data : string) (store : value -> Error + T)
  : Error + T :=
  match parse data with
  | None => inl SyntaxError
  | Some v => store v
  end.

(** *** Struct targets *)

(** [foldName]: the key under which names are compared without case.
    ASCII letters go to upper case; the Kelvin sign (U+212A) and the long s
    (U+017F) are the two other runes that fold to an ASCII letter. *)
Fixpoint foldName (s : string) : string :=
  match s with
  | EmptyString => EmptyString
  | String c r =>
      let b := Bytes.byte_of c in
      if b =? 0xE2 then
        match r with
        | String c1 (String c2 r') =>
            if (Bytes.byte_of c1 =? 0x84) && (Bytes.byte_of c2 =? 0xAA)
            then String "K" (foldName r') else String c (foldName r)
        | _ => String c (foldName r)
        end
      else if b =? 0xC5 then
        match r with
        | String c1 r' =>
            if Bytes.byte_of c1 =? 0xBF
            then String "S" (foldName r') else String c (foldName r)
        | _ => String c (foldName r)
        end
      else String (Bytes.upper_char c) (foldName r)
  end.

Definition equalFold (a b : string) : bool :=
  String.eqb (foldName a) (foldName b).

Fixpoint index_where (p : string -> bool) (names : list string) (i : nat)
  : option nat :=
  match names with
  | [] => None
  | n :: r => if p n then Some i else index_where p r (S i)
  end.

(** The field that receives the member [key]: the field of that exact
    name, or else the first one whose name is equal to it without case. *)
Definition find_field (names : list string) (key : string) : option nat :=
  match index_where (String.eqb key) names 0 with
  | Some i => Some i
  | None => index_where (equalFold key) names 0
  end.

(** A string field takes a string, is left as it is by [null], and
    refuses anything else. *)
Definition store_string (v : value) (old : string) : Error + string :=
  match v with
  | Str s => inr s
  | Null => inr old
  | _ => inl UnmarshalTypeError
  end.

(** An [int] field takes a number whose literal is an integer in range. *)
Definition store_int (v : value) (old : Z) : Error + Z :=
  match v with
  | Number lit =>
      match strconv.Atoi lit with
      | inr n => inr n
      | inl _ => inl UnmarshalTypeError
      end
  | Null => inr old
  | _ => inl UnmarshalTypeError
  end.

(** The members of an object are stored one after the other, so a later
    member wins over an earlier one; a member that matches no field is
    skipped. *)
Fixpoint object {T : Type} (names : list string)
  (set : nat -> value -> T -> Error + T) (kvs : list (string * value)) (t : T)
  : Error + T :=
  match kvs with
  | [] => inr t
  | (k, v) :: r =>
      match find_field names k with
      | None => object names set r t
      | Some i =>
          match set i v t with
          | inl e => inl e
          | inr t' => object names set r t'
          end
      end
  end.

(** A pointer to a struct as target: [null] leaves it as it is, an object
    fills its fields, any other document is a type error. *)
Definition struct {T : Type} (names : list string)
  (set : nat -> value -> T -> Error + T) (t : T) (v : value) : Error + T :=
  match v with
  | Null => inr t
  | Object kvs => object names set kvs t
  | _ => inl UnmarshalTypeError
  end.

(** *** Marshal *)

Definition hex2 (b : Z) : string :=
  String (hex.digit (Z.shiftr b 4)) (String (hex.digit (Z.land b 15)) EmptyString).

Definition u00 (b : Z) : string :=
  String backslash ("u00" ++ hex2 b).

(** The text of a string between its quotes: the quote and the backslash
    are escaped, the control characters, the characters [<], [>] and [&]
    and the line separators U+2028 and U+2029 are written as [\u] escapes
    (the newline, the carriage return and the tab by their short form).
    Bytes above 127 are taken to be valid UTF-8 and kept as they are. *)
Fixpoint escape (s : string) : string :=
  match s with
  | EmptyString => EmptyString
  | String c r =>
      let b := Bytes.byte_of c in
      if eqc c dquote || eqc c backslash then String backslash (String c (escape r))
      else if eqc c "010" then String backslash (String "n" (escape r))
      else if eqc c "013" then String backslash (String "r" (escape r))
      else if eqc c "009" then String backslash (String "t" (escape r))
      else if (b <? 0x20) || eqc c "<" || eqc c ">" || eqc c "&"
      then u00 b ++ escape r
      else if b =? 0xE2 then
        match r with
        | String c1 (String c2 r') =>
            if (Bytes.byte_of c1 =? 0x80)
               && ((Bytes.byte_of c2 =? 0xA8) || (Bytes.byte_of c2 =? 0xA9))
            then String backslash ("u202" ++
                   String (hex.digit (Z.land (Bytes.byte_of c2) 15)) (escape r'))
            else String c (escape r)
        | _ => String c (escape r)
        end
      else String c (escape r)
  end.

Definition quote (s : string) : string :=
  String dquote (escape s ++ String dquote EmptyString).

Fixpoint encode (v : value) : string :=
  match v with
  | Null => "null"
  | Bool true => "true"
  | Bool false => "false"
  | Number lit => lit
  | Str s => quote s
  | Array l => "[" ++ String.concat "," (map encode l) ++ "]"
  | Object kvs =>
      "{" ++ String.concat ","
               (map (fun kv => quote (fst kv) ++ ":" ++ encode (snd kv)) kvs) ++ "}"
  end.

(** A Go value handed to [Marshal]: one that has a JSON form, or one that
    the encoder refuses (a channel, a function, a complex number). *)
Inductive govalue :=
| Encodable (v : value)
| Unsupported.

Definition Marshal (x : govalue) : Error + string :=
  match x with
  | Encodable v => inr (encode v)
  | Unsupported => inl UnsupportedTypeError
  end.

End json.

(** ** Errors *)

(** [ApiOvhError] of [error.go]: an error returned by the API. *)
Record ApiOvhError := { Message : string; Code : Z; Tracer : string }.

(** The values of type [error] that the callers meet.  [errorString] is what
    [errors.New] and [fmt.Errorf] build; [netError] is an error of
    [net/http], at the creation of a request, during the round trip or while
    the body is read; [InvalidEndpoint] is the error of the newer
    [NewCaller], whose message quotes the endpoint with [%q]. *)
Inductive error :=
| InvalidEndpoint (endpoint : string)
| errorString (msg : string)
| netError (msg : string)
| NumError (e : strconv.NumError)
| JSONError (e : json.Error)
| ApiError (e : ApiOvhError).

(** Arithmetic on [int] and [int64] wraps around on 64 bits. *)
Definition wrap_int (z : Z) : Z := (z + 2 ^ 63) mod 2 ^ 64 - 2 ^ 63.

(** ** net/http *)

Module http.

Definition StatusOK : Z := 200.
Definition StatusMultipleChoices : Z := 300.
Definition StatusInternalServerError : Z := 500.

(** [httpguts.IsTokenRune]: the bytes allowed in a method and in the key
    of a header. *)
Definition is_token (c : ascii) : bool :=
  Bytes.is_digit c || Bytes.is_lower c || Bytes.is_upper c
  || existsb (Ascii.eqb c) (list_ascii_of_string "!#$%&'*+-.^_`|~").

Fixpoint all_token (s : string) : bool :=
  match s with
  | EmptyString => true
  | String c r => is_token c && all_token r
  end.

(** The loop of [canonicalMIMEHeaderKey]: a letter is upper case at the
    start and after a hyphen, lower case elsewhere. *)
Fixpoint canonical (upper : bool) (s : string) : string :=
  match s with
  | EmptyString => EmptyString
  | String c r =>
      let c' := if upper then Bytes.upper_char c else Bytes.lower_char c in
      String c' (canonical (Ascii.eqb c' "-") r)
  end.

(** [textproto.CanonicalMIMEHeaderKey]: a key with a byte that is not a
    token byte is left as it is. *)
Definition CanonicalMIMEHeaderKey (s : string) : string :=
  if all_token s then canonical true s else s.

(** [Header.Add]: the value is appended to the values of the canonical
    key. *)
Definition Add (key value : string) (h : gmap string (list string))
  : gmap string (list string) :=
  let k := CanonicalMIMEHeaderKey key in
  <[k := (default [] (h !! k) ++ [value])%list]> h.

Record Request := {
  Method : string;
  URL : string;
  (** the bytes that the reader given to [NewRequest] delivers *)
  ReqBody : string;
  Header : gmap string (list string)
}.

(** [request.Header.Add(key, value)] *)
Definition HeaderAdd (key value : string) (r : Request) : Request :=
  {| Method := Method r; URL := URL r; ReqBody := ReqBody r;
     Header := Add key value (Header r) |}.

Record Response := {
  StatusCode : Z;
  (** what [ioutil.ReadAll(result.Body)] returns *)
  Body : error + string
}.

Definition validMethod (method : string) : bool :=
  match method with
  | EmptyString => false
  | _ => all_token method
  end.

(** [http.NewRequest(method, url, body)]: an empty method means GET, the
    method must be a token, and [url.Parse] must accept the URL;
    [parse_url] tells whether it does. *)
Definition NewRequest (parse_url : string -> bool) (method url body : string)
  : error + Request :=
  let method := match method with EmptyString => "GET" | _ => method end in
  if negb (validMethod method) then inl (netError "net/http: invalid method")
  else if negb (parse_url url) then inl (netError "parse")
  else inr {| Method := method; URL := url; ReqBody := body; Header := ∅ |}.

End http.

(** ** The world around a caller *)

(** What the code does not own: the local clock, the transport behind
    [http.DefaultClient], and the URL parser.  [now n] is the [n]-th reading
    of the clock, in nanoseconds since the epoch; [roundtrip n req] is what
    [Do] returns for the [n]-th request sent. *)
Record Env := {
  now : nat -> Z;
  roundtrip : nat -> http.Request -> error + http.Response;
  parse_url : string -> bool
}.

(** How many times the clock was read, and the requests sent so far. *)
Record World := { reads : nat; sent : list http.Request }.

(** The state of a method call: the receiver [*Caller] and the world. *)
Record State (C : Type) := { self : C; world : World }.
Arguments self {C} _.
Arguments world {C} _.

Definition M (S A : Type) : Type := S -> A * S.

Definition ret {S A : Type} (a : A) : M S A := fun s => (a, s).

Definition bind {S A B : Type} (m : M S A) (k : A -> M S B) : M S B :=
  fun s => let '(a, s') := m s in k a s'.

Declare Scope monad_scope.
Delimit Scope monad_scope with monad.
Notation "x <- m ;; k" := (bind m (fun x => k))
  (at level 100, m at next level, right associativity) : monad_scope.
Local Open Scope monad_scope.

(** [x, err := m; if err != nil { return nil, f(err) }; k x] *)
Definition try {S A B : Type} (f : error -> error) (m : M S (error + A))
  (k : A -> M S (error + B)) : M S (error + B) :=
  r <- m ;;
  match r with
  | inl err => ret (inl (f err))
  | inr a => k a
  end.

Definition lift {S A : Type} (r : error + A) : M S (error + A) := ret r.

Definition get_self {C : Type} : M (State C) C := fun s => (self s, s).

Definition set_self {C : Type} (c : C) : M (State C) unit :=
  fun s => (tt, {| self := c; world := world s |}).

Section Effects.
Context (env : Env) {C : Type}.

(** [time.Now()] *)
Definition time_Now : M (State C) Z :=
  fun s =>
    (now env (reads (world s)),
     {| self := self s;
        world := {| reads := S (reads (world s)); sent := sent (world s) |} |}).

(** [http.DefaultClient.Do(request)] *)
Definition Do (request : http.Request) : M (State C) (error + http.Response) :=
  fun s =>
    (roundtrip env (length (sent (world s))) request,
     {| self := self s;
        world := {| reads := reads (world s);
                    sent := (sent (world s) ++ [request])%list |} |}).

End Effects.

(** ** time *)

Module time.

Definition Second : Z := 1000000000.
Definition minDuration : Z := - 2 ^ 63.
Definition maxDuration : Z := 2 ^ 63 - 1.

(** [time.Unix(sec, 0)], as nanoseconds since the epoch. *)
Definition Unix_ (sec : Z) : Z := sec * Second.

(** [t.Unix()]: the seconds since the epoch, rounded down. *)
Definition Unix (t : Z) : Z := t / Second.

(** [t.Sub(u)]: the duration [t - u], or the largest or the smallest
    duration when the difference does not fit one. *)
Definition Sub (t u : Z) : Z :=
  if t - u <? minDuration then minDuration
  else if maxDuration <? t - u then maxDuration
  else t - u.

(** [t.Add(d)] *)
Definition Add (t d : Z) : Z := t + d.

End time.

(** ** fmt and strings *)

Module fmt.

(** An operand of [Sprintf]: a string (or a byte slice) or an integer. *)
Inductive arg := Str (s : string) | Int (i : Z).

(** What a verb prints for an operand; a verb that does not fit its
    operand prints Go's marker for a bad verb. *)
Definition verb (v : ascii) (a : arg) : string :=
  match a with
  | Str s => if Ascii.eqb v "s" then s else "%!" ++ String v "(string)"
  | Int i => if Ascii.eqb v "d" then strconv.FormatInt i else "%!" ++ String v "(int)"
  end.

(** [fmt.Sprintf] for the verbs [%s] and [%d], which are the ones the
    callers use. *)
Fixpoint Sprintf (format : string) (args : list arg) : string :=
  match format with
  | EmptyString => EmptyString
  | String c r =>
      if Ascii.eqb c "%" then
        match r with
        | EmptyString => "%!(NOVERB)"
        | String v r' =>
            if Ascii.eqb v "%" then String "%" (Sprintf r' args)
            else
              match args with
              | [] => "%!" ++ String v ("(MISSING)" ++ Sprintf r' [])
              | a :: args' => verb v a ++ Sprintf r' args'
              end
        end
      else String c (Sprintf r args)
  end.

End fmt.

Module strings.

(** [strings.Join(elems, sep)] *)
Definition Join (elems : list string) (sep : string) : string :=
  String.concat sep elems.

End strings.

(** [func (err *ApiOvhError) Error() string] of [error.go] *)
Definition ApiOvhError_Error (err : ApiOvhError) : string :=
  fmt.Sprintf "Error %d : %s" [fmt.Int (Code err); fmt.Str (Message err)].

(** ** The JSON form of the structs *)

(** The names under which [encoding/json] knows the fields of
    [ApiOvhError], which has no tag, and how a member is stored in each. *)
Definition ApiOvhError_names : list string := ["Message"; "Code"; "Tracer"].

Definition ApiOvhError_set (i : nat) (v : json.value) (e : ApiOvhError)
  : json.Error + ApiOvhError :=
  match i with
  | 0%nat =>
      match json.store_string v (Message e) with
      | inr s => inr {| Message := s; Code := Code e; Tracer := Tracer e |}
      | inl err => inl err
      end
  | 1%nat =>
      match json.store_int v (Code e) with
      | inr n => inr {| Message := Message e; Code := n; Tracer := Tracer e |}
      | inl err => inl err
      end
  | 2%nat =>
      match json.store_string v (Tracer e) with
      | inr s => inr {| Message := Message e; Code := Code e; Tracer := s |}
      | inl err => inl err
      end
  | _ => inr e
  end.

(** [json.Unmarshal(data, apiError)] for [apiError *ApiOvhError]. *)
Definition Unmarshal_ApiOvhError (data : string) (apiError : ApiOvhError)
  : error + ApiOvhError :=
  match json.Unmarshal data (json.struct ApiOvhError_names ApiOvhError_set apiError) with
  | inl e => inl (JSONError e)
  | inr a => inr a
  end.

(** [AccessRule] and [GetCKParams], which are the same in both versions. *)
Module AccessRule.
Record t := { Method : string; Path : string }.

Definition to_json (r : t) : json.value :=
  json.Object [("method", json.Str (Method r)); ("path", json.Str (Path r))].
End AccessRule.

Module GetCKParams.
(** [AccessRules] is a slice of pointers: the slice may be [nil], and so
    may each of its elements. *)
Record t := {
  AccessRules : option (list (option AccessRule.t));
  Redirection : string
}.

Definition pointer_to_json {A : Type} (f : A -> json.value) (p : option A)
  : json.value :=
  match p with
  | None => json.Null
  | Some a => f a
  end.

Definition to_json (p : t) : json.value :=
  json.Object
    [("accessRules",
      pointer_to_json
        (fun l => json.Array (map (pointer_to_json AccessRule.to_json) l))
        (AccessRules p));
     ("redirection", json.Str (Redirection p))].
End GetCKParams.

(** [json.Marshal(ckParams)] for [ckParams *GetCKParams]. *)
Definition Marshal_GetCKParams (ckParams : option GetCKParams.t) : error + string :=
  match json.Marshal
          (json.Encodable (GetCKParams.pointer_to_json GetCKParams.to_json ckParams)) with
  | inl e => inl (JSONError e)
  | inr params => inr params
  end.

(** [json.Marshal(body)] for [body interface{}], which is not [nil]. *)
Definition Marshal_body (body : json.govalue) : error + string :=
  match json.Marshal body with
  | inl e => inl (JSONError e)
  | inr params => inr params
  end.

(** [json.Unmarshal(resBody, &typeResult)]: [typeResult] is the way the
    value that the caller passed takes a document. *)
Definition Unmarshal_into {R : Type} (resBody : string)
  (typeResult : json.value -> json.Error + R) : error + R :=
  match json.Unmarshal resBody typeResult with
  | inl e => inl (JSONError e)
  | inr r => inr r
  end.

Notation "x <-[ f ] m ;; k" := (try f m (fun x => k))
  (at level 100, m at next level, right associativity) : monad_scope.

(** ** [src/caller.go] *)

Module V1.

Definition ApiUrl : gmap string string :=
  list_to_map
    [("ovh-eu", "https://api.ovh.com/1.0");
     ("ovh-ca", "https://ca.api.ovh.com/1.0");
     ("runabove", "https://api.runabove.com/1.0")].

Record Caller := {
  ApplicationKey : string;
  ApplicationSecret : string;
  ConsumerKey : string;
  Url : string;
  delay : Z
}.

Module GetCKResponse.
Record t := { ConsumerKey : string; Status : string; ValidationUrl : string }.

(** The struct has no tag: the fields go by their Go names. *)
Definition names : list string := ["ConsumerKey"; "Status"; "ValidationUrl"].

Definition set (i : nat) (v : json.value) (r : t) : json.Error + t :=
  match i with
  | 0%nat =>
      match json.store_string v (ConsumerKey r) with
      | inr s => inr {| ConsumerKey := s; Status := Status r;
                        ValidationUrl := ValidationUrl r |}
      | inl err => inl err
      end
  | 1%nat =>
      match json.store_string v (Status r) with
      | inr s => inr {| ConsumerKey := ConsumerKey r; Status := s;
                        ValidationUrl := ValidationUrl r |}
      | inl err => inl err
      end
  | 2%nat =>
      match json.store_string v (ValidationUrl r) with
      | inr s => inr {| ConsumerKey := ConsumerKey r; Status := Status r;
                        ValidationUrl := s |}
      | inl err => inl err
      end
  | _ => inr r
  end.

(** [new(GetCKResponse)] *)
Definition new : t :=
  {| ConsumerKey := EmptyString; Status := EmptyString;
     ValidationUrl := EmptyString |}.

Definition Unmarshal (data : string) (askCK : t) : error + t :=
  match json.Unmarshal data (json.struct names set askCK) with
  | inl e => inl (JSONError e)
  | inr a => inr a
  end.
End GetCKResponse.

(** [new(ApiOvhError)] *)
Definition new_ApiOvhError : ApiOvhError :=
  {| Message := EmptyString; Code := 0; Tracer := EmptyString |}.

Definition getSignature (caller : Caller) (method url body : string) (apiTime : Z)
  : string :=
  let h := sha1.New in
  let sig :=
    fmt.Sprintf "%s+%s+%s+%s+%s+%d"
      [fmt.Str (ApplicationSecret caller); fmt.Str (ConsumerKey caller);
       fmt.Str method; fmt.Str url; fmt.Str body; fmt.Int apiTime] in
  let h := sha1.WriteString h sig in
  "$1$" ++ hex.EncodeToString (sha1.Sum h).

(** [src/caller.go] wraps the errors of the libraries with
    [NewError(err.Error(), http.StatusInternalServerError)].  The function
    [NewError] is not in the sources: it is a parameter of the methods that
    call it, together with the method [Error] of the errors, which gives the
    message that [NewError] receives. *)
Record Errors := {
  Error : error -> string;
  NewError : string -> Z -> error
}.

Section Methods.
Context (env : Env) (errs : Errors).

Definition wrap (err : error) : error :=
  NewError errs (Error errs err) http.StatusInternalServerError.

Definition Time : M (State Caller) (error + Z) :=
  caller <- get_self ;;
  request <-[ id ]
    lift (http.NewRequest (parse_url env) "GET"
            (fmt.Sprintf "%s/auth/time" [fmt.Str (Url caller)]) EmptyString) ;;
  result <-[ id ] Do env request ;;
  body <-[ id ] lift (http.Body result) ;;
  if negb (http.StatusCode result =? 200) then
    ret (inl (errorString
                (fmt.Sprintf "API seems down, HTTP response: %d"
                   [fmt.Int (http.StatusCode result)])))
  else
    match strconv.Atoi (fmt.Sprintf "%s" [fmt.Str body]) with
    | inl err => ret (inl (NumError err))
    | inr apiTime => ret (inr apiTime)
    end.

Definition Ping : M (State Caller) (option error) :=
  r <- Time ;;
  match r with
  | inl err => ret (Some err)
  | inr _ => ret None
  end.

Definition NewCaller (endpoint applicationKey applicationSecret consumerKey : string)
  : M World (error + Caller) :=
  fun w =>
    let url := default EmptyString (ApiUrl !! endpoint) in
    if String.eqb url EmptyString then
      (inl (errorString (fmt.Sprintf "Invalid endpoint %s" [fmt.Str endpoint])), w)
    else
      let caller :=
        {| ApplicationKey := applicationKey;
           ApplicationSecret := applicationSecret;
           ConsumerKey := consumerKey;
           Url := url;
           delay := 0 |} in
      let '(r, s) :=
        (t <- time_Now env ;;
         let currentTime := time.Unix t in
         ovhTime <-[ id ] Time ;;
         caller <- get_self ;;
         let caller :=
           {| ApplicationKey := ApplicationKey caller;
              ApplicationSecret := ApplicationSecret caller;
              ConsumerKey := ConsumerKey caller;
              Url := Url caller;
              delay := wrap_int (ovhTime - currentTime) |} in
         _ <- set_self caller ;;
         ret (inr caller))
          {| self := caller; world := w |} in
      (r, world s).

Definition GetConsumerKey (ckParams : option GetCKParams.t)
  : M (State Caller) (error + GetCKResponse.t) :=
  params <-[ wrap ] lift (Marshal_GetCKParams ckParams) ;;
  caller <- get_self ;;
  request <-[ wrap ]
    lift (http.NewRequest (parse_url env) "POST"
            (fmt.Sprintf "%s/auth/credential" [fmt.Str (Url caller)]) params) ;;
  let request := http.HeaderAdd "Content-Type" "application/json" request in
  let request := http.HeaderAdd "X-OVH-Application" (ApplicationKey caller) request in
  result <-[ wrap ] Do env request ;;
  body <-[ wrap ] lift (http.Body result) ;;
  if http.StatusCode result =? 200 then
    askCK <-[ wrap ] lift (GetCKResponse.Unmarshal body GetCKResponse.new) ;;
    caller <- get_self ;;
    _ <- set_self
           {| ApplicationKey := ApplicationKey caller;
              ApplicationSecret := ApplicationSecret caller;
              ConsumerKey := GetCKResponse.ConsumerKey askCK;
              Url := Url caller;
              delay := delay caller |} ;;
    ret (inr askCK)
  else
    apiError <-[ wrap ] lift (Unmarshal_ApiOvhError body new_ApiOvhError) ;;
    let apiError :=
      {| Message := Message apiError; Code := http.StatusCode result;
         Tracer := Tracer apiError |} in
    ret (inl (ApiError apiError)).

Definition CallApi {R : Type} (url method : string) (body : option json.govalue)
  (typeResult : option (json.value -> json.Error + R))
  : M (State Caller) (error + option R) :=
  params <-[ wrap ]
    lift (match body with
          | Some b => Marshal_body b
          | None => inr EmptyString
          end) ;;
  caller <- get_self ;;
  let completeUrl := fmt.Sprintf "%s%s" [fmt.Str (Url caller); fmt.Str url] in
  request <-[ wrap ]
    lift (http.NewRequest (parse_url env) method completeUrl params) ;;
  t <- time_Now env ;;
  let timestamp := wrap_int (time.Unix t + delay caller) in
  let request := http.HeaderAdd "Content-Type" "application/json" request in
  let request :=
    http.HeaderAdd "X-Ovh-Timestamp" (fmt.Sprintf "%d" [fmt.Int timestamp]) request in
  let request := http.HeaderAdd "X-Ovh-Application" (ApplicationKey caller) request in
  let request := http.HeaderAdd "X-Ovh-Consumer" (ConsumerKey caller) request in
  let signature :=
    getSignature caller method completeUrl (fmt.Sprintf "%s" [fmt.Str params])
      timestamp in
  let request := http.HeaderAdd "X-Ovh-Signature" signature request in
  result <-[ wrap ] Do env request ;;
  resBody <-[ wrap ] lift (http.Body result) ;;
  if (200 <=? http.StatusCode result) && (http.StatusCode result <? 300) then
    if (0 <? String.length resBody)%nat then
      match typeResult with
      | Some store =>
          r <-[ wrap ] lift (Unmarshal_into resBody store) ;;
          ret (inr (Some r))
      | None => ret (inr None)
      end
    else ret (inr None)
  else
    apiError <-[ wrap ] lift (Unmarshal_ApiOvhError resBody new_ApiOvhError) ;;
    let apiError :=
      {| Message := Message apiError; Code := http.StatusCode result;
         Tracer := Tracer apiError |} in
    ret (inl (ApiError apiError)).

End Methods.

End V1.

(** ** [src/unnamed/part_000] *)

Module V2.

Definition APIURL : gmap string string :=
  list_to_map
    [("ovh-eu", "https://api.ovh.com/1.0");
     ("ovh-ca", "https://ca.api.ovh.com/1.0");
     ("runabove", "https://api.runabove.com/1.0")].

(** [delay] is a [time.Duration]: nanoseconds. *)
Record Caller := {
  ApplicationKey : string;
  ApplicationSecret : string;
  ConsumerKey : string;
  URL : string;
  delay : Z
}.

Module GetCKResponse.
Record t := { ConsumerKey : string; Status : string; ValidationURL : string }.

(** The names given by the tags of the fields. *)
Definition names : list string := ["consumerKey"; "state"; "validationUrl"].

Definition set (i : nat) (v : json.value) (r : t) : json.Error + t :=
  match i with
  | 0%nat =>
      match json.store_string v (ConsumerKey r) with
      | inr s => inr {| ConsumerKey := s; Status := Status r;
                        ValidationURL := ValidationURL r |}
      | inl err => inl err
      end
  | 1%nat =>
      match json.store_string v (Status r) with
      | inr s => inr {| ConsumerKey := ConsumerKey r; Status := s;
                        ValidationURL := ValidationURL r |}
      | inl err => inl err
      end
  | 2%nat =>
      match json.store_string v (ValidationURL r) with
      | inr s => inr {| ConsumerKey := ConsumerKey r; Status := Status r;
                        ValidationURL := s |}
      | inl err => inl err
      end
  | _ => inr r
  end.

(** [new(GetCKResponse)] *)
Definition new : t :=
  {| ConsumerKey := EmptyString; Status := EmptyString;
     ValidationURL := EmptyString |}.

Definition Unmarshal (data : string) (askCK : t) : error + t :=
  match json.Unmarshal data (json.struct names set askCK) with
  | inl e => inl (JSONError e)
  | inr a => inr a
  end.
End GetCKResponse.

Definition getSignature (caller : Caller) (method url body : string) (timestamp : Z)
  : string :=
  let h := sha1.New in
  let sig :=
    strings.Join
      [ApplicationSecret caller; ConsumerKey caller; method; url; body;
       strconv.FormatInt timestamp]
      "+" in
  let h := sha1.WriteString h sig in
  "$1$" ++ hex.EncodeToString (sha1.Sum h).

(** [for h, v := range headers { request.Header.Add(h, v) }], the
    entries of the map taken in the order of [headers]. *)
Definition add_headers (headers : list (string * string)) (request : http.Request)
  : http.Request :=
  fold_left (fun r hv => http.HeaderAdd (fst hv) (snd hv) r) headers request.

Section Methods.
Context (env : Env).

Definition Time : M (State Caller) (error + Z) :=
  caller <- get_self ;;
  request <-[ id ]
    lift (http.NewRequest (parse_url env) "GET"
            (fmt.Sprintf "%s/auth/time" [fmt.Str (URL caller)]) EmptyString) ;;
  let request := http.HeaderAdd "Content-Type" "application/json" request in
  result <-[ id ] Do env request ;;
  body <-[ id ] lift (http.Body result) ;;
  if negb (http.StatusCode result =? http.StatusOK) then
    ret (inl (errorString
                (fmt.Sprintf "API seems down, HTTP response: %d"
                   [fmt.Int (http.StatusCode result)])))
  else
    match strconv.Atoi body with
    | inl err => ret (inl (NumError err))
    | inr ts => ret (inr (time.Unix_ ts))
    end.

Definition Ping : M (State Caller) (option error) :=
  r <- Time ;;
  match r with
  | inl err => ret (Some err)
  | inr _ => ret None
  end.

Definition NewCaller (endpoint applicationKey applicationSecret consumerKey : string)
  : M World (error + Caller) :=
  fun w =>
    match APIURL !! endpoint with
    | None => (inl (InvalidEndpoint endpoint), w)
    | Some url =>
        let caller :=
          {| ApplicationKey := applicationKey;
             ApplicationSecret := applicationSecret;
             ConsumerKey := consumerKey;
             URL := url;
             delay := 0 |} in
        let '(r, s) :=
          (ovhTime <-[ id ] Time ;;
           t <- time_Now env ;;
           caller <- get_self ;;
           let caller :=
             {| ApplicationKey := ApplicationKey caller;
                ApplicationSecret := ApplicationSecret caller;
                ConsumerKey := ConsumerKey caller;
                URL := URL caller;
                delay := time.Sub t ovhTime |} in
           _ <- set_self caller ;;
           ret (inr caller))
            {| self := caller; world := w |} in
        (r, world s)
    end.

Definition GetConsumerKey (ckParams : option GetCKParams.t)
  : M (State Caller) (error + GetCKResponse.t) :=
  params <-[ id ] lift (Marshal_GetCKParams ckParams) ;;
  caller <- get_self ;;
  request <-[ id ]
    lift (http.NewRequest (parse_url env) "POST"
            (fmt.Sprintf "%s/auth/credential" [fmt.Str (URL caller)]) params) ;;
  let request := http.HeaderAdd "Content-Type" "application/json" request in
  let request := http.HeaderAdd "X-OVH-Application" (ApplicationKey caller) request in
  result <-[ id ] Do env request ;;
  body <-[ id ] lift (http.Body result) ;;
  if http.StatusCode result =? 200 then
    askCK <-[ id ] lift (GetCKResponse.Unmarshal body GetCKResponse.new) ;;
    caller <- get_self ;;
    _ <- set_self
           {| ApplicationKey := ApplicationKey caller;
              ApplicationSecret := ApplicationSecret caller;
              ConsumerKey := GetCKResponse.ConsumerKey askCK;
              URL := URL caller;
              delay := delay caller |} ;;
    ret (inr askCK)
  else
    let apiError :=
      {| Message := EmptyString; Code := http.StatusCode result;
         Tracer := EmptyString |} in
    apiError <-[ id ] lift (Unmarshal_ApiOvhError body apiError) ;;
    ret (inl (ApiError apiError)).

Definition CallAPI {R : Type} (url method : string) (body : option json.govalue)
  (typeResult : option (json.value -> json.Error + R))
  : M (State Caller) (error + option R) :=
  params <-[ id ]
    lift (match body with
          | Some b => Marshal_body b
          | None => inr EmptyString
          end) ;;
  caller <- get_self ;;
  let completeURL := (URL caller ++ url)%string in
  request <-[ id ]
    lift (http.NewRequest (parse_url env) method completeURL params) ;;
  t <- time_Now env ;;
  let timestamp := time.Unix (time.Add t (delay caller)) in
  let sig := getSignature caller method completeURL params timestamp in
  let request :=
    add_headers
      [("Content-Type", "application/json");
       ("X-Ovh-Timestamp", strconv.FormatInt timestamp);
       ("X-Ovh-Application", ApplicationKey caller);
       ("X-Ovh-Consumer", ConsumerKey caller);
       ("X-Ovh-Signature", sig)]
      request in
  result <-[ id ] Do env request ;;
  resBody <-[ id ] lift (http.Body result) ;;
  if (http.StatusOK <=? http.StatusCode result)
     && (http.StatusCode result <? http.StatusMultipleChoices) then
    if (0 <? String.length resBody)%nat then
      match typeResult with
      | Some store =>
          r <-[ id ] lift (Unmarshal_into resBody store) ;;
          ret (inr (Some r))
      | None => ret (inr None)
      end
    else ret (inr None)
  else
    let apiError :=
      {| Message := EmptyString; Code := http.StatusCode result;
         Tracer := EmptyString |} in
    apiError <-[ id ] lift (Unmarshal_ApiOvhError resBody apiError) ;;
    ret (inl (ApiError apiError)).

End Methods.

End V2.

(** ** The words of the specification *)

Module Spec.

(** The text over which the specification computes the signature: the six
    segments joined by [+], the method in upper case. *)
Definition signed_text (secret consumerToken method fullURL body : string)
  (timestamp : Z) : string :=
  strings.Join
    [secret; consumerToken; Bytes.ToUpper method; fullURL; body;
     strconv.FormatInt timestamp]
    "+".

(** The same text with the method as the caller passed it. *)
Definition signed_text_as_passed (secret consumerToken method fullURL body : string)
  (timestamp : Z) : string :=
  strings.Join
    [secret; consumerToken; method; fullURL; body; strconv.FormatInt timestamp]
    "+".

(** The version tag, then the SHA-1 digest of the text in hexadecimal. *)
Definition token (text : string) : string :=
  "$1$" ++ hex.EncodeToString (sha1.Sum (Bytes.of_string text)).

Definition sign (secret consumerToken method fullURL body : string) (timestamp : Z)
  : string :=
  token (signed_text secret consumerToken method fullURL body timestamp).

Definition sign_as_passed (secret consumerToken method fullURL body : string)
  (timestamp : Z) : string :=
  token (signed_text_as_passed secret consumerToken method fullURL body timestamp).

Fixpoint all_digits (s : string) : bool :=
  match s with
  | EmptyString => true
  | String c r => Bytes.is_digit c && all_digits r
  end.


(** The success range of the dispatcher. *)
Definition success (status : Z) : bool := (200 <=? status) && (status <? 300).

(** A decimal digit [d] and the character that [strconv] writes for it. *)
Definition digit_ok (d : Z) : bool :=
  Bytes.is_digit (strconv.digit_char d)
  && (Bytes.byte_of (strconv.digit_char d) - 48 =? d).

(** Lower-case hexadecimal text. *)
Fixpoint lower_hex (s : string) : bool :=
  match s with
  | EmptyString => true
  | String c r => hex.is_lower_hex c && lower_hex r
  end.

(** The two characters that [hex.EncodeToString] writes for the byte [v]
    are lower-case hexadecimal digits that spell [v]. *)
Definition spelled (v : Z) : bool :=
  let hi := hex.digit (Z.shiftr v 4) in
  let lo := hex.digit (Z.land v 15) in
  match hex.from_char hi, hex.from_char lo with
  | Some x, Some y =>
      (Z.lor (Z.shiftl x 4) y =? v) && hex.is_lower_hex hi && hex.is_lower_hex lo
  | _, _ => false
  end.

End Spec.

(** ** Examples: texts and worlds *)

(** The JSON texts of the examples are written with apostrophes where JSON
    has double quotes; [quoted] puts the double quotes in. *)
Fixpoint quoted (s : string) : string :=
  match s with
  | EmptyString => EmptyString
  | String c r => String (if Ascii.eqb c "'" then json.dquote else c) (quoted r)
  end.

(** A world whose clock reads [clock n] seconds at the [n]-th reading, whose
    transport answers every request with [status] and [body], and whose URL
    parser accepts every URL. *)
Definition answering (clock : nat -> Z) (status : Z) (body : string) : Env :=
  {| now := fun n => clock n * time.Second;
     roundtrip := fun _ _ => inr {| http.StatusCode := status; http.Body := inr body |};
     parse_url := fun _ => true |}.

Definition nothing_yet : World := {| reads := 0; sent := [] |}.

(** A [NewError] for the examples: the plain error with the message. *)
Definition plain : V1.Errors :=
  {| V1.Error := fun _ => "error"; V1.NewError := fun msg _ => errorString msg |}.

(** A caller of each version, with a clock offset of a hundred seconds. *)
Definition caller1 : V1.Caller :=
  {| V1.ApplicationKey := "AK"; V1.ApplicationSecret := "AS"; V1.ConsumerKey := "CK";
     V1.Url := "https://api.ovh.com/1.0"; V1.delay := 100 |}.

Definition caller2 : V2.Caller :=
  {| V2.ApplicationKey := "AK"; V2.ApplicationSecret := "AS"; V2.ConsumerKey := "CK";
     V2.URL := "https://api.ovh.com/1.0"; V2.delay := 100 * time.Second |}.

(* ===================================================================== *)
(** * Properties                                                          *)
(* ===================================================================== *)

(** ** Strings *)

Lemma append_cons (c : ascii) (a b : string) :
  (String c a ++ b)%string = String c (a ++ b).
Proof. reflexivity. Qed.

Lemma append_nil_r (s : string) : (s ++ EmptyString)%string = s.
Proof.
  induction s as [|c s IH]; [reflexivity | now rewrite append_cons, IH].
Qed.

Lemma append_assoc (a b c : string) : ((a ++ b) ++ c = a ++ (b ++ c))%string.
Proof.
  induction a as [|x a IH]; [reflexivity | now rewrite !append_cons, IH].
Qed.

Lemma length_append (a b : string) :
  String.length (a ++ b) = (String.length a + String.length b)%nat.
Proof.
  induction a as [|x a IH]; [reflexivity | rewrite append_cons; simpl; now rewrite IH].
Qed.

(** ** The six segments: [Sprintf] and [Join] build the same text *)

Lemma Sprintf_signature (secret consumer method url body : string) (t : Z) :
  fmt.Sprintf "%s+%s+%s+%s+%s+%d"
    [fmt.Str secret; fmt.Str consumer; fmt.Str method; fmt.Str url; fmt.Str body;
     fmt.Int t]
  = strings.Join [secret; consumer; method; url; body; strconv.FormatInt t] "+".
Proof.
  unfold strings.Join. cbn [fmt.Sprintf fmt.verb Ascii.eqb Bool.eqb String.concat].
  now rewrite append_nil_r.
Qed.

Lemma V1_getSignature_token (c : V1.Caller) (method url body : string) (t : Z) :
  V1.getSignature c method url body t
  = Spec.sign_as_passed (V1.ApplicationSecret c) (V1.ConsumerKey c) method url body t.
Proof.
  unfold V1.getSignature, Spec.sign_as_passed, Spec.token, Spec.signed_text_as_passed.
  unfold sha1.WriteString, sha1.New. now rewrite Sprintf_signature.
Qed.

Lemma V2_getSignature_token (c : V2.Caller) (method url body : string) (t : Z) :
  V2.getSignature c method url body t
  = Spec.sign_as_passed (V2.ApplicationSecret c) (V2.ConsumerKey c) method url body t.
Proof. reflexivity. Qed.

(** ** Hexadecimal *)

Lemma spelled_all : forallb Spec.spelled (map Z.of_nat (seq 0 256)) = true.
Proof. vm_compute. reflexivity. Qed.

Lemma spelled_byte (v : Z) : 0 <= v < 256 -> Spec.spelled v = true.
Proof.
  intros Hv. pose proof spelled_all as H.
  rewrite forallb_forall in H. apply H.
  apply in_map_iff. exists (Z.to_nat v). split; [lia |].
  apply in_seq. lia.
Qed.

Lemma EncodeToString_length (bs : list Z) :
  String.length (hex.EncodeToString bs) = (2 * length bs)%nat.
Proof. induction bs as [|v bs IH]; simpl; [reflexivity | rewrite IH; lia]. Qed.

Lemma EncodeToString_lower (bs : list Z) :
  Forall (fun v => 0 <= v < 256) bs ->
  Spec.lower_hex (hex.EncodeToString bs) = true.
Proof.
  induction 1 as [|v bs Hv _ IH]; [reflexivity |].
  apply spelled_byte in Hv. unfold Spec.spelled in Hv.
  cbn [hex.EncodeToString Spec.lower_hex].
  destruct (hex.from_char _); [| discriminate].
  destruct (hex.from_char _); [| discriminate].
  apply andb_true_iff in Hv as [Hv Hlo]. apply andb_true_iff in Hv as [_ Hhi].
  now rewrite Hhi, Hlo, IH.
Qed.

Lemma DecodeString_EncodeToString (bs : list Z) :
  Forall (fun v => 0 <= v < 256) bs ->
  hex.DecodeString (hex.EncodeToString bs) = Some bs.
Proof.
  induction 1 as [|v bs Hv _ IH]; [reflexivity |].
  apply spelled_byte in Hv. unfold Spec.spelled in Hv.
  cbn [hex.EncodeToString hex.DecodeString].
  destruct (hex.from_char _) as [x|]; [| discriminate].
  destruct (hex.from_char _) as [y|]; [| discriminate].
  apply andb_true_iff in Hv as [Hv _]. apply andb_true_iff in Hv as [Hv _].
  apply Z.eqb_eq in Hv. now rewrite IH, Hv.
Qed.

(** ** SHA-1: twenty bytes *)

Lemma block1_five (h p : list Z) : exists a b c d e, sha1.block1 h p = [a; b; c; d; e].
Proof. unfold sha1.block1. do 5 eexists. reflexivity. Qed.

Lemma blocks_five (n : nat) (h p : list Z) :
  length h = 5%nat -> length (sha1.blocks n h p) = 5%nat.
Proof.
  revert h p. induction n as [|n IH]; intros h p Hh; [exact Hh |].
  cbn [sha1.blocks]. apply IH.
  destruct (block1_five h (firstn 64 p)) as (a & b & c & d & e & ->). reflexivity.
Qed.

Lemma be_bytes_length (n : nat) (x : Z) : length (sha1.be_bytes n x) = n.
Proof. unfold sha1.be_bytes. now rewrite length_map, length_rev, length_seq. Qed.

Lemma be_bytes_range (n : nat) (x : Z) :
  Forall (fun v => 0 <= v < 256) (sha1.be_bytes n x).
Proof.
  unfold sha1.be_bytes. apply Forall_forall. intros v Hv.
  apply list_elem_of_In, in_map_iff in Hv as (i & <- & _).
  apply Z.mod_pos_bound. lia.
Qed.

Lemma Sum_length (msg : list Z) : length (sha1.Sum msg) = 20%nat.
Proof.
  unfold sha1.Sum.
  pose proof (blocks_five (length (sha1.pad msg) / 64) sha1.init (sha1.pad msg) eq_refl) as H.
  destruct (sha1.blocks _ _ _) as [|a [|b [|c [|d [|e [|f l]]]]]]; try discriminate H.
  cbn [flat_map]. rewrite !length_app, !be_bytes_length. reflexivity.
Qed.

Lemma Sum_range (msg : list Z) : Forall (fun v => 0 <= v < 256) (sha1.Sum msg).
Proof.
  unfold sha1.Sum. induction (sha1.blocks _ _ _) as [|x l IH]; cbn [flat_map].
  - constructor.
  - apply Forall_app. split; [apply be_bytes_range | exact IH].
Qed.

(** ** The signature *)

(** C10.  The two implementations of the signature function agree: callers
    of the two versions that hold the same application secret and the same
    consumer key compute the same signature for the same method, URL, body
    and timestamp. *)
Theorem getSignature_versions_agree
  (c1 : V1.Caller) (c2 : V2.Caller) (method url body : string) (timestamp : Z) :
  V1.ApplicationSecret c1 = V2.ApplicationSecret c2 ->
  V1.ConsumerKey c1 = V2.ConsumerKey c2 ->
  V1.getSignature c1 method url body timestamp
  = V2.getSignature c2 method url body timestamp.
Proof.
  intros Hs Hc. rewrite V1_getSignature_token, V2_getSignature_token.
  now rewrite Hs, Hc.
Qed.

Lemma getSignature_versions_agree_witness :
  let c1 := {| V1.ApplicationKey := "AK"; V1.ApplicationSecret := "AS";
               V1.ConsumerKey := "CK"; V1.Url := "https://api.ovh.com/1.0";
               V1.delay := 100 |} in
  let c2 := {| V2.ApplicationKey := "AK"; V2.ApplicationSecret := "AS";
               V2.ConsumerKey := "CK"; V2.URL := "https://api.ovh.com/1.0";
               V2.delay := -100000000000 |} in
  V1.ApplicationSecret c1 = V2.ApplicationSecret c2
  /\ V1.ConsumerKey c1 = V2.ConsumerKey c2
  /\ V1.getSignature c1 "GET" "https://api.ovh.com/1.0/me" EmptyString 1700000000
     = V2.getSignature c2 "GET" "https://api.ovh.com/1.0/me" EmptyString 1700000000.
Proof.
  intros c1 c2. split; [reflexivity |]. split; [reflexivity |].
  apply (getSignature_versions_agree c1 c2); reflexivity.
Defined.

(** The claim C3 as the specification words it, with the method in upper
    case, fails for a method that the caller passes in lower case: both
    versions sign the method as it was passed. *)
Lemma signature_keeps_method_case :
  let c1 := {| V1.ApplicationKey := "AK"; V1.ApplicationSecret := "AS";
               V1.ConsumerKey := "CK"; V1.Url := "https://api.ovh.com/1.0";
               V1.delay := 0 |} in
  let c2 := {| V2.ApplicationKey := "AK"; V2.ApplicationSecret := "AS";
               V2.ConsumerKey := "CK"; V2.URL := "https://api.ovh.com/1.0";
               V2.delay := 0 |} in
  V1.getSignature c1 "get" "https://api.ovh.com/1.0/me" EmptyString 1700000000
  <> Spec.sign "AS" "CK" "get" "https://api.ovh.com/1.0/me" EmptyString 1700000000
  /\ V2.getSignature c2 "get" "https://api.ovh.com/1.0/me" EmptyString 1700000000
     <> Spec.sign "AS" "CK" "get" "https://api.ovh.com/1.0/me" EmptyString 1700000000.
Proof.
  intros c1 c2. split; apply String.eqb_neq; vm_compute; reflexivity.
Qed.

(** C3, amended.  For every secret, consumer key, method, URL, body and
    timestamp, both versions return the tag [$1$] followed by the SHA-1
    digest, written as forty lower-case hexadecimal digits, of the text made
    of the application secret, the consumer key, the method as it was passed
    (no change of case), the URL, the body and the decimal form of the
    timestamp, in this order and joined by [+]. *)
Theorem signature_is_tagged_sha1
  (key secret consumer base method url body : string) (delay1 delay2 timestamp : Z) :
  let c1 := {| V1.ApplicationKey := key; V1.ApplicationSecret := secret;
               V1.ConsumerKey := consumer; V1.Url := base; V1.delay := delay1 |} in
  let c2 := {| V2.ApplicationKey := key; V2.ApplicationSecret := secret;
               V2.ConsumerKey := consumer; V2.URL := base; V2.delay := delay2 |} in
  let text := (secret ++ "+" ++ consumer ++ "+" ++ method ++ "+" ++ url ++ "+"
               ++ body ++ "+" ++ strconv.FormatInt timestamp)%string in
  let digest := sha1.Sum (Bytes.of_string text) in
  V1.getSignature c1 method url body timestamp = ("$1$" ++ hex.EncodeToString digest)%string
  /\ V2.getSignature c2 method url body timestamp
     = ("$1$" ++ hex.EncodeToString digest)%string
  /\ length digest = 20%nat
  /\ String.length (hex.EncodeToString digest) = 40%nat
  /\ Spec.lower_hex (hex.EncodeToString digest) = true
  /\ hex.DecodeString (hex.EncodeToString digest) = Some digest.
Proof.
  intros c1 c2 text digest.
  split; [rewrite V1_getSignature_token; reflexivity |].
  split; [rewrite V2_getSignature_token; reflexivity |].
  split; [apply Sum_length |].
  split; [rewrite EncodeToString_length; unfold digest; now rewrite Sum_length |].
  split; [apply EncodeToString_lower, Sum_range |].
  apply DecodeString_EncodeToString, Sum_range.
Qed.

(** When the method is already in upper case the signature is the one of
    the specification. *)
Lemma signature_of_upper_case_method
  (c1 : V1.Caller) (c2 : V2.Caller) (method url body : string) (timestamp : Z) :
  Bytes.ToUpper method = method ->
  V1.getSignature c1 method url body timestamp
  = Spec.sign (V1.ApplicationSecret c1) (V1.ConsumerKey c1) method url body timestamp
  /\ V2.getSignature c2 method url body timestamp
     = Spec.sign (V2.ApplicationSecret c2) (V2.ConsumerKey c2) method url body timestamp.
Proof.
  intros Hup. rewrite V1_getSignature_token, V2_getSignature_token.
  unfold Spec.sign, Spec.sign_as_passed, Spec.signed_text, Spec.signed_text_as_passed.
  now rewrite Hup.
Qed.

(** ** Decimal integers: [FormatInt] and [Atoi] *)

Lemma digit_ok_all : forallb Spec.digit_ok (map Z.of_nat (seq 0 10)) = true.
Proof. vm_compute. reflexivity. Qed.

Lemma digit_char_spec (d : Z) :
  0 <= d < 10 ->
  Bytes.is_digit (strconv.digit_char d) = true
  /\ Bytes.byte_of (strconv.digit_char d) - 48 = d.
Proof.
  intros Hd. pose proof digit_ok_all as H. rewrite forallb_forall in H.
  assert (Spec.digit_ok d = true) as Hok.
  { apply H, in_map_iff. exists (Z.to_nat d). split; [lia |]. apply in_seq. lia. }
  apply andb_true_iff in Hok as [H1 H2]. apply Z.eqb_eq in H2. now split.
Qed.

Lemma parse_digits_append (a b : string) (n : Z) :
  strconv.parse_digits (a ++ b) n
  = match strconv.parse_digits a n with
    | Some m => strconv.parse_digits b m
    | None => None
    end.
Proof.
  revert n. induction a as [|c a IH]; intros n; [reflexivity |].
  rewrite append_cons. cbn [strconv.parse_digits].
  destruct (Bytes.is_digit c); [apply IH | reflexivity].
Qed.

(** The digits that [format_loop] puts in front of [acc] are read back by
    [parse_digits] as the number they were produced from. *)
Lemma format_loop_spec (fuel : nat) :
  forall (u : Z) (acc : string),
    0 <= u < 2 ^ Z.of_nat (S fuel) ->
    exists ds c r,
      strconv.format_loop (S fuel) u acc = (ds ++ acc)%string
      /\ ds = String c r /\ Bytes.is_digit c = true
      /\ forall n0, strconv.parse_digits ds n0
                    = Some (n0 * 10 ^ Z.of_nat (String.length ds) + u).
Proof.
  induction fuel as [|fuel IH]; intros u acc Hu.
  - assert (u / 10 = 0) as Hq by (apply Z.div_small; change (2 ^ Z.of_nat 1) with 2 in Hu; lia).
    assert (u mod 10 = u) as Hm by (apply Z.mod_small; change (2 ^ Z.of_nat 1) with 2 in Hu; lia).
    cbn [strconv.format_loop]. rewrite Hq, Hm. cbn [Z.eqb].
    destruct (digit_char_spec u) as [Hd Hv];
      [change (2 ^ Z.of_nat 1) with 2 in Hu; lia |].
    exists (String (strconv.digit_char u) EmptyString), (strconv.digit_char u), EmptyString.
    repeat split; [exact Hd |].
    intros n0. cbn [strconv.parse_digits String.length]. rewrite Hd, Hv.
    apply (f_equal Some). change (10 ^ Z.of_nat 1) with 10. lia.
  - assert (0 <= u mod 10 < 10) as Hmod by (apply Z.mod_pos_bound; lia).
    destruct (digit_char_spec (u mod 10) Hmod) as [Hd Hv].
    change (strconv.format_loop (S (S fuel)) u acc)
      with (if u / 10 =? 0
            then String (strconv.digit_char (u mod 10)) acc
            else strconv.format_loop (S fuel) (u / 10)
                   (String (strconv.digit_char (u mod 10)) acc)).
    destruct (Z.eqb_spec (u / 10) 0) as [Hq | Hq].
    + exists (String (strconv.digit_char (u mod 10)) EmptyString),
        (strconv.digit_char (u mod 10)), EmptyString.
      repeat split; [exact Hd |].
      intros n0. cbn [strconv.parse_digits String.length]. rewrite Hd, Hv.
      apply (f_equal Some). change (10 ^ Z.of_nat 1) with 10.
      pose proof (Z.div_mod u 10 ltac:(lia)). lia.
    + assert (0 <= u / 10 < 2 ^ Z.of_nat (S fuel)) as Hu'.
      { split; [apply Z.div_pos; lia |].
        apply Z.div_lt_upper_bound; [lia |].
        rewrite (Nat2Z.inj_succ (S fuel)), Z.pow_succ_r in Hu by lia. lia. }
      destruct (IH (u / 10) (String (strconv.digit_char (u mod 10)) acc) Hu')
        as (ds & c & r & Heq & Hds & Hc & Hparse).
      exists (ds ++ String (strconv.digit_char (u mod 10)) EmptyString)%string,
        c, (r ++ String (strconv.digit_char (u mod 10)) EmptyString)%string.
      split; [rewrite Heq, append_assoc; reflexivity |].
      split; [rewrite Hds; reflexivity |].
      split; [exact Hc |].
      intros n0. rewrite parse_digits_append, Hparse.
      cbn [strconv.parse_digits]. rewrite Hd, Hv. apply (f_equal Some).
      rewrite length_append. cbn [String.length].
      rewrite Nat2Z.inj_add. change (Z.of_nat 1) with 1.
      rewrite Z.pow_add_r by lia. change (10 ^ 1) with 10.
      pose proof (Z.div_mod u 10 ltac:(lia)). lia.
Qed.

Lemma format_uint_spec (u : Z) :
  0 <= u ->
  exists c r,
    strconv.format_uint u = String c r /\ Bytes.is_digit c = true
    /\ strconv.parse_digits (String c r) 0 = Some u.
Proof.
  intros Hu. unfold strconv.format_uint.
  assert (0 <= u < 2 ^ Z.of_nat (S (Z.to_nat (Z.log2 u)))) as Hb.
  { split; [exact Hu |]. rewrite Nat2Z.inj_succ, Z2Nat.id by apply Z.log2_nonneg.
    destruct (Z.eq_dec u 0) as [-> | Hne]; [reflexivity |].
    apply Z.log2_spec. lia. }
  destruct (format_loop_spec _ u EmptyString Hb) as (ds & c & r & Heq & Hds & Hc & Hp).
  exists c, r. rewrite Heq, append_nil_r. split; [exact Hds |]. split; [exact Hc |].
  rewrite <- Hds, Hp. apply (f_equal Some). lia.
Qed.



Lemma parse_digits_all_digits (s : string) (n : Z) :
  strconv.parse_digits s n = None <-> Spec.all_digits s = false.
Proof.
  revert n. induction s as [|c s IH]; intros n; cbn [strconv.parse_digits Spec.all_digits].
  - split; discriminate.
  - destruct (Bytes.is_digit c); [apply IH | split; reflexivity].
Qed.



(** ** The methods, run on a state *)

(** Unfold a method down to the matches on what the world answers. *)
Ltac run :=
  unfold V1.Ping, V2.Ping;
  unfold V1.CallApi, V1.Time, V1.GetConsumerKey,
         V2.CallAPI, V2.Time, V2.GetConsumerKey,
         try, bind, lift, ret, get_self, set_self, Do, time_Now, id;
  cbn [self world reads sent fst snd].

(** Go through every branch of a method that was unfolded by [run]. *)
Ltac branches :=
  repeat (case_match; simplify_eq; cbn [self world reads sent fst snd] in * ).

(** *** Frame *)

Lemma Time_keeps_the_caller (env : Env) :
  (forall s : State V1.Caller, self (snd (V1.Time env s)) = self s)
  /\ (forall s : State V2.Caller, self (snd (V2.Time env s)) = self s).
Proof. split; intros; run; branches; reflexivity. Qed.


(** [GetConsumerKey] writes the consumer key and nothing else. *)
Lemma GetConsumerKey_writes_the_consumer_key_only (env : Env) (errs : V1.Errors) (ckParams : option GetCKParams.t) :
  (forall s : State V1.Caller,
      let c := self s in
      let c' := self (snd (V1.GetConsumerKey env errs ckParams s)) in
      V1.ApplicationKey c' = V1.ApplicationKey c
      /\ V1.ApplicationSecret c' = V1.ApplicationSecret c
      /\ V1.Url c' = V1.Url c /\ V1.delay c' = V1.delay c)
  /\ (forall s : State V2.Caller,
         let c := self s in
         let c' := self (snd (V2.GetConsumerKey env ckParams s)) in
         V2.ApplicationKey c' = V2.ApplicationKey c
         /\ V2.ApplicationSecret c' = V2.ApplicationSecret c
         /\ V2.URL c' = V2.URL c /\ V2.delay c' = V2.delay c).
Proof.
  split; intros s c c'; subst c c'; run; branches; repeat split; reflexivity.
Qed.

(** *** The request for a consumer key *)

(** The header built by the two [Add] of [GetConsumerKey] on a request
    fresh from [NewRequest]. *)
Lemma unsigned_header (key : string) (r0 : http.Request) :
  http.Header r0 = ∅ ->
  let req := http.HeaderAdd "X-OVH-Application" key
               (http.HeaderAdd "Content-Type" "application/json" r0) in
  http.Header req
  = {[ "Content-Type" := ["application/json"]; "X-Ovh-Application" := [key] ]}
  /\ http.Header req !! "X-Ovh-Signature" = None
  /\ http.Header req !! "X-Ovh-Consumer" = None.
Proof.
  intros H0 req. subst req. unfold http.HeaderAdd, http.Add. cbn [http.Header].
  rewrite H0. split; [| split]; vm_compute; reflexivity.
Qed.

Lemma NewRequest_header (p : string -> bool) (method url body : string) (r : http.Request) :
  http.NewRequest p method url body = inr r ->
  http.Header r = ∅ /\ http.URL r = url /\ http.ReqBody r = body.
Proof.
  unfold http.NewRequest. intros H.
  destruct (negb _); [discriminate |]. destruct (negb _); [discriminate |].
  injection H as <-. repeat split; reflexivity.
Qed.

(** C8.  The request that [GetConsumerKey] sends, if it sends one, carries
    the content type and the application key and no other header: neither a
    signature nor a consumer key.  No signature is computed on this path:
    the requests sent do not depend on the application secret, the consumer
    key or the clock offset of the caller, and the clock is not read.  This
    holds in both versions. *)
Theorem GetConsumerKey_request_is_unsigned (env : Env) (errs : V1.Errors) (ckParams : option GetCKParams.t) :
  (forall s : State V1.Caller,
      let s' := snd (V1.GetConsumerKey env errs ckParams s) in
      reads (world s') = reads (world s)
      /\ (sent (world s') = sent (world s)
          \/ exists req,
               sent (world s') = (sent (world s) ++ [req])%list
               /\ http.Header req
                  = {[ "Content-Type" := ["application/json"];
                       "X-Ovh-Application" := [V1.ApplicationKey (self s)] ]}
               /\ http.Header req !! "X-Ovh-Signature" = None
               /\ http.Header req !! "X-Ovh-Consumer" = None))
  /\ (forall key base secret secret' consumer consumer' delay delay' w,
         sent (world (snd (V1.GetConsumerKey env errs ckParams
           {| self := {| V1.ApplicationKey := key; V1.ApplicationSecret := secret;
                         V1.ConsumerKey := consumer; V1.Url := base;
                         V1.delay := delay |};
              world := w |})))
         = sent (world (snd (V1.GetConsumerKey env errs ckParams
           {| self := {| V1.ApplicationKey := key; V1.ApplicationSecret := secret';
                         V1.ConsumerKey := consumer'; V1.Url := base;
                         V1.delay := delay' |};
              world := w |}))))
  /\ (forall s : State V2.Caller,
         let s' := snd (V2.GetConsumerKey env ckParams s) in
         reads (world s') = reads (world s)
         /\ (sent (world s') = sent (world s)
             \/ exists req,
                  sent (world s') = (sent (world s) ++ [req])%list
                  /\ http.Header req
                     = {[ "Content-Type" := ["application/json"];
                          "X-Ovh-Application" := [V2.ApplicationKey (self s)] ]}
                  /\ http.Header req !! "X-Ovh-Signature" = None
                  /\ http.Header req !! "X-Ovh-Consumer" = None))
  /\ (forall key base secret secret' consumer consumer' delay delay' w,
         sent (world (snd (V2.GetConsumerKey env ckParams
           {| self := {| V2.ApplicationKey := key; V2.ApplicationSecret := secret;
                         V2.ConsumerKey := consumer; V2.URL := base;
                         V2.delay := delay |};
              world := w |})))
         = sent (world (snd (V2.GetConsumerKey env ckParams
           {| self := {| V2.ApplicationKey := key; V2.ApplicationSecret := secret';
                         V2.ConsumerKey := consumer'; V2.URL := base;
                         V2.delay := delay' |};
              world := w |})))).
Proof.
  split; [| split; [| split]].
  - intros s s'. subst s'. run. branches; (split; [reflexivity |]);
      try (left; reflexivity);
      right; eexists; (split; [reflexivity |]);
      match goal with
      | H : http.NewRequest _ _ _ _ = inr ?r |- _ =>
          apply NewRequest_header in H as (H & _ & _); apply (unsigned_header _ r H)
      end.
  - intros. run.
    repeat (case_match; simplify_eq;
            cbn [self world reads sent fst snd V1.ApplicationKey V1.Url] in * );
      reflexivity.
  - intros s s'. subst s'. run. branches; (split; [reflexivity |]);
      try (left; reflexivity);
      right; eexists; (split; [reflexivity |]);
      match goal with
      | H : http.NewRequest _ _ _ _ = inr ?r |- _ =>
          apply NewRequest_header in H as (H & _ & _); apply (unsigned_header _ r H)
      end.
  - intros. run.
    repeat (case_match; simplify_eq;
            cbn [self world reads sent fst snd V2.ApplicationKey V2.URL] in * );
      reflexivity.
Qed.

Lemma Sprintf_url (base url : string) :
  fmt.Sprintf "%s%s" [fmt.Str base; fmt.Str url] = (base ++ url)%string.
Proof. cbn [fmt.Sprintf fmt.verb Ascii.eqb Bool.eqb]. now rewrite append_nil_r. Qed.

Lemma Sprintf_string (s : string) : fmt.Sprintf "%s" [fmt.Str s] = s.
Proof. cbn [fmt.Sprintf fmt.verb Ascii.eqb Bool.eqb]. now rewrite append_nil_r. Qed.

Lemma Sprintf_int (i : Z) : fmt.Sprintf "%d" [fmt.Int i] = strconv.FormatInt i.
Proof. cbn [fmt.Sprintf fmt.verb Ascii.eqb Bool.eqb]. now rewrite append_nil_r. Qed.

Lemma not_sent {A : Type} (l : list A) (x : A) : l = (l ++ [x])%list -> False.
Proof. intros H. apply (f_equal length) in H. rewrite length_app in H. simpl in H. lia. Qed.

Lemma sent_last {A : Type} (l : list A) (x y : A) : (l ++ [x] = l ++ [y])%list -> x = y.
Proof. intros H. apply app_inv_head in H. now injection H. Qed.

(** *** What a call sends and what it returns

    When a method has sent a request, the request is the one described and
    the result is decided by what the transport answers to it. *)

Lemma V1_CallApi_sent (env : Env) (errs : V1.Errors) (R : Type) (url method : string)
  (body : option json.govalue) (typeResult : option (json.value -> json.Error + R))
  (s : State V1.Caller) (req : http.Request) :
  sent (world (snd (V1.CallApi env errs url method body typeResult s)))
  = (sent (world s) ++ [req])%list ->
  let c := self s in
  let timestamp := wrap_int (time.Unix (now env (reads (world s))) + V1.delay c) in
  exists params r0,
    match body with Some b => Marshal_body b | None => inr EmptyString end = inr params
    /\ http.NewRequest (parse_url env) method (V1.Url c ++ url) params = inr r0
    /\ req = http.HeaderAdd "X-Ovh-Signature"
               (V1.getSignature c method (V1.Url c ++ url) params timestamp)
               (http.HeaderAdd "X-Ovh-Consumer" (V1.ConsumerKey c)
                  (http.HeaderAdd "X-Ovh-Application" (V1.ApplicationKey c)
                     (http.HeaderAdd "X-Ovh-Timestamp" (strconv.FormatInt timestamp)
                        (http.HeaderAdd "Content-Type" "application/json" r0))))
    /\ fst (V1.CallApi env errs url method body typeResult s)
       = match roundtrip env (length (sent (world s))) req with
         | inl err => inl (V1.wrap errs err)
         | inr result =>
             match http.Body result with
             | inl err => inl (V1.wrap errs err)
             | inr resBody =>
                 if Spec.success (http.StatusCode result) then
                   if (0 <? String.length resBody)%nat then
                     match typeResult with
                     | Some store =>
                         match Unmarshal_into resBody store with
                         | inl err => inl (V1.wrap errs err)
                         | inr r => inr (Some r)
                         end
                     | None => inr None
                     end
                   else inr None
                 else
                   match Unmarshal_ApiOvhError resBody V1.new_ApiOvhError with
                   | inl err => inl (V1.wrap errs err)
                   | inr a =>
                       inl (ApiError {| Message := Message a;
                                        Code := http.StatusCode result;
                                        Tracer := Tracer a |})
                   end
             end
         end.
Proof.
  intros Hsent c timestamp. subst c timestamp. revert Hsent.
  run.
  destruct (match body with Some b => Marshal_body b | None => inr EmptyString end)
    as [e|params] eqn:Hm; cbn [snd fst world sent].
  { intros H. destruct (not_sent _ _ H). }
  rewrite Sprintf_url.
  destruct (http.NewRequest _ _ _ _) as [e|r0] eqn:Hr; cbn [snd fst world sent].
  { intros H. destruct (not_sent _ _ H). }
  rewrite Sprintf_string, Sprintf_int.
  match goal with
  | |- context [roundtrip env _ ?r] => set (REQ := r)
  end.
  intros H. exists params, r0. split; [reflexivity |]. split; [exact Hr |].
  assert (req = REQ) as ->.
  { revert H. branches; intros Hlast; apply sent_last in Hlast; congruence. }
  split; [reflexivity |]. clear H. unfold Spec.success. branches; reflexivity.
Qed.

Lemma V2_CallAPI_sent (env : Env) (R : Type) (url method : string)
  (body : option json.govalue) (typeResult : option (json.value -> json.Error + R))
  (s : State V2.Caller) (req : http.Request) :
  sent (world (snd (V2.CallAPI env url method body typeResult s)))
  = (sent (world s) ++ [req])%list ->
  let c := self s in
  let timestamp := time.Unix (time.Add (now env (reads (world s))) (V2.delay c)) in
  exists params r0,
    match body with Some b => Marshal_body b | None => inr EmptyString end = inr params
    /\ http.NewRequest (parse_url env) method (V2.URL c ++ url) params = inr r0
    /\ req = V2.add_headers
               [("Content-Type", "application/json");
                ("X-Ovh-Timestamp", strconv.FormatInt timestamp);
                ("X-Ovh-Application", V2.ApplicationKey c);
                ("X-Ovh-Consumer", V2.ConsumerKey c);
                ("X-Ovh-Signature",
                 V2.getSignature c method (V2.URL c ++ url) params timestamp)]
               r0
    /\ fst (V2.CallAPI env url method body typeResult s)
       = match roundtrip env (length (sent (world s))) req with
         | inl err => inl err
         | inr result =>
             match http.Body result with
             | inl err => inl err
             | inr resBody =>
                 if Spec.success (http.StatusCode result) then
                   if (0 <? String.length resBody)%nat then
                     match typeResult with
                     | Some store =>
                         match Unmarshal_into resBody store with
                         | inl err => inl err
                         | inr r => inr (Some r)
                         end
                     | None => inr None
                     end
                   else inr None
                 else
                   match Unmarshal_ApiOvhError resBody
                           {| Message := EmptyString; Code := http.StatusCode result;
                              Tracer := EmptyString |} with
                   | inl err => inl err
                   | inr a => inl (ApiError a)
                   end
             end
         end.
Proof.
  intros Hsent c timestamp. subst c timestamp. revert Hsent.
  run.
  destruct (match body with Some b => Marshal_body b | None => inr EmptyString end)
    as [e|params] eqn:Hm; cbn [snd fst world sent].
  { intros H. destruct (not_sent _ _ H). }
  destruct (http.NewRequest _ _ _ _) as [e|r0] eqn:Hr; cbn [snd fst world sent].
  { intros H. destruct (not_sent _ _ H). }
  match goal with
  | |- context [roundtrip env _ ?r] => set (REQ := r)
  end.
  intros H. exists params, r0. split; [reflexivity |]. split; [exact Hr |].
  assert (req = REQ) as ->.
  { revert H. unfold http.StatusOK, http.StatusMultipleChoices.
    branches; intros Hlast; apply sent_last in Hlast; congruence. }
  split; [reflexivity |]. clear H.
  unfold Spec.success, http.StatusOK, http.StatusMultipleChoices.
  branches; reflexivity.
Qed.

(** *** The header of a signed request *)

Lemma HeaderAdd_commute (k1 v1 k2 v2 : string) (r : http.Request) :
  http.CanonicalMIMEHeaderKey k1 <> http.CanonicalMIMEHeaderKey k2 ->
  http.HeaderAdd k1 v1 (http.HeaderAdd k2 v2 r)
  = http.HeaderAdd k2 v2 (http.HeaderAdd k1 v1 r).
Proof.
  intros Hne. unfold http.HeaderAdd, http.Add. cbn [http.Header http.Method http.URL http.ReqBody].
  f_equal. rewrite !lookup_insert_ne by congruence.
  apply insert_insert_ne. congruence.
Qed.

(** The order in which the entries of the map of [CallAPI] are visited does
    not matter: keys that are distinct once canonical give the same header
    in every order. *)
Lemma add_headers_order (hs hs' : list (string * string)) :
  Permutation hs hs' ->
  NoDup (map (fun hv => http.CanonicalMIMEHeaderKey (fst hv)) hs) ->
  forall r, V2.add_headers hs' r = V2.add_headers hs r.
Proof.
  induction 1 as [|x l l' Hp IH|x y l|l l' l'' Hp1 IH1 Hp2 IH2]; intros Hnd r.
  - reflexivity.
  - cbn [V2.add_headers fold_left]. apply IH.
    cbn [map] in Hnd. now apply NoDup_cons in Hnd as [_ Hnd].
  - cbn [V2.add_headers fold_left]. f_equal.
    apply HeaderAdd_commute.
    cbn [map] in Hnd. apply NoDup_cons in Hnd as [Hk _].
    intros Heq. apply Hk. rewrite Heq. constructor.
  - rewrite IH2, IH1; [reflexivity | exact Hnd |].
    assert (map (fun hv => http.CanonicalMIMEHeaderKey (fst hv)) l
            ≡ₚ map (fun hv => http.CanonicalMIMEHeaderKey (fst hv)) l') as Hm
      by now apply Permutation_map.
    now rewrite <- Hm.
Qed.

Lemma signed_header (r0 : http.Request) (ts key consumer sig : string) :
  http.Header r0 = ∅ ->
  let h := {[ "Content-Type" := ["application/json"];
              "X-Ovh-Timestamp" := [ts];
              "X-Ovh-Application" := [key];
              "X-Ovh-Consumer" := [consumer];
              "X-Ovh-Signature" := [sig] ]} in
  http.Header
    (http.HeaderAdd "X-Ovh-Signature" sig
       (http.HeaderAdd "X-Ovh-Consumer" consumer
          (http.HeaderAdd "X-Ovh-Application" key
             (http.HeaderAdd "X-Ovh-Timestamp" ts
                (http.HeaderAdd "Content-Type" "application/json" r0))))) = h
  /\ http.Header
       (V2.add_headers
          [("Content-Type", "application/json"); ("X-Ovh-Timestamp", ts);
           ("X-Ovh-Application", key); ("X-Ovh-Consumer", consumer);
           ("X-Ovh-Signature", sig)] r0) = h
  /\ h !! "X-Ovh-Timestamp" = Some [ts]
  /\ h !! "X-Ovh-Signature" = Some [sig].
Proof.
  intros H0 h. subst h.
  unfold V2.add_headers, http.HeaderAdd, http.Add. cbn [fold_left fst snd http.Header].
  rewrite H0. repeat apply conj; vm_compute; reflexivity.
Qed.

Lemma CallAPI_header_in_any_order (ts key consumer sig : string)
  (hs' : list (string * string)) (r : http.Request) :
  Permutation
    [("Content-Type", "application/json"); ("X-Ovh-Timestamp", ts);
     ("X-Ovh-Application", key); ("X-Ovh-Consumer", consumer);
     ("X-Ovh-Signature", sig)] hs' ->
  V2.add_headers hs' r
  = V2.add_headers
      [("Content-Type", "application/json"); ("X-Ovh-Timestamp", ts);
       ("X-Ovh-Application", key); ("X-Ovh-Consumer", consumer);
       ("X-Ovh-Signature", sig)] r.
Proof.
  intros Hp. apply add_headers_order; [exact Hp |].
  cbn [map fst].
  change (NoDup ["Content-Type"; "X-Ovh-Timestamp"; "X-Ovh-Application";
                 "X-Ovh-Consumer"; "X-Ovh-Signature"]).
  apply (bool_decide_unpack _). vm_compute. reflexivity.
Qed.

(** *** The body of a call *)





(** *** The time of the API *)

Lemma Sprintf_time_url (base : string) :
  fmt.Sprintf "%s/auth/time" [fmt.Str base] = (base ++ "/auth/time")%string.
Proof. reflexivity. Qed.

Lemma Sprintf_down (status : Z) :
  fmt.Sprintf "API seems down, HTTP response: %d" [fmt.Int status]
  = ("API seems down, HTTP response: " ++ strconv.FormatInt status)%string.
Proof.
  cbn [fmt.Sprintf fmt.verb Ascii.eqb Bool.eqb]. now rewrite append_nil_r.
Qed.

Lemma V1_Time_sent (env : Env) (s : State V1.Caller) (req : http.Request) :
  sent (world (snd (V1.Time env s))) = (sent (world s) ++ [req])%list ->
  http.NewRequest (parse_url env) "GET" (V1.Url (self s) ++ "/auth/time") EmptyString
  = inr req
  /\ fst (V1.Time env s)
     = match roundtrip env (length (sent (world s))) req with
       | inl err => inl err
       | inr result =>
           match http.Body result with
           | inl err => inl err
           | inr body =>
               if negb (http.StatusCode result =? 200) then
                 inl (errorString ("API seems down, HTTP response: "
                                   ++ strconv.FormatInt (http.StatusCode result)))
               else
                 match strconv.Atoi body with
                 | inl e => inl (NumError e)
                 | inr apiTime => inr apiTime
                 end
           end
       end.
Proof.
  run. rewrite Sprintf_time_url.
  destruct (http.NewRequest _ _ _ _) as [e|r0] eqn:Hr; cbn [snd fst world sent].
  { intros H. destruct (not_sent _ _ H). }
  intros H.
  assert (req = r0) as ->.
  { revert H. branches; intros Hlast; apply sent_last in Hlast; congruence. }
  split; [reflexivity |]. clear H.
  branches; rewrite ?Sprintf_down, ?Sprintf_string in *; congruence.
Qed.

Lemma V2_Time_sent (env : Env) (s : State V2.Caller) (req : http.Request) :
  sent (world (snd (V2.Time env s))) = (sent (world s) ++ [req])%list ->
  exists r0,
    http.NewRequest (parse_url env) "GET" (V2.URL (self s) ++ "/auth/time") EmptyString
    = inr r0
    /\ req = http.HeaderAdd "Content-Type" "application/json" r0
    /\ fst (V2.Time env s)
       = match roundtrip env (length (sent (world s))) req with
         | inl err => inl err
         | inr result =>
             match http.Body result with
             | inl err => inl err
             | inr body =>
                 if negb (http.StatusCode result =? 200) then
                   inl (errorString ("API seems down, HTTP response: "
                                     ++ strconv.FormatInt (http.StatusCode result)))
                 else
                   match strconv.Atoi body with
                   | inl e => inl (NumError e)
                   | inr ts => inr (time.Unix_ ts)
                   end
             end
         end.
Proof.
  run. rewrite Sprintf_time_url.
  destruct (http.NewRequest _ _ _ _) as [e|r0] eqn:Hr; cbn [snd fst world sent].
  { intros H. destruct (not_sent _ _ H). }
  intros H. exists r0. split; [reflexivity |].
  assert (req = http.HeaderAdd "Content-Type" "application/json" r0) as ->.
  { revert H. branches; intros Hlast; apply sent_last in Hlast; congruence. }
  split; [reflexivity |]. clear H. unfold http.StatusOK.
  branches; rewrite ?Sprintf_down in *; congruence.
Qed.





(** *** Classification of the response *)

Lemma Unmarshal_into_syntax (R : Type) (resBody : string)
  (store : json.value -> json.Error + R) :
  json.parse resBody = None ->
  Unmarshal_into resBody store = inl (JSONError json.SyntaxError).
Proof. intros H. unfold Unmarshal_into, json.Unmarshal. now rewrite H. Qed.

Lemma Unmarshal_into_JSONError (R : Type) (resBody : string)
  (store : json.value -> json.Error + R) (err : error) :
  Unmarshal_into resBody store = inl err -> exists e, err = JSONError e.
Proof.
  unfold Unmarshal_into. destruct (json.Unmarshal _ _) as [e|r]; [| discriminate].
  intros H. injection H as <-. now exists e.
Qed.

Lemma length_pos_nonempty (s : string) :
  (0 <? String.length s)%nat = negb (String.eqb s EmptyString).
Proof. destruct s; reflexivity. Qed.

(** The claim C5 says that every response with a status from 200 to 299
    returns no error.  A response with status 200 whose body is the single
    character [{], received by a call that asked for a response shape,
    returns an error in both versions. *)
Lemma success_status_with_unreadable_body_fails :
  let env := answering (fun _ => 1700000000) 200 "{" in
  let shape := Some (fun v : json.value => inr v : json.Error + json.value) in
  Spec.success 200 = true
  /\ (forall errs,
        fst (V1.CallApi env errs "/me" "GET" None shape
               {| self := caller1; world := nothing_yet |})
        = inl (V1.wrap errs (JSONError json.SyntaxError)))
  /\ fst (V2.CallAPI env "/me" "GET" None shape
            {| self := caller2; world := nothing_yet |})
     = inl (JSONError json.SyntaxError).
Proof.
  intros env shape. split; [reflexivity |].
  split; [intros errs |]; vm_compute; reflexivity.
Qed.

(** C5, amended.  For every dispatcher call that was answered with a status
    and a body.  With a status from 200 to 299 the body is never read as an
    [ApiOvhError]: the call returns no error when the body is empty or when
    no response shape was asked for, and otherwise it returns what the
    deserialization of the body into the shape gives: the decoded value, or
    the error of the deserialization when the body cannot be decoded (a body
    that is not JSON gives a syntax error), which the older version hands to
    [NewError].  A status of 199 or below, or of 300 or above, always returns
    an error, whatever the body. *)
Theorem classification_by_status (env : Env) (errs : V1.Errors) :
  (forall (R : Type) url method body (typeResult : option (json.value -> json.Error + R))
          (s : State V1.Caller) req status resBody,
      sent (world (snd (V1.CallApi env errs url method body typeResult s)))
      = (sent (world s) ++ [req])%list ->
      roundtrip env (length (sent (world s))) req
      = inr {| http.StatusCode := status; http.Body := inr resBody |} ->
      let out := fst (V1.CallApi env errs url method body typeResult s) in
      (200 <= status < 300 ->
       (resBody = EmptyString \/ typeResult = None -> out = inr None)
       /\ (forall store, typeResult = Some store -> resBody <> EmptyString ->
             out = match Unmarshal_into resBody store with
                   | inl err => inl (V1.wrap errs err)
                   | inr r => inr (Some r)
                   end
             /\ (json.parse resBody = None ->
                 out = inl (V1.wrap errs (JSONError json.SyntaxError)))))
      /\ (status <= 199 \/ 300 <= status -> exists err, out = inl err))
  /\ (forall (R : Type) url method body (typeResult : option (json.value -> json.Error + R))
             (s : State V2.Caller) req status resBody,
         sent (world (snd (V2.CallAPI env url method body typeResult s)))
         = (sent (world s) ++ [req])%list ->
         roundtrip env (length (sent (world s))) req
         = inr {| http.StatusCode := status; http.Body := inr resBody |} ->
         let out := fst (V2.CallAPI env url method body typeResult s) in
         (200 <= status < 300 ->
          (forall e, out <> inl (ApiError e))
          /\ (resBody = EmptyString \/ typeResult = None -> out = inr None)
          /\ (forall store, typeResult = Some store -> resBody <> EmptyString ->
                out = match Unmarshal_into resBody store with
                      | inl err => inl err
                      | inr r => inr (Some r)
                      end
                /\ (json.parse resBody = None ->
                    out = inl (JSONError json.SyntaxError))))
         /\ (status <= 199 \/ 300 <= status -> exists err, out = inl err)).
Proof.
  split.
  - intros R url method body tr s req status resBody Hsent Hrt out. subst out.
    apply V1_CallApi_sent in Hsent as (params & r0 & _ & _ & _ & ->).
    rewrite Hrt. cbn [http.Body http.StatusCode]. unfold Spec.success.
    rewrite length_pos_nonempty. split.
    + intros Hst.
      destruct (Z.leb_spec 200 status); [| lia].
      destruct (Z.ltb_spec status 300); [| lia]. cbn [andb].
      split.
      * intros [-> | ->]; [reflexivity |]. now destruct (negb _).
      * intros store -> Hne.
        destruct (String.eqb_spec resBody EmptyString) as [? | _]; [contradiction |].
        cbn [negb]. split; [reflexivity |].
        intros Hp. now rewrite Unmarshal_into_syntax.
    + intros Hst.
      assert ((200 <=? status) && (status <? 300) = false) as ->.
      { destruct (Z.leb_spec 200 status), (Z.ltb_spec status 300); try reflexivity; lia. }
      destruct (Unmarshal_ApiOvhError _ _); eexists; reflexivity.
  - intros R url method body tr s req status resBody Hsent Hrt out. subst out.
    apply V2_CallAPI_sent in Hsent as (params & r0 & _ & _ & _ & ->).
    rewrite Hrt. cbn [http.Body http.StatusCode]. unfold Spec.success.
    rewrite length_pos_nonempty. split.
    + intros Hst.
      destruct (Z.leb_spec 200 status); [| lia].
      destruct (Z.ltb_spec status 300); [| lia]. cbn [andb].
      split; [| split].
      * intros e. destruct (negb _); [| discriminate].
        destruct tr as [store|]; [| discriminate].
        destruct (Unmarshal_into resBody store) as [err|r] eqn:Hu; [| discriminate].
        apply Unmarshal_into_JSONError in Hu as [je ->]. discriminate.
      * intros [-> | ->]; [reflexivity |]. now destruct (negb _).
      * intros store -> Hne.
        destruct (String.eqb_spec resBody EmptyString) as [? | _]; [contradiction |].
        cbn [negb]. split; [reflexivity |].
        intros Hp. now rewrite Unmarshal_into_syntax.
    + intros Hst.
      assert ((200 <=? status) && (status <? 300) = false) as ->.
      { destruct (Z.leb_spec 200 status), (Z.ltb_spec status 300); try reflexivity; lia. }
      destruct (Unmarshal_ApiOvhError _ _); eexists; reflexivity.
Qed.

Lemma classification_by_status_witness :
  let env := answering (fun _ => 1700000000) 204 EmptyString in
  let shape := Some (fun v : json.value => inr v : json.Error + json.value) in
  let s := {| self := caller2; world := nothing_yet |} in
  exists req,
    sent (world (snd (V2.CallAPI env "/me" "GET" None shape s)))
    = (sent (world s) ++ [req])%list
    /\ roundtrip env (length (sent (world s))) req
       = inr {| http.StatusCode := 204; http.Body := inr EmptyString |}
    /\ 200 <= 204 < 300
    /\ fst (V2.CallAPI env "/me" "GET" None shape s) = inr None.
Proof.
  intros env shape s. eexists. split; [vm_compute; reflexivity |].
  split; [reflexivity |].
  assert (200 <= 204 < 300) as Hst by lia. split; [exact Hst |].
  refine (proj1 (proj2 (proj1 (proj2 (classification_by_status env plain) json.value
                                 "/me" "GET" None shape s _ 204 EmptyString
                                 _ eq_refl) Hst))
            (or_introl eq_refl)).
  vm_compute; reflexivity.
Defined.

(** *** The request for a consumer key, answered *)

Lemma Sprintf_credential_url (base : string) :
  fmt.Sprintf "%s/auth/credential" [fmt.Str base] = (base ++ "/auth/credential")%string.
Proof. reflexivity. Qed.

Lemma V1_GetConsumerKey_sent (env : Env) (errs : V1.Errors) (ckParams : option GetCKParams.t)
  (s : State V1.Caller) (req : http.Request) :
  sent (world (snd (V1.GetConsumerKey env errs ckParams s))) = (sent (world s) ++ [req])%list ->
  let c := self s in
  let w := {| reads := reads (world s); sent := (sent (world s) ++ [req])%list |} in
  exists params r0,
    Marshal_GetCKParams ckParams = inr params
    /\ http.NewRequest (parse_url env) "POST" (V1.Url c ++ "/auth/credential") params
       = inr r0
    /\ req = http.HeaderAdd "X-OVH-Application" (V1.ApplicationKey c)
               (http.HeaderAdd "Content-Type" "application/json" r0)
    /\ V1.GetConsumerKey env errs ckParams s
       = match roundtrip env (length (sent (world s))) req with
         | inl err => (inl (V1.wrap errs err), {| self := c; world := w |})
         | inr result =>
             match http.Body result with
             | inl err => (inl (V1.wrap errs err), {| self := c; world := w |})
             | inr body =>
                 if http.StatusCode result =? 200 then
                   match V1.GetCKResponse.Unmarshal body V1.GetCKResponse.new with
                   | inl err => (inl (V1.wrap errs err), {| self := c; world := w |})
                   | inr askCK =>
                       (inr askCK,
                        {| self :=
                             {| V1.ApplicationKey := V1.ApplicationKey c;
                                V1.ApplicationSecret := V1.ApplicationSecret c;
                                V1.ConsumerKey := V1.GetCKResponse.ConsumerKey askCK;
                                V1.Url := V1.Url c;
                                V1.delay := V1.delay c |};
                           world := w |})
                   end
                 else
                   match Unmarshal_ApiOvhError body V1.new_ApiOvhError with
                   | inl err => (inl (V1.wrap errs err), {| self := c; world := w |})
                   | inr a =>
                       (inl (ApiError {| Message := Message a;
                                         Code := http.StatusCode result;
                                         Tracer := Tracer a |}),
                        {| self := c; world := w |})
                   end
             end
         end.
Proof.
  intros Hsent c w. subst c w. revert Hsent. run.
  destruct (Marshal_GetCKParams ckParams) as [e|params] eqn:Hm; cbn [snd fst world sent].
  { intros H. destruct (not_sent _ _ H). }
  rewrite Sprintf_credential_url.
  destruct (http.NewRequest _ _ _ _) as [e|r0] eqn:Hr; cbn [snd fst world sent].
  { intros H. destruct (not_sent _ _ H). }
  match goal with
  | |- context [roundtrip env _ ?r] => set (REQ := r)
  end.
  intros H. exists params, r0. split; [reflexivity |]. split; [exact Hr |].
  assert (req = REQ) as ->.
  { revert H. branches; intros Hlast; apply sent_last in Hlast; congruence. }
  split; [reflexivity |]. clear H. branches; reflexivity.
Qed.

Lemma V2_GetConsumerKey_sent (env : Env) (ckParams : option GetCKParams.t)
  (s : State V2.Caller) (req : http.Request) :
  sent (world (snd (V2.GetConsumerKey env ckParams s))) = (sent (world s) ++ [req])%list ->
  let c := self s in
  let w := {| reads := reads (world s); sent := (sent (world s) ++ [req])%list |} in
  exists params r0,
    Marshal_GetCKParams ckParams = inr params
    /\ http.NewRequest (parse_url env) "POST" (V2.URL c ++ "/auth/credential") params
       = inr r0
    /\ req = http.HeaderAdd "X-OVH-Application" (V2.ApplicationKey c)
               (http.HeaderAdd "Content-Type" "application/json" r0)
    /\ V2.GetConsumerKey env ckParams s
       = match roundtrip env (length (sent (world s))) req with
         | inl err => (inl err, {| self := c; world := w |})
         | inr result =>
             match http.Body result with
             | inl err => (inl err, {| self := c; world := w |})
             | inr body =>
                 if http.StatusCode result =? 200 then
                   match V2.GetCKResponse.Unmarshal body V2.GetCKResponse.new with
                   | inl err => (inl err, {| self := c; world := w |})
                   | inr askCK =>
                       (inr askCK,
                        {| self :=
                             {| V2.ApplicationKey := V2.ApplicationKey c;
                                V2.ApplicationSecret := V2.ApplicationSecret c;
                                V2.ConsumerKey := V2.GetCKResponse.ConsumerKey askCK;
                                V2.URL := V2.URL c;
                                V2.delay := V2.delay c |};
                           world := w |})
                   end
                 else
                   match Unmarshal_ApiOvhError body
                           {| Message := EmptyString; Code := http.StatusCode result;
                              Tracer := EmptyString |} with
                   | inl err => (inl err, {| self := c; world := w |})
                   | inr a => (inl (ApiError a), {| self := c; world := w |})
                   end
             end
         end.
Proof.
  intros Hsent c w. subst c w. revert Hsent. run.
  destruct (Marshal_GetCKParams ckParams) as [e|params] eqn:Hm; cbn [snd fst world sent].
  { intros H. destruct (not_sent _ _ H). }
  rewrite Sprintf_credential_url.
  destruct (http.NewRequest _ _ _ _) as [e|r0] eqn:Hr; cbn [snd fst world sent].
  { intros H. destruct (not_sent _ _ H). }
  match goal with
  | |- context [roundtrip env _ ?r] => set (REQ := r)
  end.
  intros H. exists params, r0. split; [reflexivity |]. split; [exact Hr |].
  assert (req = REQ) as ->.
  { revert H. branches; intros Hlast; apply sent_last in Hlast; congruence. }
  split; [reflexivity |]. clear H. branches; reflexivity.
Qed.

(** *** The code of an [ApiOvhError] *)

(** In [src/caller.go] the code is written after the body was decoded: when
    the body of a response outside the success range is decoded as an error,
    the error that the dispatcher and [GetConsumerKey] return carries the
    status of the transport, whatever code the body holds. *)
Lemma V1_ApiError_carries_the_status (env : Env) (errs : V1.Errors) :
  (forall (R : Type) url method body (typeResult : option (json.value -> json.Error + R))
          (s : State V1.Caller) req status resBody a,
      sent (world (snd (V1.CallApi env errs url method body typeResult s)))
      = (sent (world s) ++ [req])%list ->
      roundtrip env (length (sent (world s))) req
      = inr {| http.StatusCode := status; http.Body := inr resBody |} ->
      Spec.success status = false ->
      Unmarshal_ApiOvhError resBody V1.new_ApiOvhError = inr a ->
      fst (V1.CallApi env errs url method body typeResult s)
      = inl (ApiError {| Message := Message a; Code := status; Tracer := Tracer a |}))
  /\ (forall ckParams (s : State V1.Caller) req status resBody a,
         sent (world (snd (V1.GetConsumerKey env errs ckParams s)))
         = (sent (world s) ++ [req])%list ->
         roundtrip env (length (sent (world s))) req
         = inr {| http.StatusCode := status; http.Body := inr resBody |} ->
         status <> 200 ->
         Unmarshal_ApiOvhError resBody V1.new_ApiOvhError = inr a ->
         fst (V1.GetConsumerKey env errs ckParams s)
         = inl (ApiError {| Message := Message a; Code := status; Tracer := Tracer a |})).
Proof.
  split.
  - intros R url method body tr s req status resBody a Hsent Hrt Hst Ha.
    apply V1_CallApi_sent in Hsent as (params & r0 & _ & _ & _ & ->).
    rewrite Hrt. cbn [http.Body http.StatusCode]. now rewrite Hst, Ha.
  - intros ckParams s req status resBody a Hsent Hrt Hst Ha.
    apply V1_GetConsumerKey_sent in Hsent as (params & r0 & _ & _ & _ & ->).
    rewrite Hrt. cbn [http.Body http.StatusCode fst].
    destruct (Z.eqb_spec status 200); [contradiction |]. now rewrite Ha.
Qed.

Lemma find_field_Code (k : string) :
  json.find_field ApiOvhError_names k = Some 1%nat -> json.equalFold k "Code" = true.
Proof.
  unfold json.find_field, ApiOvhError_names. cbn [json.index_where].
  destruct (String.eqb_spec k "Message"); [discriminate |].
  destruct (String.eqb_spec k "Code") as [-> | _]; [reflexivity |].
  destruct (String.eqb k "Tracer"); [discriminate |].
  destruct (json.equalFold k "Message"); [discriminate |].
  destruct (json.equalFold k "Code"); [reflexivity |].
  destruct (json.equalFold k "Tracer"); discriminate.
Qed.

Lemma object_keeps_the_code (kvs : list (string * json.value)) :
  (forall k v, In (k, v) kvs -> json.equalFold k "Code" = false) ->
  forall init a,
    json.object ApiOvhError_names ApiOvhError_set kvs init = inr a ->
    Code a = Code init.
Proof.
  induction kvs as [|[k v] kvs IH]; intros Hno init a.
  - cbn [json.object]. intros H. now injection H as <-.
  - cbn [json.object].
    assert (json.find_field ApiOvhError_names k <> Some 1%nat) as Hk.
    { intros Hf. apply find_field_Code in Hf. rewrite (Hno k v) in Hf; [discriminate |].
      now left. }
    assert (forall k' v', In (k', v') kvs -> json.equalFold k' "Code" = false) as Hno'
      by (intros k' v' Hin; apply (Hno k' v'); now right).
    destruct (json.find_field ApiOvhError_names k) as [i|]; [| now apply IH].
    destruct (ApiOvhError_set i v init) as [err|t] eqn:Hset; [discriminate |].
    intros H. rewrite (IH Hno' t a H).
    destruct i as [|[|[|i]]]; [| congruence | |]; cbn [ApiOvhError_set] in Hset.
    + destruct (json.store_string v (Message init)); simplify_eq. reflexivity.
    + destruct (json.store_string v (Tracer init)); simplify_eq. reflexivity.
    + now simplify_eq.
Qed.

(** In [src/unnamed/part_000] the code is written before the body is decoded:
    the error carries the status of the transport when the body is [null] or
    an object without a member named [code] (in any case of the letters). *)
Lemma V2_code_is_the_status_without_a_code_member
  (body : string) (status : Z) (a : ApiOvhError) :
  Unmarshal_ApiOvhError body
    {| Message := EmptyString; Code := status; Tracer := EmptyString |} = inr a ->
  (json.parse body = Some json.Null
   \/ exists kvs, json.parse body = Some (json.Object kvs)
                  /\ forall k v, In (k, v) kvs -> json.equalFold k "Code" = false) ->
  Code a = status.
Proof.
  unfold Unmarshal_ApiOvhError, json.Unmarshal.
  intros H [Hp | (kvs & Hp & Hno)]; rewrite Hp in H; cbn [json.struct] in H.
  - now simplify_eq.
  - destruct (json.object _ _ _ _) as [err|t] eqn:Ho; [discriminate |].
    simplify_eq. now rewrite (object_keeps_the_code kvs Hno _ _ Ho).
Qed.

(** C2.  The error that the newer version builds for a response with status
    404 and the body [{"message":"Not found","code":400}] carries the code
    400 of the body, not the status 404 of the transport, both in the
    dispatcher and in [GetConsumerKey]; the older version returns 404. *)
Theorem V2_ApiError_takes_the_code_of_the_body (errs : V1.Errors) :
  let env := answering (fun _ => 1700000000) 404
               (quoted "{'message':'Not found','code':400}") in
  let s1 := {| self := caller1; world := nothing_yet |} in
  let s2 := {| self := caller2; world := nothing_yet |} in
  fst (V2.CallAPI (R := unit) env "/me" "GET" None None s2)
  = inl (ApiError {| Message := "Not found"; Code := 400; Tracer := EmptyString |})
  /\ fst (V2.GetConsumerKey env None s2)
     = inl (ApiError {| Message := "Not found"; Code := 400; Tracer := EmptyString |})
  /\ fst (V1.CallApi (R := unit) env errs "/me" "GET" None None s1)
     = inl (ApiError {| Message := "Not found"; Code := 404; Tracer := EmptyString |})
  /\ fst (V1.GetConsumerKey env errs None s1)
     = inl (ApiError {| Message := "Not found"; Code := 404; Tracer := EmptyString |}).
Proof. intros env s1 s2. repeat apply conj; vm_compute; reflexivity. Qed.

(** *** The grant *)

(** The body of the answer to a request for a consumer key, as a
    document. *)
Lemma V2_grant_decoded (body k st u : string) :
  json.parse body
  = Some (json.Object [("consumerKey", json.Str k); ("state", json.Str st);
                       ("validationUrl", json.Str u)]) ->
  V2.GetCKResponse.Unmarshal body V2.GetCKResponse.new
  = inr {| V2.GetCKResponse.ConsumerKey := k; V2.GetCKResponse.Status := st;
           V2.GetCKResponse.ValidationURL := u |}.
Proof.
  intros Hp. unfold V2.GetCKResponse.Unmarshal, json.Unmarshal. rewrite Hp.
  reflexivity.
Qed.

(** The older struct has no tag: the member [state] matches none of its
    fields and [Status] stays empty. *)
Lemma V1_grant_decoded (body k st u : string) :
  json.parse body
  = Some (json.Object [("consumerKey", json.Str k); ("state", json.Str st);
                       ("validationUrl", json.Str u)]) ->
  V1.GetCKResponse.Unmarshal body V1.GetCKResponse.new
  = inr {| V1.GetCKResponse.ConsumerKey := k; V1.GetCKResponse.Status := EmptyString;
           V1.GetCKResponse.ValidationUrl := u |}.
Proof.
  intros Hp. unfold V1.GetCKResponse.Unmarshal, json.Unmarshal. rewrite Hp.
  reflexivity.
Qed.

(** In [src/unnamed/part_000], a request for a consumer key that is answered
    with status 200 and the three members stores the consumer key in the
    caller and returns the three values. *)
Lemma V2_GetConsumerKey_round_trip (env : Env) (ckParams : option GetCKParams.t)
  (s : State V2.Caller) (req : http.Request) (body k st u : string) :
  sent (world (snd (V2.GetConsumerKey env ckParams s))) = (sent (world s) ++ [req])%list ->
  roundtrip env (length (sent (world s))) req
  = inr {| http.StatusCode := 200; http.Body := inr body |} ->
  json.parse body
  = Some (json.Object [("consumerKey", json.Str k); ("state", json.Str st);
                       ("validationUrl", json.Str u)]) ->
  fst (V2.GetConsumerKey env ckParams s)
  = inr {| V2.GetCKResponse.ConsumerKey := k; V2.GetCKResponse.Status := st;
           V2.GetCKResponse.ValidationURL := u |}
  /\ V2.ConsumerKey (self (snd (V2.GetConsumerKey env ckParams s))) = k.
Proof.
  intros Hsent Hrt Hp.
  apply V2_GetConsumerKey_sent in Hsent as (params & r0 & _ & _ & _ & ->).
  rewrite Hrt. cbn [http.Body http.StatusCode Z.eqb Pos.eqb].
  rewrite (V2_grant_decoded body k st u Hp). split; reflexivity.
Qed.

(** In [src/caller.go] the same answer stores the consumer key and returns
    it with the validation URL, but the status of the grant is empty. *)
Lemma V1_GetConsumerKey_round_trip (env : Env) (errs : V1.Errors) (ckParams : option GetCKParams.t)
  (s : State V1.Caller) (req : http.Request) (body k st u : string) :
  sent (world (snd (V1.GetConsumerKey env errs ckParams s))) = (sent (world s) ++ [req])%list ->
  roundtrip env (length (sent (world s))) req
  = inr {| http.StatusCode := 200; http.Body := inr body |} ->
  json.parse body
  = Some (json.Object [("consumerKey", json.Str k); ("state", json.Str st);
                       ("validationUrl", json.Str u)]) ->
  fst (V1.GetConsumerKey env errs ckParams s)
  = inr {| V1.GetCKResponse.ConsumerKey := k; V1.GetCKResponse.Status := EmptyString;
           V1.GetCKResponse.ValidationUrl := u |}
  /\ V1.ConsumerKey (self (snd (V1.GetConsumerKey env errs ckParams s))) = k.
Proof.
  intros Hsent Hrt Hp.
  apply V1_GetConsumerKey_sent in Hsent as (params & r0 & _ & _ & _ & ->).
  rewrite Hrt. cbn [http.Body http.StatusCode Z.eqb Pos.eqb].
  rewrite (V1_grant_decoded body k st u Hp). split; reflexivity.
Qed.

(** C4.  The round trip of the specification, run on the older version:
    the request for the rule (GET, /me) is answered with status 200 and the
    body [{"consumerKey":"abc","state":"pendingValidation",
    "validationUrl":"https://eu.api.ovh.com/auth/?credentialToken=t"}].  The
    consumer key is stored and returned with the validation URL, but the
    status of the grant is the empty string, not [pendingValidation]; the
    newer version returns the three values. *)
Theorem V1_grant_loses_the_state (errs : V1.Errors) :
  let env := answering (fun _ => 1700000000) 200
               (quoted "{'consumerKey':'abc','state':'pendingValidation','validationUrl':'https://eu.api.ovh.com/auth/?credentialToken=t'}") in
  let ckParams :=
    Some {| GetCKParams.AccessRules :=
              Some [Some {| AccessRule.Method := "GET"; AccessRule.Path := "/me" |}];
            GetCKParams.Redirection := EmptyString |} in
  let c1 := {| V1.ApplicationKey := "AK"; V1.ApplicationSecret := "AS";
               V1.ConsumerKey := EmptyString; V1.Url := "https://api.ovh.com/1.0";
               V1.delay := 0 |} in
  let c2 := {| V2.ApplicationKey := "AK"; V2.ApplicationSecret := "AS";
               V2.ConsumerKey := EmptyString; V2.URL := "https://api.ovh.com/1.0";
               V2.delay := 0 |} in
  let r1 := V1.GetConsumerKey env errs ckParams {| self := c1; world := nothing_yet |} in
  let r2 := V2.GetConsumerKey env ckParams {| self := c2; world := nothing_yet |} in
  fst r1
  = inr {| V1.GetCKResponse.ConsumerKey := "abc";
           V1.GetCKResponse.Status := EmptyString;
           V1.GetCKResponse.ValidationUrl :=
             "https://eu.api.ovh.com/auth/?credentialToken=t" |}
  /\ V1.ConsumerKey (self (snd r1)) = "abc"
  /\ fst r2
     = inr {| V2.GetCKResponse.ConsumerKey := "abc";
              V2.GetCKResponse.Status := "pendingValidation";
              V2.GetCKResponse.ValidationURL :=
                "https://eu.api.ovh.com/auth/?credentialToken=t" |}
  /\ V2.ConsumerKey (self (snd r2)) = "abc"
  /\ map http.ReqBody (sent (world (snd r1)))
     = [quoted "{'accessRules':[{'method':'GET','path':'/me'}],'redirection':''}"].
Proof.
  intros env ckParams c1 c2 r1 r2. repeat apply conj; vm_compute; reflexivity.
Qed.

(** *** The clock offset *)

Lemma wrap_int_small (z : Z) :
  strconv.min_int <= z <= strconv.max_int -> wrap_int z = z.
Proof.
  unfold strconv.min_int, strconv.max_int, wrap_int. intros Hz.
  rewrite Z.mod_small by lia. lia.
Qed.

(** In [src/caller.go] the offset stored by [NewCaller] is the time that the
    API returned minus the local clock read before the request was sent, in
    seconds. *)
Lemma V1_NewCaller_offset (env : Env) (endpoint key secret consumer : string)
  (w w' : World) (c : V1.Caller) :
  V1.NewCaller env endpoint key secret consumer w = (inr c, w') ->
  exists url remote,
    V1.ApiUrl !! endpoint = Some url
    /\ fst (V1.Time env
              {| self := {| V1.ApplicationKey := key; V1.ApplicationSecret := secret;
                            V1.ConsumerKey := consumer; V1.Url := url; V1.delay := 0 |};
                 world := {| reads := S (reads w); sent := sent w |} |})
       = inr remote
    /\ c = {| V1.ApplicationKey := key; V1.ApplicationSecret := secret;
              V1.ConsumerKey := consumer; V1.Url := url;
              V1.delay := wrap_int (remote - time.Unix (now env (reads w))) |}.
Proof.
  unfold V1.NewCaller.
  remember (default EmptyString (V1.ApiUrl !! endpoint)) as url eqn:Hurl.
  destruct (String.eqb_spec url EmptyString) as [Hempty | Hne]; [discriminate |].
  assert (V1.ApiUrl !! endpoint = Some url) as Hu.
  { destruct (V1.ApiUrl !! endpoint) as [u|]; cbn in Hurl; congruence. }
  unfold try at 1, bind at 1, time_Now. cbn [self world reads sent].
  unfold bind at 1.
  match goal with
  | |- context [V1.Time env ?st] =>
      pose proof (proj1 (Time_keeps_the_caller env) st) as Hself;
      destruct (V1.Time env st) as [[e|remote] st'] eqn:Ht
  end; cbn [ret id]; [discriminate |].
  cbn [snd self] in Hself.
  unfold bind, get_self, set_self, ret. cbn [self world]. rewrite Hself.
  cbn [V1.ApplicationKey V1.ApplicationSecret V1.ConsumerKey V1.Url].
  intros H. injection H as <- <-. exists url, remote.
  split; [exact Hu |]. split; [now rewrite Ht | reflexivity].
Qed.

(** In [src/caller.go] the timestamp of a call, in the header and in the
    signature, is the local clock plus the offset of the caller. *)
Lemma V1_timestamp_is_clock_plus_offset (env : Env) (errs : V1.Errors) (R : Type) (url method : string)
  (body : option json.govalue) (typeResult : option (json.value -> json.Error + R))
  (s : State V1.Caller) (req : http.Request) :
  sent (world (snd (V1.CallApi env errs url method body typeResult s)))
  = (sent (world s) ++ [req])%list ->
  let c := self s in
  let ts := wrap_int (time.Unix (now env (reads (world s))) + V1.delay c) in
  http.Header req !! "X-Ovh-Timestamp" = Some [strconv.FormatInt ts]
  /\ exists params,
       http.Header req !! "X-Ovh-Signature"
       = Some [V1.getSignature c method (V1.Url c ++ url) params ts].
Proof.
  intros Hsent c ts.
  apply V1_CallApi_sent in Hsent as (params & r0 & _ & Hr & -> & _).
  apply NewRequest_header in Hr as (H0 & _ & _). fold c ts.
  destruct (signed_header r0 (strconv.FormatInt ts) (V1.ApplicationKey c)
              (V1.ConsumerKey c)
              (V1.getSignature c method (V1.Url c ++ url) params ts) H0)
    as (Hh & _ & Ht & Hs).
  rewrite Hh. split; [exact Ht |]. exists params. exact Hs.
Qed.

(** In [src/unnamed/part_000] the offset stored by [NewCaller] is the local
    clock, read after the answer, minus the time that the API returned: the
    opposite of the offset of the older version. *)
Lemma V2_NewCaller_offset (env : Env) (endpoint key secret consumer : string)
  (w w' : World) (c : V2.Caller) :
  V2.NewCaller env endpoint key secret consumer w = (inr c, w') ->
  exists url remote st,
    V2.APIURL !! endpoint = Some url
    /\ V2.Time env
         {| self := {| V2.ApplicationKey := key; V2.ApplicationSecret := secret;
                       V2.ConsumerKey := consumer; V2.URL := url; V2.delay := 0 |};
            world := w |}
       = (inr remote, st)
    /\ c = {| V2.ApplicationKey := key; V2.ApplicationSecret := secret;
              V2.ConsumerKey := consumer; V2.URL := url;
              V2.delay := time.Sub (now env (reads (world st))) remote |}.
Proof.
  unfold V2.NewCaller.
  destruct (V2.APIURL !! endpoint) as [url|] eqn:Hu; [| discriminate].
  unfold try at 1, bind at 1.
  match goal with
  | |- context [V2.Time env ?st] =>
      pose proof (proj2 (Time_keeps_the_caller env) st) as Hself;
      destruct (V2.Time env st) as [[e|remote] st'] eqn:Ht
  end; cbn [ret id]; [discriminate |].
  cbn [snd self] in Hself.
  unfold bind, time_Now, get_self, set_self, ret. cbn [self world]. rewrite Hself.
  cbn [V2.ApplicationKey V2.ApplicationSecret V2.ConsumerKey V2.URL].
  intros H. injection H as <- <-. exists url, remote, st'.
  split; [reflexivity |]. split; [exact Ht | reflexivity].
Qed.

Lemma V2_timestamp_is_clock_plus_delay (env : Env) (R : Type) (url method : string)
  (body : option json.govalue) (typeResult : option (json.value -> json.Error + R))
  (s : State V2.Caller) (req : http.Request) :
  sent (world (snd (V2.CallAPI env url method body typeResult s)))
  = (sent (world s) ++ [req])%list ->
  let c := self s in
  let ts := time.Unix (time.Add (now env (reads (world s))) (V2.delay c)) in
  http.Header req !! "X-Ovh-Timestamp" = Some [strconv.FormatInt ts]
  /\ exists params,
       http.Header req !! "X-Ovh-Signature"
       = Some [V2.getSignature c method (V2.URL c ++ url) params ts].
Proof.
  intros Hsent c ts.
  apply V2_CallAPI_sent in Hsent as (params & r0 & _ & Hr & -> & _).
  apply NewRequest_header in Hr as (H0 & _ & _). fold c ts.
  destruct (signed_header r0 (strconv.FormatInt ts) (V2.ApplicationKey c)
              (V2.ConsumerKey c)
              (V2.getSignature c method (V2.URL c ++ url) params ts) H0)
    as (_ & Hh & Ht & Hs).
  rewrite Hh. split; [exact Ht |]. exists params. exact Hs.
Qed.

(** C1.  The API says that it is second 1000 while the local clock reads
    900; the next call is made when the local clock reads 950.  The offset of
    the claim is 1000 - 900 = 100 seconds and the timestamp 950 + 100 = 1050.
    The older version stores 100 and stamps 1050.  The newer version stores
    minus one hundred seconds and stamps 850, in the header and in the
    signature. *)
Theorem V2_offset_has_the_opposite_sign (errs : V1.Errors) :
  let env := answering (fun n => match n with O => 900 | _ => 950 end) 200 "1000" in
  exists (c1 : V1.Caller) (c2 : V2.Caller) (w1 w2 : World) (req1 req2 : http.Request),
    V1.NewCaller env "ovh-eu" "AK" "AS" "CK" nothing_yet = (inr c1, w1)
    /\ V2.NewCaller env "ovh-eu" "AK" "AS" "CK" nothing_yet = (inr c2, w2)
    /\ V1.delay c1 = 1000 - 900
    /\ V2.delay c2 = (900 - 1000) * time.Second
    /\ sent (world (snd (V1.CallApi (R := unit) env errs "/me" "GET" None None
                           {| self := c1; world := w1 |})))
       = (sent w1 ++ [req1])%list
    /\ sent (world (snd (V2.CallAPI (R := unit) env "/me" "GET" None None
                           {| self := c2; world := w2 |})))
       = (sent w2 ++ [req2])%list
    /\ http.Header req1 !! "X-Ovh-Timestamp" = Some ["1050"]
    /\ http.Header req2 !! "X-Ovh-Timestamp" = Some ["850"]
    /\ http.Header req2 !! "X-Ovh-Signature"
       = Some [V2.getSignature c2 "GET" "https://api.ovh.com/1.0/me" EmptyString 850]
    /\ strconv.FormatInt (950 + (1000 - 900)) = "1050".
Proof.
  intros env. do 6 eexists.
  split; [vm_compute; reflexivity |]. split; [vm_compute; reflexivity |].
  split; [reflexivity |]. split; [reflexivity |].
  split; [vm_compute; reflexivity |]. split; [vm_compute; reflexivity |].
  repeat apply conj; vm_compute; reflexivity.
Qed.

(** ** JSON: fuel *)

(** A result obtained with some fuel is the result with any larger fuel:
    the fuel given by [json.parse] bounds the depth of the descent and has
    no other effect. *)
Lemma parse_fuel_mono (f : nat) :
  (forall s r, json.parse_value f s = Some r ->
     forall f', (f <= f')%nat -> json.parse_value f' s = Some r)
  /\ (forall s r, json.parse_elems f s = Some r ->
        forall f', (f <= f')%nat -> json.parse_elems f' s = Some r)
  /\ (forall s r, json.parse_members f s = Some r ->
        forall f', (f <= f')%nat -> json.parse_members f' s = Some r).
Proof.
  induction f as [|f (IHv & IHe & IHm)].
  - repeat split; intros s r H; discriminate H.
  - repeat split; intros s r H f' Hf'; (destruct f' as [|f']; [lia |]);
      assert (f <= f')%nat as Hle by lia.
    + cbn [json.parse_value] in H |- *.
      repeat (case_match; simplify_eq; try discriminate; try reflexivity);
        repeat match goal with
        | H : json.parse_elems f _ = Some _ |- _ => apply (fun h => IHe _ _ h f' Hle) in H
        | H : json.parse_members f _ = Some _ |- _ => apply (fun h => IHm _ _ h f' Hle) in H
        end; congruence.
    + cbn [json.parse_elems] in H |- *.
      repeat (case_match; simplify_eq; try discriminate; try reflexivity);
        repeat match goal with
        | H : json.parse_value f _ = Some _ |- _ => apply (fun h => IHv _ _ h f' Hle) in H
        | H : json.parse_elems f _ = Some _ |- _ => apply (fun h => IHe _ _ h f' Hle) in H
        end; congruence.
    + cbn [json.parse_members] in H |- *.
      repeat (case_match; simplify_eq; try discriminate; try reflexivity);
        repeat match goal with
        | H : json.parse_value f _ = Some _ |- _ => apply (fun h => IHv _ _ h f' Hle) in H
        | H : json.parse_members f _ = Some _ |- _ => apply (fun h => IHm _ _ h f' Hle) in H
        end; congruence.
Qed.

Lemma skip_ws_le (s : string) :
  (String.length (json.skip_ws s) <= String.length s)%nat.
Proof.
  induction s as [|c s IH]; [reflexivity |].
  cbn [json.skip_ws]. destruct (json.is_space c); cbn [String.length]; lia.
Qed.

Lemma strip_prefix_le (p s t : string) :
  json.strip_prefix p s = Some t -> (String.length t <= String.length s)%nat.
Proof.
  revert s. induction p as [|a p IH]; intros s H.
  - cbn in H. now simplify_eq.
  - destruct s as [|b s]; [discriminate |]. cbn [json.strip_prefix] in H.
    destruct (json.eqc a b); [| discriminate].
    apply IH in H. cbn [String.length]. lia.
Qed.

Lemma string_body_lt (n : nat) :
  forall s str t,
    (String.length s <= n)%nat ->
    json.string_body s = Some (str, t) -> (String.length t < String.length s)%nat.
Proof.
  induction n as [|n IH]; intros s str t Hn H.
  - destruct s; [discriminate | cbn [String.length] in Hn; lia].
  - destruct s as [|c r]; [discriminate |].
    cbn [json.string_body] in H. cbn [String.length] in Hn |- *.
    repeat (case_match; simplify_eq; try discriminate; cbn [String.length] in * );
      repeat match goal with
      | H : json.string_body ?x = Some _ |- _ => apply IH in H; [| lia]
      end; cbn [String.length] in *; lia.
Qed.

Lemma span_digits_le (s ds t : string) :
  json.span_digits s = (ds, t) -> (String.length t <= String.length s)%nat.
Proof.
  revert ds t. induction s as [|c s IH]; intros ds t H.
  - cbn in H. now simplify_eq.
  - cbn [json.span_digits] in H. destruct (Bytes.is_digit c).
    + destruct (json.span_digits s) as [ds' t'] eqn:Hs. simplify_eq.
      specialize (IH _ _ eq_refl). cbn [String.length]. lia.
    + now simplify_eq.
Qed.

Lemma number_lt (s lit t : string) :
  json.number s = Some (lit, t) -> (String.length t < String.length s)%nat.
Proof.
  unfold json.number. intros H.
  repeat (case_match; simplify_eq; try discriminate; cbn [String.length] in * );
    repeat match goal with
    | H : json.span_digits _ = (_, _) |- _ => apply span_digits_le in H
    end; cbn [String.length] in *; lia.
Qed.

(** What the scanners leave is shorter than what they were given. *)
Ltac lengths :=
  repeat match goal with
  | H : json.skip_ws ?x = String _ _ |- _ =>
      let L := fresh "L" in
      pose proof (skip_ws_le x) as L; rewrite H in L; revert H
  | H : json.strip_prefix _ _ = Some _ |- _ =>
      let L := fresh "L" in
      pose proof (strip_prefix_le _ _ _ H) as L; revert H
  | H : json.string_body ?x = Some _ |- _ =>
      let L := fresh "L" in
      pose proof (string_body_lt _ _ _ _ (Nat.le_refl _) H) as L; revert H
  | H : json.number _ = Some _ |- _ =>
      let L := fresh "L" in
      pose proof (number_lt _ _ _ H) as L; revert H
  end;
  intros; cbn [String.length] in *.

(** Rewrite with the tests already made, and give the calls of the descent
    the fuel that they are known to need. *)
Ltac refuel :=
  repeat match goal with
         | H : ?x = _ |- context [?x] => rewrite H
         | Hp : json.parse_value ?k ?x = Some _ |- context [json.parse_value ?g ?x] =>
             rewrite (proj1 (parse_fuel_mono k) _ _ Hp g) by lia
         | Hp : json.parse_elems ?k ?x = Some _ |- context [json.parse_elems ?g ?x] =>
             rewrite (proj1 (proj2 (parse_fuel_mono k)) _ _ Hp g) by lia
         | Hp : json.parse_members ?k ?x = Some _ |- context [json.parse_members ?g ?x] =>
             rewrite (proj2 (proj2 (parse_fuel_mono k)) _ _ Hp g) by lia
         end;
  try reflexivity.

Lemma parse_fuel_bound (f : nat) :
  (forall s v t, json.parse_value f s = Some (v, t) ->
     (String.length t < String.length s)%nat
     /\ json.parse_value (2 * (String.length s - String.length t)) s = Some (v, t))
  /\ (forall s l t, json.parse_elems f s = Some (l, t) ->
        (String.length t < String.length s)%nat
        /\ json.parse_elems (2 * (String.length s - String.length t) + 1) s
           = Some (l, t))
  /\ (forall s kvs t, json.parse_members f s = Some (kvs, t) ->
        (String.length t < String.length s)%nat
        /\ json.parse_members (2 * (String.length s - String.length t) + 1) s
           = Some (kvs, t)).
Proof.
  induction f as [|f (IHv & IHe & IHm)].
  - repeat split; discriminate.
  - split; [| split].
    + intros s v t H. cbn [json.parse_value] in H.
      repeat (case_match; simplify_eq; try discriminate);
        repeat match goal with
        | H : json.parse_elems f _ = Some _ |- _ => apply IHe in H as [? ?]
        | H : json.parse_members f _ = Some _ |- _ => apply IHm in H as [? ?]
        end; lengths.
      all: split; [lia |].
      all: destruct (2 * (String.length s - String.length t))%nat as [|g] eqn:Hg; [lia |].
      all: cbn [json.parse_value].
      all: repeat match goal with
           | H : ?x = _ |- context [?x] => rewrite H
           end.
      all: try reflexivity.
      all: refuel.
    + intros s l t H. cbn [json.parse_elems] in H.
      repeat (case_match; simplify_eq; try discriminate);
        repeat match goal with
        | H : json.parse_value f _ = Some _ |- _ => apply IHv in H as [? ?]
        | H : json.parse_elems f _ = Some _ |- _ => apply IHe in H as [? ?]
        end; lengths.
      all: split; [lia |].
      all: rewrite Nat.add_1_r; cbn [json.parse_elems].
      all: refuel.
    + intros s l t H. cbn [json.parse_members] in H.
      repeat (case_match; simplify_eq; try discriminate);
        repeat match goal with
        | H : json.parse_value f _ = Some _ |- _ => apply IHv in H as [? ?]
        | H : json.parse_members f _ = Some _ |- _ => apply IHm in H as [? ?]
        end; lengths.
      all: split; [lia |].
      all: rewrite Nat.add_1_r; cbn [json.parse_members].
      all: refuel.
Qed.

(** [json.parse] never runs out of fuel: a document that the descent reads
    with some fuel is read by [json.parse]. *)
Lemma parse_has_enough_fuel (f : nat) (s : string) (v : json.value) (t : string) :
  json.parse_value f s = Some (v, t) ->
  json.skip_ws t = EmptyString ->
  json.parse s = Some v.
Proof.
  intros H Ht. apply (proj1 (parse_fuel_bound f)) in H as [Hl H].
  unfold json.parse.
  rewrite (proj1 (parse_fuel_mono _) _ _ H (2 * String.length s + 2)%nat) by lia.
  now rewrite Ht.
Qed.

(** ** A request is sent whenever it can be built *)

Lemma CallApi_sends (env : Env) (errs : V1.Errors) (R : Type) (url method : string)
  (body : option json.govalue) (typeResult : option (json.value -> json.Error + R))
  (params : string) :
  match body with Some b => Marshal_body b | None => inr EmptyString end = inr params ->
  (forall (s : State V1.Caller) r0,
      http.NewRequest (parse_url env) method (V1.Url (self s) ++ url) params = inr r0 ->
      exists req,
        sent (world (snd (V1.CallApi env errs url method body typeResult s)))
        = (sent (world s) ++ [req])%list)
  /\ (forall (s : State V2.Caller) r0,
         http.NewRequest (parse_url env) method (V2.URL (self s) ++ url) params = inr r0 ->
         exists req,
           sent (world (snd (V2.CallAPI env url method body typeResult s)))
           = (sent (world s) ++ [req])%list).
Proof.
  intros Hm. split; intros s r0 Hr; run; rewrite Hm; cbn [snd fst world sent].
  - rewrite Sprintf_url, Hr. unfold Spec.success. branches; eexists; reflexivity.
  - rewrite Hr. unfold http.StatusOK, http.StatusMultipleChoices.
    branches; eexists; reflexivity.
Qed.

Lemma Time_sends (env : Env) :
  (forall (s : State V1.Caller) r0,
      http.NewRequest (parse_url env) "GET" (V1.Url (self s) ++ "/auth/time") EmptyString
      = inr r0 ->
      exists req, sent (world (snd (V1.Time env s))) = (sent (world s) ++ [req])%list)
  /\ (forall (s : State V2.Caller) r0,
         http.NewRequest (parse_url env) "GET" (V2.URL (self s) ++ "/auth/time")
           EmptyString = inr r0 ->
         exists req, sent (world (snd (V2.Time env s))) = (sent (world s) ++ [req])%list).
Proof.
  split; intros s r0 Hr; run; rewrite Sprintf_time_url, Hr;
    unfold http.StatusOK; branches; eexists; reflexivity.
Qed.

(** ** The models of the library, run on known values *)

(** The test vectors of FIPS 180 for SHA-1. *)
Example sha1_of_nothing :
  hex.EncodeToString (sha1.Sum []) = "da39a3ee5e6b4b0d3255bfef95601890afd80709".
Proof. vm_compute. reflexivity. Qed.

Example sha1_of_abc :
  hex.EncodeToString (sha1.Sum (Bytes.of_string "abc"))
  = "a9993e364706816aba3e25717850c26c9cd0d89d".
Proof. vm_compute. reflexivity. Qed.

Example sha1_of_two_blocks :
  hex.EncodeToString
    (sha1.Sum (Bytes.of_string "abcdbcdecdefdefgefghfghighijhijkijkljklmklmnlmnomnopnopq"))
  = "84983e441c3bd26ebaae4aa1f95129e5e54670f1".
Proof. vm_compute. reflexivity. Qed.

Example FormatInt_values :
  strconv.FormatInt (-1050) = "-1050" /\ strconv.FormatInt 0 = "0"
  /\ strconv.FormatInt 1700000000 = "1700000000".
Proof. repeat apply conj; vm_compute; reflexivity. Qed.

Example Atoi_values :
  strconv.Atoi "1700000000" = inr 1700000000
  /\ strconv.Atoi "+5" = inr 5
  /\ strconv.Atoi "-0" = inr 0
  /\ strconv.Atoi "12a" = inl strconv.ErrSyntax
  /\ strconv.Atoi (String "010" "12") = inl strconv.ErrSyntax
  /\ strconv.Atoi "9223372036854775808" = inl strconv.ErrRange.
Proof. repeat apply conj; vm_compute; reflexivity. Qed.

Example parse_error_body :
  json.parse (quoted "{'message':'Not found','code':404}")
  = Some (json.Object [("message", json.Str "Not found"); ("code", json.Number "404")]).
Proof. vm_compute. reflexivity. Qed.

Example parse_refuses :
  json.parse "{" = None /\ json.parse EmptyString = None
  /\ json.parse (quoted "{'a':1,}") = None /\ json.parse "01" = None.
Proof. repeat apply conj; vm_compute; reflexivity. Qed.

Example canonical_key :
  http.CanonicalMIMEHeaderKey "X-OVH-Application" = "X-Ovh-Application"
  /\ http.CanonicalMIMEHeaderKey "content-type" = "Content-Type".
Proof. split; vm_compute; reflexivity. Qed.

(** The signature of a call to [/me] in the two versions. *)
Example signature_of_a_call :
  V1.getSignature caller1 "GET" "https://api.ovh.com/1.0/me" EmptyString 1700000000
  = "$1$24ee5e141feb0c29ebf7c66329cf7e66b9f0de2b"
  /\ V2.getSignature caller2 "GET" "https://api.ovh.com/1.0/me" EmptyString 1700000000
     = "$1$24ee5e141feb0c29ebf7c66329cf7e66b9f0de2b".
Proof. split; vm_compute; reflexivity. Qed.

(* ===================================================================== *)
(** * Further properties of the two callers                               *)
(* ===================================================================== *)

(** ** The creation of a caller *)

Lemma endpoint_lookup (endpoint : string) :
  V1.ApiUrl !! endpoint = V2.APIURL !! endpoint
  /\ (endpoint <> "ovh-eu" -> endpoint <> "ovh-ca" -> endpoint <> "runabove" ->
      V1.ApiUrl !! endpoint = None)
  /\ (forall url, V1.ApiUrl !! endpoint = Some url -> url <> EmptyString).
Proof.
  split; [reflexivity |].
  unfold V1.ApiUrl. cbn [list_to_map foldr fst snd]. split.
  - intros H1 H2 H3. rewrite !lookup_insert_ne by congruence. apply lookup_empty.
  - intros url.
    destruct (decide (endpoint = "ovh-eu")) as [-> | H1];
      [rewrite lookup_insert_eq; intros H; now simplify_eq |].
    rewrite lookup_insert_ne by congruence.
    destruct (decide (endpoint = "ovh-ca")) as [-> | H2];
      [rewrite lookup_insert_eq; intros H; now simplify_eq |].
    rewrite lookup_insert_ne by congruence.
    destruct (decide (endpoint = "runabove")) as [-> | H3];
      [rewrite lookup_insert_eq; intros H; now simplify_eq |].
    rewrite lookup_insert_ne by congruence. rewrite lookup_empty. discriminate.
Qed.

(** X1.  [NewCaller] refuses an endpoint that is not one of the three of the
    table: it returns an error that names the endpoint, sends no request and
    does not read the clock.  This holds in both versions. *)
Theorem NewCaller_refuses_an_unknown_endpoint
  (env : Env) (endpoint key secret consumer : string) (w : World) :
  endpoint <> "ovh-eu" -> endpoint <> "ovh-ca" -> endpoint <> "runabove" ->
  V1.NewCaller env endpoint key secret consumer w
  = (inl (errorString ("Invalid endpoint " ++ endpoint)), w)
  /\ V2.NewCaller env endpoint key secret consumer w
     = (inl (InvalidEndpoint endpoint), w).
Proof.
  intros H1 H2 H3.
  destruct (endpoint_lookup endpoint) as (Heq & Hnone & _).
  specialize (Hnone H1 H2 H3). split.
  - unfold V1.NewCaller. rewrite Hnone. cbn [default String.eqb].
    cbn [fmt.Sprintf fmt.verb Ascii.eqb Bool.eqb]. now rewrite append_nil_r.
  - unfold V2.NewCaller. now rewrite <- Heq, Hnone.
Qed.

Lemma NewCaller_refuses_an_unknown_endpoint_witness :
  let env := answering (fun _ => 900) 200 "1000" in
  "ovh-us" <> "ovh-eu" /\ "ovh-us" <> "ovh-ca" /\ "ovh-us" <> "runabove"
  /\ V1.NewCaller env "ovh-us" "AK" "AS" "CK" nothing_yet
     = (inl (errorString "Invalid endpoint ovh-us"), nothing_yet)
  /\ V2.NewCaller env "ovh-us" "AK" "AS" "CK" nothing_yet
     = (inl (InvalidEndpoint "ovh-us"), nothing_yet).
Proof.
  intros env.
  assert ("ovh-us" <> "ovh-eu") as H1 by discriminate.
  assert ("ovh-us" <> "ovh-ca") as H2 by discriminate.
  assert ("ovh-us" <> "runabove") as H3 by discriminate.
  split; [exact H1 |]. split; [exact H2 |]. split; [exact H3 |].
  exact (NewCaller_refuses_an_unknown_endpoint env "ovh-us" "AK" "AS" "CK"
           nothing_yet H1 H2 H3).
Defined.

Lemma NewRequest_fields (p : string -> bool) (method url body : string) (r : http.Request) :
  http.NewRequest p method url body = inr r ->
  r = {| http.Method := match method with EmptyString => "GET" | _ => method end;
         http.URL := url; http.ReqBody := body; http.Header := ∅ |}.
Proof.
  unfold http.NewRequest. intros H.
  destruct (negb _); [discriminate |]. destruct (negb _); [discriminate |].
  now injection H as <-.
Qed.

(** When the time fetch returns a time, one request was sent and it was
    answered with status 200 and a body that [strconv.Atoi] reads. *)
Lemma Time_returned (env : Env) :
  (forall (s : State V1.Caller) (t : Z),
      fst (V1.Time env s) = inr t ->
      exists req body,
        snd (V1.Time env s)
        = {| self := self s;
             world := {| reads := reads (world s);
                         sent := (sent (world s) ++ [req])%list |} |}
        /\ req = {| http.Method := "GET"; http.URL := (V1.Url (self s) ++ "/auth/time")%string;
                    http.ReqBody := EmptyString; http.Header := ∅ |}
        /\ roundtrip env (length (sent (world s))) req
           = inr {| http.StatusCode := 200; http.Body := inr body |}
        /\ strconv.Atoi body = inr t)
  /\ (forall (s : State V2.Caller) (t : Z),
         fst (V2.Time env s) = inr t ->
         exists req body sec,
           snd (V2.Time env s)
           = {| self := self s;
                world := {| reads := reads (world s);
                            sent := (sent (world s) ++ [req])%list |} |}
           /\ req = {| http.Method := "GET";
                       http.URL := (V2.URL (self s) ++ "/auth/time")%string;
                       http.ReqBody := EmptyString;
                       http.Header := {[ "Content-Type" := ["application/json"] ]} |}
           /\ roundtrip env (length (sent (world s))) req
              = inr {| http.StatusCode := 200; http.Body := inr body |}
           /\ strconv.Atoi body = inr sec
           /\ t = time.Unix_ sec).
Proof.
  split; intros s t; run; rewrite Sprintf_time_url.
  - destruct (http.NewRequest _ _ _ _) as [e|r0] eqn:Hr; cbn [fst snd]; [discriminate |].
    apply NewRequest_fields in Hr. subst r0.
    destruct (roundtrip env _ _) as [e|[status [e|body]]] eqn:Hrt; cbn [fst snd http.Body];
      try discriminate.
    cbn [http.StatusCode].
    destruct (Z.eqb_spec status 200) as [-> | Hne]; cbn [negb fst snd]; [| discriminate].
    rewrite Sprintf_string.
    destruct (strconv.Atoi body) as [e|t'] eqn:Ha; cbn [fst snd]; [discriminate |].
    intros H. injection H as <-. eexists _, body. repeat split; [exact Hrt | exact Ha].
  - destruct (http.NewRequest _ _ _ _) as [e|r0] eqn:Hr; cbn [fst snd]; [discriminate |].
    apply NewRequest_fields in Hr. subst r0.
    destruct (roundtrip env _ _) as [e|[status [e|body]]] eqn:Hrt; cbn [fst snd http.Body];
      try discriminate.
    cbn [http.StatusCode]. unfold http.StatusOK.
    destruct (Z.eqb_spec status 200) as [-> | Hne]; cbn [negb fst snd]; [| discriminate].
    destruct (strconv.Atoi body) as [e|sec] eqn:Ha; cbn [fst snd]; [discriminate |].
    intros H. injection H as <-. eexists _, body, sec.
    split; [reflexivity |]. split; [| split; [exact Hrt | split; [exact Ha | reflexivity]]].
    unfold http.HeaderAdd, http.Add. cbn [http.Method http.URL http.ReqBody http.Header].
    f_equal.
Qed.


(** [NewCaller] on an endpoint of the table, in terms of the time fetch. *)
Lemma NewCaller_run (env : Env) (endpoint key secret consumer url : string) (w : World) :
  V1.ApiUrl !! endpoint = Some url ->
  (let r := V1.Time env
              {| self := {| V1.ApplicationKey := key; V1.ApplicationSecret := secret;
                            V1.ConsumerKey := consumer; V1.Url := url; V1.delay := 0 |};
                 world := {| reads := S (reads w); sent := sent w |} |} in
   V1.NewCaller env endpoint key secret consumer w
   = (match fst r with
      | inl e => inl e
      | inr remote =>
          inr {| V1.ApplicationKey := key; V1.ApplicationSecret := secret;
                 V1.ConsumerKey := consumer; V1.Url := url;
                 V1.delay := wrap_int (remote - time.Unix (now env (reads w))) |}
      end, world (snd r)))
  /\ (let r := V2.Time env
                 {| self := {| V2.ApplicationKey := key; V2.ApplicationSecret := secret;
                               V2.ConsumerKey := consumer; V2.URL := url; V2.delay := 0 |};
                    world := w |} in
      V2.NewCaller env endpoint key secret consumer w
      = match fst r with
        | inl e => (inl e, world (snd r))
        | inr remote =>
            (inr {| V2.ApplicationKey := key; V2.ApplicationSecret := secret;
                    V2.ConsumerKey := consumer; V2.URL := url;
                    V2.delay := time.Sub (now env (reads (world (snd r)))) remote |},
             {| reads := S (reads (world (snd r))); sent := sent (world (snd r)) |})
        end).
Proof.
  intros Hu. split; intros r; subst r.
  - unfold V1.NewCaller. rewrite Hu.
    change (default EmptyString (Some url)) with url.
    destruct (String.eqb_spec url EmptyString) as [-> | _].
    { now apply (proj2 (proj2 (endpoint_lookup endpoint))) in Hu. }
    unfold try at 1, bind at 1, time_Now. cbn [self world reads sent].
    unfold bind at 1.
    match goal with
    | |- _ = (_, world (snd (V1.Time env ?st))) =>
        pose proof (proj1 (Time_keeps_the_caller env) st) as Hself;
        change (V1.Time env _) with (V1.Time env st);
        destruct (V1.Time env st) as [[e|remote] st']
    end; cbn [ret id fst snd self] in *; [reflexivity |].
    unfold bind, get_self, set_self, ret. cbn [self world]. now rewrite Hself.
  - unfold V2.NewCaller.
    rewrite <- (proj1 (endpoint_lookup endpoint)), Hu.
    unfold try at 1, bind at 1.
    match goal with
    | |- context [V2.Time env ?st] =>
        pose proof (proj2 (Time_keeps_the_caller env) st) as Hself;
        change (V2.Time env _) with (V2.Time env st);
        destruct (V2.Time env st) as [[e|remote] st']
    end; cbn [ret id fst snd self] in *; [reflexivity |].
    unfold bind, time_Now, get_self, set_self, ret. cbn [self world]. now rewrite Hself.
Qed.




(** X3.  In [src/caller.go], creating a caller and then calling the API
    compose as the clock synchronisation intends: when the API answered the
    time [remote] while the local clock read [L] seconds, a call made when
    the local clock reads [N] seconds carries the timestamp
    [N + (remote - L)], provided the three times are far from the bounds of
    an [int]. *)
Theorem V1_call_after_NewCaller_carries_the_remote_time
  (env : Env) (errs : V1.Errors) (endpoint key secret consumer : string)
  (w w' : World) (c : V1.Caller) :
  V1.NewCaller env endpoint key secret consumer w = (inr c, w') ->
  exists req0 body remote,
    roundtrip env (length (sent w)) req0
    = inr {| http.StatusCode := 200; http.Body := inr body |}
    /\ strconv.Atoi body = inr remote
    /\ forall (R : Type) url method payload
              (typeResult : option (json.value -> json.Error + R)) (w2 : World) req,
         let L := time.Unix (now env (reads w)) in
         let N := time.Unix (now env (reads w2)) in
         - 2 ^ 61 <= remote <= 2 ^ 61 -> - 2 ^ 61 <= L <= 2 ^ 61 ->
         - 2 ^ 61 <= N <= 2 ^ 61 ->
         sent (world (snd (V1.CallApi env errs url method payload typeResult
                             {| self := c; world := w2 |})))
         = (sent w2 ++ [req])%list ->
         http.Header req !! "X-Ovh-Timestamp" = Some [strconv.FormatInt (N + (remote - L))].
Proof.
  intros H.
  destruct (V1.ApiUrl !! endpoint) as [url|] eqn:Hu.
  2: { revert H. unfold V1.NewCaller. rewrite Hu. discriminate. }
  rewrite (proj1 (NewCaller_run env endpoint key secret consumer url w Hu)) in H.
  cbv zeta in H.
  destruct (fst (V1.Time env _)) as [e|remote] eqn:Ht; [discriminate |].
  apply (proj1 (Time_returned env)) in Ht as (req0 & body & _ & _ & Hrt & Ha).
  cbn [self world reads sent] in Hrt. injection H as <- _.
  exists req0, body, remote. split; [exact Hrt |]. split; [exact Ha |].
  intros R url' method payload tr w2 req L N HT HL HN Hsent.
  apply V1_timestamp_is_clock_plus_offset in Hsent as [Hts _].
  cbn [self world V1.delay] in Hts. rewrite Hts. fold L N.
  rewrite (wrap_int_small (remote - L))
    by (unfold strconv.min_int, strconv.max_int; lia).
  rewrite wrap_int_small by (unfold strconv.min_int, strconv.max_int; lia).
  reflexivity.
Qed.

Lemma V1_call_after_NewCaller_carries_the_remote_time_witness :
  let env := answering (fun n => match n with O => 900 | _ => 950 end) 200 "1000" in
  exists (c : V1.Caller) (w' : World) (req : http.Request),
    V1.NewCaller env "ovh-eu" "AK" "AS" "CK" nothing_yet = (inr c, w')
    /\ sent (world (snd (V1.CallApi (R := unit) env plain "/me" "GET" None None
                           {| self := c; world := w' |})))
       = (sent w' ++ [req])%list
    /\ http.Header req !! "X-Ovh-Timestamp" = Some ["1050"].
Proof.
  intros env.
  exists {| V1.ApplicationKey := "AK"; V1.ApplicationSecret := "AS"; V1.ConsumerKey := "CK";
            V1.Url := "https://api.ovh.com/1.0"; V1.delay := 100 |}.
  do 2 eexists.
  assert (V1.NewCaller env "ovh-eu" "AK" "AS" "CK" nothing_yet
          = (inr {| V1.ApplicationKey := "AK"; V1.ApplicationSecret := "AS";
                    V1.ConsumerKey := "CK"; V1.Url := "https://api.ovh.com/1.0";
                    V1.delay := 100 |},
             {| reads := 1;
                sent := [{| http.Method := "GET";
                            http.URL := "https://api.ovh.com/1.0/auth/time";
                            http.ReqBody := EmptyString; http.Header := ∅ |}] |})) as Hnew
    by (vm_compute; reflexivity).
  split; [exact Hnew |]. split; [vm_compute; reflexivity |].
  destruct (V1_call_after_NewCaller_carries_the_remote_time env plain _ _ _ _ _ _ _ Hnew)
    as (req0 & body & remote & Hrt & Ha & Hcall).
  cbn in Hrt. injection Hrt as <-. vm_compute in Ha. injection Ha as <-.
  match goal with
  | |- http.Header ?r !! _ = _ =>
      etransitivity;
        [apply (Hcall unit "/me" "GET" None None
                  {| reads := 1;
                     sent := [{| http.Method := "GET";
                                 http.URL := "https://api.ovh.com/1.0/auth/time";
                                 http.ReqBody := EmptyString; http.Header := ∅ |}] |} r);
           [vm_compute; split; discriminate | vm_compute; split; discriminate
           | vm_compute; split; discriminate | vm_compute; reflexivity]
        | vm_compute; reflexivity]
  end.
Defined.

(** ** One request per call *)

(** X4.  No method calls [http.DefaultClient.Do] a second time or reads
    the clock a second time: a call to the API either stops before anything
    has left (the body could not be serialized or the request could not be
    built; the clock is not read then) or reads the clock once and hands one
    request to the transport; the time fetch, the ping and the request for
    a consumer key hand over at most one request and never read the clock.
    Nothing is retried, whatever the transport answers. *)
Theorem no_method_sends_twice (env : Env) (errs : V1.Errors) :
  (forall (R : Type) url method body (typeResult : option (json.value -> json.Error + R))
          (s : State V1.Caller),
      let w' := world (snd (V1.CallApi env errs url method body typeResult s)) in
      w' = world s
      \/ exists req, w' = {| reads := S (reads (world s));
                             sent := (sent (world s) ++ [req])%list |})
  /\ (forall (R : Type) url method body (typeResult : option (json.value -> json.Error + R))
             (s : State V2.Caller),
         let w' := world (snd (V2.CallAPI env url method body typeResult s)) in
         w' = world s
         \/ exists req, w' = {| reads := S (reads (world s));
                                sent := (sent (world s) ++ [req])%list |})
  /\ (forall (s : State V1.Caller),
         let sends (w' : World) :=
           w' = world s
           \/ exists req, w' = {| reads := reads (world s);
                                  sent := (sent (world s) ++ [req])%list |} in
         sends (world (snd (V1.Time env s)))
         /\ sends (world (snd (V1.Ping env s)))
         /\ forall ckParams, sends (world (snd (V1.GetConsumerKey env errs ckParams s))))
  /\ (forall (s : State V2.Caller),
         let sends (w' : World) :=
           w' = world s
           \/ exists req, w' = {| reads := reads (world s);
                                  sent := (sent (world s) ++ [req])%list |} in
         sends (world (snd (V2.Time env s)))
         /\ sends (world (snd (V2.Ping env s)))
         /\ forall ckParams, sends (world (snd (V2.GetConsumerKey env ckParams s)))).
Proof.
  split; [| split; [| split]].
  - intros R url method body tr s w'. subst w'. run.
    branches; first [left; reflexivity | right; eexists; reflexivity].
  - intros R url method body tr s w'. subst w'. run.
    branches; first [left; reflexivity | right; eexists; reflexivity].
  - intros s sends. subst sends. cbv beta. split; [| split]; [| | intros ckParams]; run;
      branches; first [left; reflexivity | right; eexists; reflexivity].
  - intros s sends. subst sends. cbv beta. split; [| split]; [| | intros ckParams]; run;
      branches; first [left; reflexivity | right; eexists; reflexivity].
Qed.

(** ** The consumer key of the caller *)

(** X5.  [GetConsumerKey] returns a grant only when one request was sent and
    answered with status 200 and a body that decodes as a grant; the
    consumer key of the caller is then the one of the grant, and the other
    fields are kept.  Whenever it returns an error, an answer with a status
    other than 200 included, the caller is exactly as it was. *)
Theorem GetConsumerKey_stores_the_key_of_the_grant
  (env : Env) (errs : V1.Errors) (ckParams : option GetCKParams.t) :
  (forall s : State V1.Caller,
      let c := self s in
      let s' := snd (V1.GetConsumerKey env errs ckParams s) in
      match fst (V1.GetConsumerKey env errs ckParams s) with
      | inl _ => self s' = c
      | inr askCK =>
          self s' = {| V1.ApplicationKey := V1.ApplicationKey c;
                       V1.ApplicationSecret := V1.ApplicationSecret c;
                       V1.ConsumerKey := V1.GetCKResponse.ConsumerKey askCK;
                       V1.Url := V1.Url c; V1.delay := V1.delay c |}
          /\ exists req body,
               sent (world s') = (sent (world s) ++ [req])%list
               /\ roundtrip env (length (sent (world s))) req
                  = inr {| http.StatusCode := 200; http.Body := inr body |}
               /\ V1.GetCKResponse.Unmarshal body V1.GetCKResponse.new = inr askCK
      end)
  /\ (forall s : State V2.Caller,
         let c := self s in
         let s' := snd (V2.GetConsumerKey env ckParams s) in
         match fst (V2.GetConsumerKey env ckParams s) with
         | inl _ => self s' = c
         | inr askCK =>
             self s' = {| V2.ApplicationKey := V2.ApplicationKey c;
                          V2.ApplicationSecret := V2.ApplicationSecret c;
                          V2.ConsumerKey := V2.GetCKResponse.ConsumerKey askCK;
                          V2.URL := V2.URL c; V2.delay := V2.delay c |}
             /\ exists req body,
                  sent (world s') = (sent (world s) ++ [req])%list
                  /\ roundtrip env (length (sent (world s))) req
                     = inr {| http.StatusCode := 200; http.Body := inr body |}
                  /\ V2.GetCKResponse.Unmarshal body V2.GetCKResponse.new = inr askCK
         end).
Proof.
  split; intros s c s'; subst c s'; run.
  - destruct (Marshal_GetCKParams ckParams) as [e|params]; cbn [fst snd self]; [reflexivity |].
    destruct (http.NewRequest _ _ _ _) as [e|r0]; cbn [fst snd self]; [reflexivity |].
    destruct (roundtrip env _ _) as [e|[status [e|body]]] eqn:Hrt;
      cbn [fst snd self http.Body http.StatusCode]; try reflexivity.
    destruct (Z.eqb_spec status 200) as [-> | Hne].
    + destruct (V1.GetCKResponse.Unmarshal body _) as [e|askCK] eqn:Hu;
        cbn [fst snd self world sent]; [reflexivity |].
      split; [reflexivity |]. eexists _, body. split; [reflexivity |]. split; [exact Hrt |].
      exact Hu.
    + destruct (Unmarshal_ApiOvhError body _); reflexivity.
  - destruct (Marshal_GetCKParams ckParams) as [e|params]; cbn [fst snd self]; [reflexivity |].
    destruct (http.NewRequest _ _ _ _) as [e|r0]; cbn [fst snd self]; [reflexivity |].
    destruct (roundtrip env _ _) as [e|[status [e|body]]] eqn:Hrt;
      cbn [fst snd self http.Body http.StatusCode]; try reflexivity.
    destruct (Z.eqb_spec status 200) as [-> | Hne].
    + destruct (V2.GetCKResponse.Unmarshal body _) as [e|askCK] eqn:Hu;
        cbn [fst snd self world sent]; [reflexivity |].
      split; [reflexivity |]. eexists _, body. split; [reflexivity |]. split; [exact Hrt |].
      exact Hu.
    + destruct (Unmarshal_ApiOvhError body _); reflexivity.
Qed.

(** ** Ping *)

(** X6.  [Ping] reports no error exactly when the URL of the time endpoint
    is accepted and the request for it, a GET without a body that carries no
    key of the caller, is answered with status 200 and a body that
    [strconv.Atoi] reads.  The request of the older version has no header;
    the one of the newer version has the content type only. *)
Theorem Ping_succeeds_exactly_when_the_time_is_read (env : Env) :
  (forall s : State V1.Caller,
      fst (V1.Ping env s) = None
      <-> parse_url env (V1.Url (self s) ++ "/auth/time") = true
          /\ exists body apiTime,
               roundtrip env (length (sent (world s)))
                 {| http.Method := "GET"; http.URL := V1.Url (self s) ++ "/auth/time";
                    http.ReqBody := EmptyString; http.Header := ∅ |}
               = inr {| http.StatusCode := 200; http.Body := inr body |}
               /\ strconv.Atoi body = inr apiTime)
  /\ (forall s : State V2.Caller,
         fst (V2.Ping env s) = None
         <-> parse_url env (V2.URL (self s) ++ "/auth/time") = true
             /\ exists body ts,
                  roundtrip env (length (sent (world s)))
                    {| http.Method := "GET"; http.URL := V2.URL (self s) ++ "/auth/time";
                       http.ReqBody := EmptyString;
                       http.Header := {[ "Content-Type" := ["application/json"] ]} |}
                  = inr {| http.StatusCode := 200; http.Body := inr body |}
                  /\ strconv.Atoi body = inr ts).
Proof.
  assert (forall r : http.Request,
             http.Header (http.HeaderAdd "Content-Type" "application/json"
                            {| http.Method := "GET"; http.URL := http.URL r;
                               http.ReqBody := EmptyString; http.Header := ∅ |})
             = {[ "Content-Type" := ["application/json"] ]}) as Hct
    by (intros r; vm_compute; reflexivity).
  split; intros s; run; rewrite Sprintf_time_url; unfold http.NewRequest;
    change (negb (http.validMethod "GET")) with false; cbv iota.
  - destruct (parse_url env _); cbn [negb fst snd].
    2: { split; [discriminate | intros [H _]; discriminate]. }
    destruct (roundtrip env _ _) as [e|[status [e|body]]] eqn:Hrt;
      cbn [fst snd http.Body http.StatusCode].
    1, 2: split; [discriminate | intros (_ & b & t & H & _); discriminate].
    destruct (Z.eqb_spec status 200) as [-> | Hne]; cbn [negb fst snd].
    + rewrite Sprintf_string.
      destruct (strconv.Atoi body) as [e|t] eqn:Ha; cbn [fst snd].
      * split; [discriminate |]. intros (_ & b & t & H & Hb). injection H as <-.
        congruence.
      * split; [| reflexivity]. intros _. split; [reflexivity |]. now exists body, t.
    + split; [discriminate |]. intros (_ & b & t & H & Hb). injection H as ->.
      contradiction.
  - unfold http.HeaderAdd, http.Add, http.StatusOK.
    cbn [http.Method http.URL http.ReqBody http.Header].
    change (<[http.CanonicalMIMEHeaderKey "Content-Type" :=
               (default [] (∅ !! http.CanonicalMIMEHeaderKey "Content-Type")
                ++ ["application/json"])%list]> (∅ : gmap string (list string)))
      with ({[ "Content-Type" := ["application/json"] ]} : gmap string (list string)).
    destruct (parse_url env _); cbn [negb fst snd].
    2: { split; [discriminate | intros [H _]; discriminate]. }
    cbn [http.Method http.URL http.ReqBody http.Header].
    destruct (roundtrip env _ _) as [e|[status [e|body]]] eqn:Hrt;
      cbn [fst snd http.Body http.StatusCode].
    1, 2: split; [discriminate | intros (_ & b & t & H & _); discriminate].
    destruct (Z.eqb_spec status 200) as [-> | Hne]; cbn [negb fst snd].
    + destruct (strconv.Atoi body) as [e|t] eqn:Ha; cbn [fst snd].
      * split; [discriminate |]. intros (_ & b & t & H & Hb). injection H as <-.
        congruence.
      * split; [| reflexivity]. intros _. split; [reflexivity |]. now exists body, t.
    + split; [discriminate |]. intros (_ & b & t & H & Hb). injection H as ->.
      contradiction.
Qed.

(** ** The text that is signed *)

Lemma Join_six (a b c d e f : string) :
  strings.Join [a; b; c; d; e; f] "+"
  = (a ++ "+" ++ b ++ "+" ++ c ++ "+" ++ d ++ "+" ++ e ++ "+" ++ f)%string.
Proof. reflexivity. Qed.

(** X7.  The six parts of the signed text are joined by [+] and nothing
    marks where a part ends: a piece that follows a [+] at the end of the
    URL can be moved to the front of the body, or from the end of the
    consumer key to the front of the method, without changing the
    signature.  This holds in both versions. *)
Theorem getSignature_does_not_delimit_its_parts
  (key secret consumer base method url piece body : string) (d t : Z) :
  let c1 (ck : string) :=
    {| V1.ApplicationKey := key; V1.ApplicationSecret := secret;
       V1.ConsumerKey := ck; V1.Url := base; V1.delay := d |} in
  let c2 (ck : string) :=
    {| V2.ApplicationKey := key; V2.ApplicationSecret := secret;
       V2.ConsumerKey := ck; V2.URL := base; V2.delay := d |} in
  V1.getSignature (c1 consumer) method (url ++ "+" ++ piece) body t
  = V1.getSignature (c1 consumer) method url (piece ++ "+" ++ body) t
  /\ V1.getSignature (c1 (consumer ++ "+" ++ piece)) method url body t
     = V1.getSignature (c1 consumer) (piece ++ "+" ++ method) url body t
  /\ V2.getSignature (c2 consumer) method (url ++ "+" ++ piece) body t
     = V2.getSignature (c2 consumer) method url (piece ++ "+" ++ body) t
  /\ V2.getSignature (c2 (consumer ++ "+" ++ piece)) method url body t
     = V2.getSignature (c2 consumer) (piece ++ "+" ++ method) url body t.
Proof.
  intros c1 c2. subst c1 c2. cbv beta.
  unfold V1.getSignature, V2.getSignature.
  cbn [V1.ApplicationSecret V1.ConsumerKey V2.ApplicationSecret V2.ConsumerKey].
  rewrite !Sprintf_signature, !Join_six.
  repeat split; do 3 f_equal; rewrite ?append_assoc; reflexivity.
Qed.

(** ** The request of a call *)

(** What a call leaves in the world: nothing when the body cannot be
    serialized or the request cannot be built, and otherwise one reading of
    the clock and one request, whatever the answer is. *)
Lemma V1_CallApi_world (env : Env) (errs : V1.Errors) (R : Type) (url method : string)
  (body : option json.govalue) (typeResult : option (json.value -> json.Error + R))
  (s : State V1.Caller) :
  let c := self s in
  let timestamp := wrap_int (time.Unix (now env (reads (world s))) + V1.delay c) in
  world (snd (V1.CallApi env errs url method body typeResult s))
  = match match body with Some b => Marshal_body b | None => inr EmptyString end with
    | inl _ => world s
    | inr params =>
        match http.NewRequest (parse_url env) method (V1.Url c ++ url) params with
        | inl _ => world s
        | inr r0 =>
            {| reads := S (reads (world s));
               sent := (sent (world s)
                        ++ [http.HeaderAdd "X-Ovh-Signature"
                              (V1.getSignature c method (V1.Url c ++ url) params timestamp)
                              (http.HeaderAdd "X-Ovh-Consumer" (V1.ConsumerKey c)
                                 (http.HeaderAdd "X-Ovh-Application" (V1.ApplicationKey c)
                                    (http.HeaderAdd "X-Ovh-Timestamp"
                                       (strconv.FormatInt timestamp)
                                       (http.HeaderAdd "Content-Type" "application/json"
                                          r0))))])%list |}
        end
    end.
Proof.
  intros c timestamp. subst c timestamp. run.
  destruct (match body with Some b => Marshal_body b | None => inr EmptyString end)
    as [e|params]; cbn [snd fst world sent]; [reflexivity |].
  rewrite Sprintf_url.
  destruct (http.NewRequest _ _ _ _) as [e|r0]; cbn [snd fst world sent]; [reflexivity |].
  rewrite Sprintf_string, Sprintf_int. branches; reflexivity.
Qed.

Lemma V2_CallAPI_world (env : Env) (R : Type) (url method : string)
  (body : option json.govalue) (typeResult : option (json.value -> json.Error + R))
  (s : State V2.Caller) :
  let c := self s in
  let timestamp := time.Unix (time.Add (now env (reads (world s))) (V2.delay c)) in
  world (snd (V2.CallAPI env url method body typeResult s))
  = match match body with Some b => Marshal_body b | None => inr EmptyString end with
    | inl _ => world s
    | inr params =>
        match http.NewRequest (parse_url env) method (V2.URL c ++ url) params with
        | inl _ => world s
        | inr r0 =>
            {| reads := S (reads (world s));
               sent := (sent (world s)
                        ++ [V2.add_headers
                              [("Content-Type", "application/json");
                               ("X-Ovh-Timestamp", strconv.FormatInt timestamp);
                               ("X-Ovh-Application", V2.ApplicationKey c);
                               ("X-Ovh-Consumer", V2.ConsumerKey c);
                               ("X-Ovh-Signature",
                                V2.getSignature c method (V2.URL c ++ url) params
                                  timestamp)]
                              r0])%list |}
        end
    end.
Proof.
  intros c timestamp. subst c timestamp. run.
  destruct (match body with Some b => Marshal_body b | None => inr EmptyString end)
    as [e|params]; cbn [snd fst world sent]; [reflexivity |].
  destruct (http.NewRequest _ _ _ _) as [e|r0]; cbn [snd fst world sent]; [reflexivity |].
  unfold http.StatusOK, http.StatusMultipleChoices. branches; reflexivity.
Qed.

Lemma Unix_Add_seconds (t d : Z) :
  time.Unix (time.Add t (d * time.Second)) = time.Unix t + d.
Proof. unfold time.Unix, time.Add, time.Second. now rewrite Z.div_add. Qed.

(** X8.  Given the same keys, the same base URL and the same clock offset
    (in seconds in [src/caller.go], in nanoseconds in
    [src/unnamed/part_000]), the two versions put the same requests on the
    wire for the same call: same method, URL, body and header, signature
    and timestamp included, provided the timestamp fits an [int]. *)
Theorem versions_send_the_same_request (env : Env) (errs : V1.Errors) (R : Type)
  (url method : string) (body : option json.govalue)
  (typeResult : option (json.value -> json.Error + R))
  (c1 : V1.Caller) (c2 : V2.Caller) (w : World) :
  V2.ApplicationKey c2 = V1.ApplicationKey c1 ->
  V2.ApplicationSecret c2 = V1.ApplicationSecret c1 ->
  V2.ConsumerKey c2 = V1.ConsumerKey c1 ->
  V2.URL c2 = V1.Url c1 ->
  V2.delay c2 = V1.delay c1 * time.Second ->
  strconv.min_int <= time.Unix (now env (reads w)) + V1.delay c1 <= strconv.max_int ->
  world (snd (V2.CallAPI env url method body typeResult {| self := c2; world := w |}))
  = world (snd (V1.CallApi env errs url method body typeResult {| self := c1; world := w |})).
Proof.
  intros Hk Hs Hc Hu Hd Hrange.
  rewrite V1_CallApi_world, V2_CallAPI_world. cbv zeta. cbn [self world].
  rewrite Hd, Unix_Add_seconds, (wrap_int_small _ Hrange), Hu.
  destruct (match body with Some b => Marshal_body b | None => inr EmptyString end)
    as [e|params]; [reflexivity |].
  destruct (http.NewRequest _ _ _ _) as [e|r0]; [reflexivity |].
  rewrite V1_getSignature_token, V2_getSignature_token, Hk, Hs, Hc.
  reflexivity.
Qed.

Lemma versions_send_the_same_request_witness :
  let env := answering (fun _ => 950) 200 EmptyString in
  world (snd (V2.CallAPI (R := unit) env "/me" "GET" None None
                {| self := caller2; world := nothing_yet |}))
  = world (snd (V1.CallApi (R := unit) env plain "/me" "GET" None None
                  {| self := caller1; world := nothing_yet |}))
  /\ length (sent (world (snd (V1.CallApi (R := unit) env plain "/me" "GET" None None
                                 {| self := caller1; world := nothing_yet |})))) = 1%nat.
Proof.
  intros env. split; [| vm_compute; reflexivity].
  apply (versions_send_the_same_request env plain unit "/me" "GET" None None
           caller1 caller2 nothing_yet); try reflexivity.
  vm_compute. split; discriminate.
Defined.



(** X10.  A call with the empty method is sent as a GET, since
    [http.NewRequest] takes an empty method for GET, but the text that is
    signed has the empty method that was passed: it is not the text that the
    method, the URL and the body of the request give.  The two versions
    behave alike. *)
Theorem empty_method_is_sent_as_GET_and_signed_as_empty (env : Env) (errs : V1.Errors) :
  (forall (R : Type) url body (typeResult : option (json.value -> json.Error + R))
          (s : State V1.Caller) req,
      sent (world (snd (V1.CallApi env errs url EmptyString body typeResult s)))
      = (sent (world s) ++ [req])%list ->
      let c := self s in
      http.Method req = "GET"
      /\ exists ts,
           http.Header req !! "X-Ovh-Timestamp" = Some [strconv.FormatInt ts]
           /\ http.Header req !! "X-Ovh-Signature"
              = Some [Spec.token
                        (Spec.signed_text_as_passed (V1.ApplicationSecret c)
                           (V1.ConsumerKey c) EmptyString (http.URL req)
                           (http.ReqBody req) ts)]
           /\ Spec.signed_text_as_passed (V1.ApplicationSecret c) (V1.ConsumerKey c)
                EmptyString (http.URL req) (http.ReqBody req) ts
              <> Spec.signed_text_as_passed (V1.ApplicationSecret c) (V1.ConsumerKey c)
                   (http.Method req) (http.URL req) (http.ReqBody req) ts)
  /\ (forall (R : Type) url body (typeResult : option (json.value -> json.Error + R))
             (s : State V2.Caller) req,
         sent (world (snd (V2.CallAPI env url EmptyString body typeResult s)))
         = (sent (world s) ++ [req])%list ->
         let c := self s in
         http.Method req = "GET"
         /\ exists ts,
              http.Header req !! "X-Ovh-Timestamp" = Some [strconv.FormatInt ts]
              /\ http.Header req !! "X-Ovh-Signature"
                 = Some [Spec.token
                           (Spec.signed_text_as_passed (V2.ApplicationSecret c)
                              (V2.ConsumerKey c) EmptyString (http.URL req)
                              (http.ReqBody req) ts)]
              /\ Spec.signed_text_as_passed (V2.ApplicationSecret c) (V2.ConsumerKey c)
                   EmptyString (http.URL req) (http.ReqBody req) ts
                 <> Spec.signed_text_as_passed (V2.ApplicationSecret c) (V2.ConsumerKey c)
                      (http.Method req) (http.URL req) (http.ReqBody req) ts).
Proof.
  assert (forall secret ck url body ts,
             Spec.signed_text_as_passed secret ck EmptyString url body ts
             <> Spec.signed_text_as_passed secret ck "GET" url body ts) as Hdiff.
  { intros secret ck url body ts Heq. apply (f_equal String.length) in Heq.
    unfold Spec.signed_text_as_passed, strings.Join in Heq.
    cbn [String.concat] in Heq. rewrite !length_append in Heq.
    cbn [String.length] in Heq. lia. }
  split; intros R url body tr s req Hsent c; subst c.
  - apply V1_CallApi_sent in Hsent as (params & r0 & _ & Hr & -> & _).
    apply NewRequest_fields in Hr. subst r0.
    cbn [http.HeaderAdd http.Method http.URL http.ReqBody].
    split; [reflexivity |].
    match goal with
    | |- context [strconv.FormatInt ?t] => exists t
    end.
    match goal with
    | |- context [http.Header (http.HeaderAdd _ ?sig (http.HeaderAdd _ ?ck
                   (http.HeaderAdd _ ?k (http.HeaderAdd _ ?ts (http.HeaderAdd _ _ ?r)))))] =>
        destruct (signed_header r ts k ck sig eq_refl) as (Hh & _ & Ht & Hs)
    end.
    rewrite Hh. split; [exact Ht |]. split; [| apply Hdiff].
    rewrite Hs, V1_getSignature_token. reflexivity.
  - apply V2_CallAPI_sent in Hsent as (params & r0 & _ & Hr & -> & _).
    apply NewRequest_fields in Hr. subst r0.
    match goal with
    | |- context [V2.add_headers ?hs ?r] =>
        change (http.Method (V2.add_headers hs r)) with (http.Method r);
        change (http.URL (V2.add_headers hs r)) with (http.URL r);
        change (http.ReqBody (V2.add_headers hs r)) with (http.ReqBody r)
    end.
    cbn [http.Method http.URL http.ReqBody].
    split; [reflexivity |].
    match goal with
    | |- context [strconv.FormatInt ?t] => exists t
    end.
    match goal with
    | |- context [http.Header (V2.add_headers [_; (_, ?ts); (_, ?k); (_, ?ck); (_, ?sig)] ?r)] =>
        destruct (signed_header r ts k ck sig eq_refl) as (_ & Hh & Ht & Hs)
    end.
    rewrite Hh. split; [exact Ht |]. split; [| apply Hdiff].
    rewrite Hs, V2_getSignature_token. reflexivity.
Qed.

Lemma empty_method_is_sent_as_GET_and_signed_as_empty_witness :
  let env := answering (fun _ => 950) 200 EmptyString in
  let s := {| self := caller1; world := nothing_yet |} in
  exists req,
    sent (world (snd (V1.CallApi (R := unit) env plain "/me" EmptyString None None s)))
    = [req]
    /\ http.Method req = "GET"
    /\ http.Header req !! "X-Ovh-Signature"
       = Some [Spec.sign_as_passed "AS" "CK" EmptyString "https://api.ovh.com/1.0/me"
                 EmptyString 1050].
Proof.
  intros env s.
  assert (exists req, sent (world (snd (V1.CallApi (R := unit) env plain "/me" EmptyString
                                          None None s))) = [req]) as [req Hreq]
    by (eexists; vm_compute; reflexivity).
  exists req. split; [exact Hreq |].
  destruct (proj1 (empty_method_is_sent_as_GET_and_signed_as_empty env plain) unit "/me"
              None None s req Hreq) as (Hm & ts & _ & _ & _).
  split; [exact Hm |].
  vm_compute in Hreq. injection Hreq as <-. vm_compute. reflexivity.
Defined.

(** ** Answers that are errors *)

Lemma parse_empty : json.parse EmptyString = None.
Proof. reflexivity. Qed.

Lemma parse_markup (rest : string) : json.parse (String "<" rest) = None.
Proof.
  unfold json.parse. cbn [String.length Nat.mul Nat.add].
  cbn [json.parse_value json.skip_ws json.is_space json.eqc Ascii.eqb Bool.eqb
       json.dquote orb].
  reflexivity.
Qed.

(** X11.  An answer with a status outside 200..299 becomes an [ApiOvhError]
    only when its body is a JSON document.  When it is not, and so for an
    empty body and for any body that starts with [<], as a page of markup
    does, the call returns the syntax error of [json.Unmarshal] and the
    status of the answer is not in what is returned: the newer version
    returns the syntax error itself, the older one hands its message to
    [NewError] with the code 500. *)
Theorem error_answer_without_JSON_loses_the_status (env : Env) (errs : V1.Errors) :
  (forall (R : Type) url method body (typeResult : option (json.value -> json.Error + R))
          (s : State V1.Caller) req status resBody,
      sent (world (snd (V1.CallApi env errs url method body typeResult s)))
      = (sent (world s) ++ [req])%list ->
      roundtrip env (length (sent (world s))) req
      = inr {| http.StatusCode := status; http.Body := inr resBody |} ->
      Spec.success status = false ->
      json.parse resBody = None ->
      fst (V1.CallApi env errs url method body typeResult s)
      = inl (V1.NewError errs (V1.Error errs (JSONError json.SyntaxError)) 500))
  /\ (forall (R : Type) url method body (typeResult : option (json.value -> json.Error + R))
             (s : State V2.Caller) req status resBody,
         sent (world (snd (V2.CallAPI env url method body typeResult s)))
         = (sent (world s) ++ [req])%list ->
         roundtrip env (length (sent (world s))) req
         = inr {| http.StatusCode := status; http.Body := inr resBody |} ->
         Spec.success status = false ->
         json.parse resBody = None ->
         fst (V2.CallAPI env url method body typeResult s)
         = inl (JSONError json.SyntaxError))
  /\ json.parse EmptyString = None
  /\ (forall rest, json.parse (String "<" rest) = None).
Proof.
  split; [| split; [| split; [exact parse_empty | exact parse_markup]]].
  - intros R url method body tr s req status resBody Hsent Hrt Hst Hp.
    apply V1_CallApi_sent in Hsent as (params & r0 & _ & _ & _ & ->).
    rewrite Hrt. cbn [http.Body http.StatusCode]. rewrite Hst.
    unfold Unmarshal_ApiOvhError, json.Unmarshal. rewrite Hp. reflexivity.
  - intros R url method body tr s req status resBody Hsent Hrt Hst Hp.
    apply V2_CallAPI_sent in Hsent as (params & r0 & _ & _ & _ & ->).
    rewrite Hrt. cbn [http.Body http.StatusCode]. rewrite Hst.
    unfold Unmarshal_ApiOvhError, json.Unmarshal. rewrite Hp. reflexivity.
Qed.

Lemma error_answer_without_JSON_loses_the_status_witness :
  let env := answering (fun _ => 950) 503 "<html>Service Unavailable</html>" in
  fst (V2.CallAPI (R := unit) env "/me" "GET" None None
         {| self := caller2; world := nothing_yet |})
  = inl (JSONError json.SyntaxError).
Proof.
  intros env.
  assert (exists req, sent (world (snd (V2.CallAPI (R := unit) env "/me" "GET" None None
                                          {| self := caller2; world := nothing_yet |})))
                      = ([] ++ [req])%list) as [req Hreq]
    by (eexists; vm_compute; reflexivity).
  exact (proj1 (proj2 (error_answer_without_JSON_loses_the_status env plain))
           unit "/me" "GET" None None {| self := caller2; world := nothing_yet |} req
           503 "<html>Service Unavailable</html>" Hreq eq_refl eq_refl
           (parse_markup _)).
Defined.

(** ** Failures of the transport *)

(** X12.  When the round trip fails, or the body of the answer cannot be
    read, nothing is decoded and the error comes back: as it is from every
    method of [src/unnamed/part_000] and from [Time] and [Ping] of
    [src/caller.go], and as [NewError(err.Error(), 500)] from [CallApi] and
    [GetConsumerKey] of [src/caller.go]. *)
Theorem transport_errors_are_returned (env : Env) (errs : V1.Errors) :
  let failed (n : nat) (req : http.Request) (err : error) :=
    roundtrip env n req = inl err
    \/ exists status,
         roundtrip env n req = inr {| http.StatusCode := status; http.Body := inl err |} in
  (forall (s : State V1.Caller) req err,
      sent (world (snd (V1.Time env s))) = (sent (world s) ++ [req])%list ->
      failed (length (sent (world s))) req err ->
      fst (V1.Time env s) = inl err /\ fst (V1.Ping env s) = Some err)
  /\ (forall (s : State V2.Caller) req err,
         sent (world (snd (V2.Time env s))) = (sent (world s) ++ [req])%list ->
         failed (length (sent (world s))) req err ->
         fst (V2.Time env s) = inl err /\ fst (V2.Ping env s) = Some err)
  /\ (forall (R : Type) url method body (typeResult : option (json.value -> json.Error + R))
             (s : State V1.Caller) req err,
         sent (world (snd (V1.CallApi env errs url method body typeResult s)))
         = (sent (world s) ++ [req])%list ->
         failed (length (sent (world s))) req err ->
         fst (V1.CallApi env errs url method body typeResult s)
         = inl (V1.NewError errs (V1.Error errs err) 500))
  /\ (forall (R : Type) url method body (typeResult : option (json.value -> json.Error + R))
             (s : State V2.Caller) req err,
         sent (world (snd (V2.CallAPI env url method body typeResult s)))
         = (sent (world s) ++ [req])%list ->
         failed (length (sent (world s))) req err ->
         fst (V2.CallAPI env url method body typeResult s) = inl err)
  /\ (forall ckParams (s : State V1.Caller) req err,
         sent (world (snd (V1.GetConsumerKey env errs ckParams s)))
         = (sent (world s) ++ [req])%list ->
         failed (length (sent (world s))) req err ->
         fst (V1.GetConsumerKey env errs ckParams s)
         = inl (V1.NewError errs (V1.Error errs err) 500))
  /\ (forall ckParams (s : State V2.Caller) req err,
         sent (world (snd (V2.GetConsumerKey env ckParams s)))
         = (sent (world s) ++ [req])%list ->
         failed (length (sent (world s))) req err ->
         fst (V2.GetConsumerKey env ckParams s) = inl err).
Proof.
  intros failed. subst failed. cbv beta.
  split; [| split; [| split; [| split; [| split]]]].
  - intros s req err Hsent Hf. apply V1_Time_sent in Hsent as [_ Ht].
    assert (fst (V1.Time env s) = inl err) as Hr
      by (rewrite Ht; destruct Hf as [-> | [status ->]]; reflexivity).
    split; [exact Hr |]. revert Hr. unfold V1.Ping, bind, ret.
    destruct (V1.Time env s) as [[e|t] s']; cbn [fst]; congruence.
  - intros s req err Hsent Hf. apply V2_Time_sent in Hsent as (r0 & _ & _ & Ht).
    assert (fst (V2.Time env s) = inl err) as Hr
      by (rewrite Ht; destruct Hf as [-> | [status ->]]; reflexivity).
    split; [exact Hr |]. revert Hr. unfold V2.Ping, bind, ret.
    destruct (V2.Time env s) as [[e|t] s']; cbn [fst]; congruence.
  - intros R url method body tr s req err Hsent Hf.
    apply V1_CallApi_sent in Hsent as (params & r0 & _ & _ & _ & ->).
    destruct Hf as [-> | [status ->]]; reflexivity.
  - intros R url method body tr s req err Hsent Hf.
    apply V2_CallAPI_sent in Hsent as (params & r0 & _ & _ & _ & ->).
    destruct Hf as [-> | [status ->]]; reflexivity.
  - intros ckParams s req err Hsent Hf.
    apply V1_GetConsumerKey_sent in Hsent as (params & r0 & _ & _ & _ & ->).
    destruct Hf as [-> | [status ->]]; reflexivity.
  - intros ckParams s req err Hsent Hf.
    apply V2_GetConsumerKey_sent in Hsent as (params & r0 & _ & _ & _ & ->).
    destruct Hf as [-> | [status ->]]; reflexivity.
Qed.

Lemma transport_errors_are_returned_witness :
  let env := {| now := fun _ => 0;
                roundtrip := fun _ _ => inl (netError "connection refused");
                parse_url := fun _ => true |} in
  fst (V2.CallAPI (R := unit) env "/me" "GET" None None
         {| self := caller2; world := nothing_yet |})
  = inl (netError "connection refused")
  /\ fst (V1.CallApi (R := unit) env plain "/me" "GET" None None
            {| self := caller1; world := nothing_yet |})
     = inl (errorString "error").
Proof.
  intros env.
  pose proof (transport_errors_are_returned env plain) as H. cbv zeta in H.
  destruct H as (_ & _ & H1 & H2 & _). split.
  - assert (exists req, sent (world (snd (V2.CallAPI (R := unit) env "/me" "GET" None None
                                            {| self := caller2; world := nothing_yet |})))
                        = ([] ++ [req])%list) as [req Hreq]
      by (eexists; vm_compute; reflexivity).
    exact (H2 unit "/me" "GET" None None {| self := caller2; world := nothing_yet |} req
             (netError "connection refused") Hreq (or_introl eq_refl)).
  - assert (exists req, sent (world (snd (V1.CallApi (R := unit) env plain "/me" "GET" None
                                            None
                                            {| self := caller1; world := nothing_yet |})))
                        = ([] ++ [req])%list) as [req Hreq]
      by (eexists; vm_compute; reflexivity).
    exact (H1 unit "/me" "GET" None None {| self := caller1; world := nothing_yet |} req
             (netError "connection refused") Hreq (or_introl eq_refl)).
Defined.

(** ** The message of an error of the API *)

Lemma ApiOvhError_Error_text (err : ApiOvhError) :
  ApiOvhError_Error err
  = ("Error " ++ strconv.FormatInt (Code err) ++ " : " ++ Message err)%string.
Proof.
  unfold ApiOvhError_Error.
  cbn [fmt.Sprintf fmt.verb Ascii.eqb Bool.eqb].
  now rewrite append_nil_r.
Qed.

Lemma format_uint_digits (u : Z) :
  0 <= u ->
  exists c r, strconv.format_uint u = String c r
              /\ Bytes.is_digit c = true /\ Spec.all_digits r = true.
Proof.
  intros Hu. destruct (format_uint_spec u Hu) as (c & r & Heq & Hc & Hp).
  exists c, r. split; [exact Heq |]. split; [exact Hc |].
  destruct (Spec.all_digits r) eqn:Hd; [reflexivity |].
  cbn [strconv.parse_digits] in Hp. rewrite Hc in Hp.
  apply parse_digits_all_digits with (n := 0 * 10 + (Bytes.byte_of c - 48)) in Hd.
  congruence.
Qed.

Lemma format_uint_inj (u v : Z) :
  0 <= u -> 0 <= v -> strconv.format_uint u = strconv.format_uint v -> u = v.
Proof.
  intros Hu Hv Heq.
  destruct (format_uint_spec u Hu) as (c & r & Hfu & _ & Hpu).
  destruct (format_uint_spec v Hv) as (c' & r' & Hfv & _ & Hpv).
  rewrite <- Hfu in Hpu. rewrite <- Hfv in Hpv. rewrite Heq in Hpu. congruence.
Qed.

(** Digits, then a space: the digits end at the first space. *)
Lemma digits_end_at_the_space (x y r r' : string) :
  Spec.all_digits x = true -> Spec.all_digits y = true ->
  (x ++ String " " r)%string = (y ++ String " " r')%string -> x = y /\ r = r'.
Proof.
  revert y. induction x as [|c x IH]; intros [|d y] Hx Hy Heq.
  - cbn in Heq. injection Heq as ->. now split.
  - rewrite append_cons in Heq. cbn in Heq. injection Heq as <- _.
    cbn in Hy. discriminate Hy.
  - rewrite append_cons in Heq. cbn in Heq. injection Heq as -> _.
    cbn in Hx. discriminate Hx.
  - rewrite !append_cons in Heq. injection Heq as -> Heq.
    cbn [Spec.all_digits] in Hx, Hy.
    apply andb_true_iff in Hx as [_ Hx]. apply andb_true_iff in Hy as [_ Hy].
    destruct (IH y Hx Hy Heq) as [-> ->]. now split.
Qed.

(** X13.  The message of an [ApiOvhError] of [src/error.go] is [Error],
    the code in decimal, a colon between two spaces, and the message; the
    tracer is not in it.  Two errors have the same text exactly when they
    have the same code and the same message. *)
Theorem ApiOvhError_Error_tells_code_and_message (a b : ApiOvhError) :
  ApiOvhError_Error a = ApiOvhError_Error b
  <-> Code a = Code b /\ Message a = Message b.
Proof.
  rewrite !ApiOvhError_Error_text. split.
  2: { intros [-> ->]. reflexivity. }
  intros Heq.
  change ("Error " ++ ?x)%string with
    (String "E" (String "r" (String "r" (String "o" (String "r" (String " " x)))))) in Heq.
  injection Heq as Heq.
  unfold strconv.FormatInt in Heq.
  destruct (Z.ltb_spec (Code a) 0) as [Ha | Ha], (Z.ltb_spec (Code b) 0) as [Hb | Hb].
  - destruct (format_uint_digits (- Code a)) as (c & r & Hfa & Hc & Hr); [lia |].
    destruct (format_uint_digits (- Code b)) as (c' & r' & Hfb & Hc' & Hr'); [lia |].
    rewrite !append_cons in Heq. injection Heq as Heq.
    destruct (digits_end_at_the_space (strconv.format_uint (- Code a))
                (strconv.format_uint (- Code b)) (String ":" (String " " (Message a)))
                (String ":" (String " " (Message b)))) as [Hf Hm].
    + rewrite Hfa. cbn [Spec.all_digits]. now rewrite Hc, Hr.
    + rewrite Hfb. cbn [Spec.all_digits]. now rewrite Hc', Hr'.
    + exact Heq.
    + apply format_uint_inj in Hf; [| lia | lia]. injection Hm as Hm. split; [lia | exact Hm].
  - destruct (format_uint_digits (Code b) Hb) as (c' & r' & Hfb & Hc' & _).
    rewrite Hfb, !append_cons in Heq. injection Heq as <- _.
    vm_compute in Hc'. discriminate Hc'.
  - destruct (format_uint_digits (Code a) Ha) as (c & r & Hfa & Hc & _).
    rewrite Hfa, !append_cons in Heq. injection Heq as -> _.
    vm_compute in Hc. discriminate Hc.
  - destruct (format_uint_digits (Code a) Ha) as (c & r & Hfa & Hc & Hr).
    destruct (format_uint_digits (Code b) Hb) as (c' & r' & Hfb & Hc' & Hr').
    destruct (digits_end_at_the_space (strconv.format_uint (Code a))
                (strconv.format_uint (Code b)) (String ":" (String " " (Message a)))
                (String ":" (String " " (Message b)))) as [Hf Hm].
    + rewrite Hfa. cbn [Spec.all_digits]. now rewrite Hc, Hr.
    + rewrite Hfb. cbn [Spec.all_digits]. now rewrite Hc', Hr'.
    + exact Heq.
    + apply format_uint_inj in Hf; [| lia | lia]. injection Hm as Hm. split; [lia | exact Hm].
Qed.

(** ** The body of the request for a consumer key *)

(** *** Strings written by the encoder are read back by the decoder *)

Lemma escape_cons (c : ascii) (r : string) :
  Bytes.byte_of c <> 0xE2 ->
  json.escape (String c r) = (json.escape (String c EmptyString) ++ json.escape r)%string.
Proof.
  intros H.
  destruct c as [[] [] [] [] [] [] [] []];
    first [reflexivity | exfalso; apply H; reflexivity].
Qed.

Lemma string_body_escape_char (c : ascii) (X : string) :
  Bytes.byte_of c <> 0xE2 ->
  json.string_body (json.escape (String c EmptyString) ++ X)
  = match json.string_body X with
    | Some (t, rest) => Some (String c t, rest)
    | None => None
    end.
Proof.
  intros H.
  destruct c as [[] [] [] [] [] [] [] []];
    first [reflexivity | exfalso; apply H; reflexivity].
Qed.

Lemma byte_of_inj (c d : ascii) : Bytes.byte_of c = Bytes.byte_of d -> c = d.
Proof.
  unfold Bytes.byte_of. intros H. apply N2Z.inj in H.
  rewrite <- (ascii_N_embedding c), <- (ascii_N_embedding d). now rewrite H.
Qed.

(** The line separators U+2028 and U+2029, which are written as escapes,
    and the other texts that start with the byte E2. *)
Lemma escape_E2 (r : string) :
  (exists c2 r', r = String "128" (String c2 r')
                 /\ (c2 = "168"%char \/ c2 = "169"%char)
                 /\ forall X,
                      json.string_body (json.escape (String "226" r) ++ X)
                      = match json.string_body (json.escape r' ++ X) with
                        | Some (t, rest) =>
                            Some (String "226" (String "128" (String c2 t)), rest)
                        | None => None
                        end)
  \/ json.escape (String "226" r) = String "226" (json.escape r).
Proof.
  destruct r as [|c1 [|c2 r']]; [right; reflexivity | right; reflexivity |].
  cbn [json.escape].
  change (json.eqc "226" json.dquote || json.eqc "226" json.backslash) with false.
  change (json.eqc "226" "010") with false. change (json.eqc "226" "013") with false.
  change (json.eqc "226" "009") with false.
  change ((Bytes.byte_of "226" <? 32) || json.eqc "226" "<" || json.eqc "226" ">"
          || json.eqc "226" "&") with false.
  change (Bytes.byte_of "226" =? 226) with true. cbv iota.
  destruct (Z.eqb_spec (Bytes.byte_of c1) 128) as [H1 | H1]; [| right; reflexivity].
  apply (byte_of_inj c1 "128") in H1. subst c1.
  destruct (Z.eqb_spec (Bytes.byte_of c2) 168) as [H2 | H2].
  { apply (byte_of_inj c2 "168") in H2. subst c2. left.
    exists "168"%char, r'. split; [reflexivity |]. split; [now left |].
    intros X. reflexivity. }
  destruct (Z.eqb_spec (Bytes.byte_of c2) 169) as [H3 | H3]; [| right; reflexivity].
  apply (byte_of_inj c2 "169") in H3. subst c2. left.
  exists "169"%char, r'. split; [reflexivity |]. split; [now right |].
  intros X. reflexivity.
Qed.

Lemma string_body_plain (c : ascii) (X : string) :
  Bytes.byte_of c = 0xE2 ->
  json.string_body (String c X)
  = match json.string_body X with
    | Some (t, rest) => Some (String c t, rest)
    | None => None
    end.
Proof. intros H. apply (byte_of_inj c "226") in H. subst c. reflexivity. Qed.

(** What [escape] writes between the quotes is read back by [string_body]
    as the string itself, whatever its bytes are. *)
Lemma string_body_escape (s rest : string) :
  json.string_body (json.escape s ++ String json.dquote rest) = Some (s, rest).
Proof.
  remember (String.length s) as n eqn:Hn.
  assert (String.length s <= n)%nat as Hle by lia. clear Hn.
  revert s Hle. induction n as [|n IH]; intros s Hle.
  - destruct s; [reflexivity | cbn in Hle; lia].
  - destruct s as [|c r]; [reflexivity |]. cbn [String.length] in Hle.
    destruct (Z.eq_dec (Bytes.byte_of c) 0xE2) as [HE | HE].
    + pose proof (byte_of_inj c "226" HE) as ->.
      destruct (escape_E2 r) as [(c2 & r' & -> & Hc2 & Hsb) | Hesc].
      * rewrite Hsb, IH; [reflexivity |]. cbn [String.length] in Hle. lia.
      * rewrite Hesc, append_cons, string_body_plain by reflexivity.
        rewrite IH by lia. reflexivity.
    + rewrite escape_cons, append_assoc, string_body_escape_char by exact HE.
      rewrite IH by lia. reflexivity.
Qed.

(** *** Documents written by the encoder are read back by the decoder *)

Lemma quote_append (s rest : string) :
  (json.quote s ++ rest)%string
  = String json.dquote (json.escape s ++ String json.dquote rest).
Proof. unfold json.quote. now rewrite append_cons, append_assoc, append_cons. Qed.

Lemma parse_Str (f : nat) (s rest : string) :
  json.parse_value (S f) (json.quote s ++ rest) = Some (json.Str s, rest).
Proof.
  rewrite quote_append. cbn [json.parse_value json.skip_ws].
  change (json.is_space json.dquote) with false. cbv iota.
  change (json.eqc json.dquote "n") with false.
  change (json.eqc json.dquote "t") with false.
  change (json.eqc json.dquote "f") with false.
  change (json.eqc json.dquote json.dquote) with true. cbv iota.
  now rewrite string_body_escape.
Qed.

Lemma parse_Null (f : nat) (rest : string) :
  json.parse_value (S f) ("null" ++ rest) = Some (json.Null, rest).
Proof. reflexivity. Qed.

(** A member [k:v] of an object, the last one or one followed by others. *)
Lemma parse_member (f : nat) (k X : string) (v : json.value) (d : ascii) (Y : string) :
  json.parse_value f X = Some (v, String d Y) ->
  json.is_space d = false ->
  json.parse_members (S f) (json.quote k ++ ":" ++ X)
  = if json.eqc d "}" then Some ([(k, v)], Y)
    else if json.eqc d "," then
      match json.parse_members f Y with
      | Some (kvs, t) => Some ((k, v) :: kvs, t)
      | None => None
      end
    else None.
Proof.
  intros Hv Hd. rewrite quote_append. cbn [json.parse_members json.skip_ws].
  change (json.is_space json.dquote) with false. cbv iota.
  change (json.eqc json.dquote json.dquote) with true. cbv iota.
  rewrite string_body_escape.
  change (":" ++ X)%string with (String ":" X). cbn [json.skip_ws].
  change (json.is_space ":") with false. cbv iota.
  change (json.eqc ":" ":") with true. cbv iota.
  rewrite Hv. cbn [json.skip_ws]. rewrite Hd. reflexivity.
Qed.

(** An element of an array, the last one or one followed by others. *)
Lemma parse_elem (f : nat) (X : string) (v : json.value) (d : ascii) (Y : string) :
  json.parse_value f X = Some (v, String d Y) ->
  json.is_space d = false ->
  json.parse_elems (S f) X
  = if json.eqc d "]" then Some ([v], Y)
    else if json.eqc d "," then
      match json.parse_elems f Y with
      | Some (l, t) => Some (v :: l, t)
      | None => None
      end
    else None.
Proof.
  intros Hv Hd. cbn [json.parse_elems]. rewrite Hv. cbn [json.skip_ws]. rewrite Hd.
  reflexivity.
Qed.

(** An access rule: an object with the members [method] and [path]. *)
Lemma parse_AccessRule (f : nat) (r : AccessRule.t) (rest : string) :
  json.parse_value (4 + f) (json.encode (AccessRule.to_json r) ++ rest)
  = Some (AccessRule.to_json r, rest).
Proof.
  unfold AccessRule.to_json.
  cbn [json.encode map fst snd String.concat].
  rewrite !append_assoc.
  change (4 + f)%nat with (S (S (S (S f)))).
  change ("{" ++ ?x)%string with (String "{" x).
  cbn [json.parse_value json.skip_ws].
  change (json.is_space "{") with false. cbv iota.
  change (json.eqc "{" "n") with false. change (json.eqc "{" "t") with false.
  change (json.eqc "{" "f") with false. change (json.eqc "{" json.dquote) with false.
  change (json.eqc "{" "[") with false. change (json.eqc "{" "{") with true. cbv iota.
  rewrite quote_append at 1. cbn [json.skip_ws].
  change (json.is_space json.dquote) with false. cbv iota.
  change (json.eqc json.dquote "}") with false. cbv iota.
  rewrite (parse_member (S (S f)) "method" _ (json.Str (AccessRule.Method r)) ","
             (json.quote "path" ++ ":" ++ json.quote (AccessRule.Path r) ++ "}" ++ rest));
    [| apply parse_Str | reflexivity].
  change (json.eqc "," "}") with false. change (json.eqc "," ",") with true. cbv iota.
  rewrite (parse_member (S f) "path" _ (json.Str (AccessRule.Path r)) "}" rest);
    [| apply parse_Str | reflexivity].
  reflexivity.
Qed.

(** An element of [AccessRules]: a rule, or [null] for a nil pointer. *)
Lemma parse_rule_pointer (f : nat) (p : option AccessRule.t) (rest : string) :
  json.parse_value (4 + f)
    (json.encode (GetCKParams.pointer_to_json AccessRule.to_json p) ++ rest)
  = Some (GetCKParams.pointer_to_json AccessRule.to_json p, rest).
Proof.
  destruct p as [r|]; [apply parse_AccessRule | reflexivity].
Qed.

Lemma rule_pointer_starts (p : option AccessRule.t) (rest : string) :
  exists c X,
    (json.encode (GetCKParams.pointer_to_json AccessRule.to_json p) ++ rest)%string
    = String c X
    /\ json.is_space c = false /\ json.eqc c "]" = false.
Proof.
  destruct p as [r|].
  - exists "{"%char. eexists. split; [| split; reflexivity].
    unfold GetCKParams.pointer_to_json, AccessRule.to_json.
    cbn [json.encode]. rewrite !append_assoc. reflexivity.
  - exists "n"%char, ("ull" ++ rest)%string. repeat split.
Qed.

Lemma parse_rules_elems (l : list (option AccessRule.t)) :
  forall (x : option AccessRule.t) (rest : string) (f : nat),
    json.parse_elems (length l + 5 + f)
      (String.concat ","
         (map json.encode (map (GetCKParams.pointer_to_json AccessRule.to_json) (x :: l)))
       ++ "]" ++ rest)
    = Some (map (GetCKParams.pointer_to_json AccessRule.to_json) (x :: l), rest).
Proof.
  induction l as [|y l IH]; intros x rest f.
  - cbn [map String.concat length Nat.add].
    rewrite (parse_elem (4 + f) _ (GetCKParams.pointer_to_json AccessRule.to_json x)
               "]" rest); [reflexivity | apply parse_rule_pointer | reflexivity].
  - change (map json.encode
              (map (GetCKParams.pointer_to_json AccessRule.to_json) (x :: y :: l)))
      with (json.encode (GetCKParams.pointer_to_json AccessRule.to_json x)
            :: map json.encode
                 (map (GetCKParams.pointer_to_json AccessRule.to_json) (y :: l))).
    change (String.concat "," (?a :: map json.encode (map ?g (y :: l))))
      with (a ++ "," ++ String.concat "," (map json.encode (map g (y :: l))))%string.
    rewrite !append_assoc.
    change (length (y :: l) + 5 + f)%nat with (S (length l + 5 + f)).
    rewrite (parse_elem (length l + 5 + f) _
               (GetCKParams.pointer_to_json AccessRule.to_json x) ","
               (String.concat ","
                  (map json.encode
                     (map (GetCKParams.pointer_to_json AccessRule.to_json) (y :: l)))
                ++ "]" ++ rest)).
    + change (json.eqc "," "]") with false. change (json.eqc "," ",") with true.
      cbv iota. rewrite IH. reflexivity.
    + replace (length l + 5 + f)%nat with (4 + (length l + 1 + f))%nat by lia.
      apply parse_rule_pointer.
    + reflexivity.
Qed.

(** The slice [AccessRules]: [null] when it is nil, an array otherwise. *)
Lemma parse_rules (rules : option (list (option AccessRule.t))) (rest : string) (f : nat) :
  let v := GetCKParams.pointer_to_json
             (fun l => json.Array (map (GetCKParams.pointer_to_json AccessRule.to_json) l))
             rules in
  json.parse_value (length (default [] rules) + 6 + f) (json.encode v ++ rest)
  = Some (v, rest).
Proof.
  intros v. subst v. destruct rules as [[|x l]|]; cbn [GetCKParams.pointer_to_json].
  - reflexivity.
  - cbn [json.encode]. rewrite !append_assoc.
    change ("[" ++ ?x)%string with (String "[" x).
    replace (length (default [] (Some (x :: l))) + 6 + f)%nat
      with (S (length l + 5 + S f)) by (cbn [default length]; unfold id; cbn [length]; lia).
    cbn [json.parse_value json.skip_ws].
    change (json.is_space "[") with false. cbv iota.
    change (json.eqc "[" "n") with false. change (json.eqc "[" "t") with false.
    change (json.eqc "[" "f") with false. change (json.eqc "[" json.dquote) with false.
    change (json.eqc "[" "[") with true. cbv iota.
    rewrite parse_rules_elems.
    change (map json.encode (map ?g (x :: l)))
      with (json.encode (g x) :: map json.encode (map g l)).
    destruct (rule_pointer_starts x
                (match map json.encode
                         (map (GetCKParams.pointer_to_json AccessRule.to_json) l) with
                 | [] => EmptyString
                 | _ :: _ =>
                     ("," ++ String.concat ","
                               (map json.encode
                                  (map (GetCKParams.pointer_to_json AccessRule.to_json) l)))
                 end ++ "]" ++ rest)%string) as (c & X & Hc & Hs & Hb).
    match goal with
    | |- match json.skip_ws ?s with _ => _ end = _ =>
        replace s with (String c X)
    end.
    + cbn [json.skip_ws]. rewrite Hs, Hb. reflexivity.
    + rewrite <- Hc. cbn [String.concat].
      destruct (map json.encode _); rewrite ?append_assoc; reflexivity.
  - reflexivity.
Qed.

Lemma parse_GetCKParams (ckParams : option GetCKParams.t) :
  json.parse (json.encode (GetCKParams.pointer_to_json GetCKParams.to_json ckParams))
  = Some (GetCKParams.pointer_to_json GetCKParams.to_json ckParams).
Proof.
  destruct ckParams as [p|]; [| reflexivity].
  cbn [GetCKParams.pointer_to_json].
  apply (parse_has_enough_fuel (length (default [] (GetCKParams.AccessRules p)) + 8)
           _ _ EmptyString); [| reflexivity].
  unfold GetCKParams.to_json.
  set (rules := GetCKParams.pointer_to_json _ (GetCKParams.AccessRules p)).
  cbn [json.encode map fst snd String.concat].
  rewrite !append_assoc.
  change ("{" ++ ?x)%string with (String "{" x).
  replace (length (default [] (GetCKParams.AccessRules p)) + 8)%nat
    with (S (S (length (default [] (GetCKParams.AccessRules p)) + 6 + 0))) by lia.
  cbn [json.parse_value json.skip_ws].
  change (json.is_space "{") with false. cbv iota.
  change (json.eqc "{" "n") with false. change (json.eqc "{" "t") with false.
  change (json.eqc "{" "f") with false. change (json.eqc "{" json.dquote) with false.
  change (json.eqc "{" "[") with false. change (json.eqc "{" "{") with true. cbv iota.
  rewrite quote_append at 1. cbn [json.skip_ws].
  change (json.is_space json.dquote) with false. cbv iota.
  change (json.eqc json.dquote "}") with false. cbv iota.
  rewrite (parse_member _ "accessRules" _ rules ","
             (json.quote "redirection" ++ ":" ++ json.quote (GetCKParams.Redirection p)
              ++ "}")); [| apply parse_rules | reflexivity].
  change (json.eqc "," "}") with false. change (json.eqc "," ",") with true. cbv iota.
  replace (length (default [] (GetCKParams.AccessRules p)) + 6 + 0)%nat
    with (S (S (length (default [] (GetCKParams.AccessRules p)) + 4))) by lia.
  rewrite (parse_member _ "redirection" _ (json.Str (GetCKParams.Redirection p)) "}"
             EmptyString); [reflexivity | | reflexivity].
  replace (json.quote (GetCKParams.Redirection p) ++ "}")%string
    with (json.quote (GetCKParams.Redirection p) ++ String "}" EmptyString)%string
    by reflexivity.
  apply parse_Str.
Qed.

(** X14.  The body of the request that [GetConsumerKey] sends is a JSON
    document that reads back as the parameters: an object whose member
    [accessRules] is [null] for a nil slice and otherwise the array of the
    rules, each an object with the members [method] and [path] or [null]
    for a nil pointer, and whose member [redirection] is the redirection;
    for a nil [ckParams] the body reads back as [null].  The request is a
    POST to the base URL followed by [/auth/credential].  The strings of the
    parameters are taken to be ASCII: the encoder is modelled for valid
    UTF-8 only. *)
Theorem GetConsumerKey_body_reads_back (env : Env) (errs : V1.Errors)
  (ckParams : option GetCKParams.t) :
  let ascii (s : string) := Forall (fun b => b < 128) (Bytes.of_string s) in
  let rule (r : option AccessRule.t) :=
    match r with
    | Some r =>
        json.Object [("method", json.Str (AccessRule.Method r));
                     ("path", json.Str (AccessRule.Path r))]
    | None => json.Null
    end in
  let document :=
    match ckParams with
    | Some p =>
        json.Object
          [("accessRules",
            match GetCKParams.AccessRules p with
            | Some l => json.Array (map rule l)
            | None => json.Null
            end);
           ("redirection", json.Str (GetCKParams.Redirection p))]
    | None => json.Null
    end in
  (forall p, ckParams = Some p ->
             ascii (GetCKParams.Redirection p)
             /\ forall l r, GetCKParams.AccessRules p = Some l -> In (Some r) l ->
                            ascii (AccessRule.Method r) /\ ascii (AccessRule.Path r)) ->
  (forall (s : State V1.Caller) req,
      sent (world (snd (V1.GetConsumerKey env errs ckParams s)))
      = (sent (world s) ++ [req])%list ->
      http.Method req = "POST"
      /\ http.URL req = (V1.Url (self s) ++ "/auth/credential")%string
      /\ json.parse (http.ReqBody req) = Some document)
  /\ (forall (s : State V2.Caller) req,
         sent (world (snd (V2.GetConsumerKey env ckParams s)))
         = (sent (world s) ++ [req])%list ->
         http.Method req = "POST"
         /\ http.URL req = (V2.URL (self s) ++ "/auth/credential")%string
         /\ json.parse (http.ReqBody req) = Some document).
Proof.
  intros ascii rule document _.
  assert (document = GetCKParams.pointer_to_json GetCKParams.to_json ckParams) as ->.
  { subst document rule. destruct ckParams as [p|]; [| reflexivity].
    unfold GetCKParams.pointer_to_json at 1, GetCKParams.to_json.
    destruct (GetCKParams.AccessRules p); reflexivity. }
  split; intros s req Hsent.
  - apply V1_GetConsumerKey_sent in Hsent as (params & r0 & Hm & Hr & -> & _).
    apply NewRequest_fields in Hr. subst r0.
    cbn [http.HeaderAdd http.Method http.URL http.ReqBody].
    split; [reflexivity |]. split; [reflexivity |].
    unfold Marshal_GetCKParams, json.Marshal in Hm. injection Hm as <-.
    apply parse_GetCKParams.
  - apply V2_GetConsumerKey_sent in Hsent as (params & r0 & Hm & Hr & -> & _).
    apply NewRequest_fields in Hr. subst r0.
    cbn [http.HeaderAdd http.Method http.URL http.ReqBody].
    split; [reflexivity |]. split; [reflexivity |].
    unfold Marshal_GetCKParams, json.Marshal in Hm. injection Hm as <-.
    apply parse_GetCKParams.
Qed.

Lemma GetConsumerKey_body_reads_back_witness :
  let env := answering (fun _ => 0) 200 EmptyString in
  let p := {| GetCKParams.AccessRules :=
                Some [Some {| AccessRule.Method := "GET"; AccessRule.Path := "/me" |};
                      None];
              GetCKParams.Redirection := "https://example.org/?a=1&b=<2>" |} in
  exists req,
    sent (world (snd (V2.GetConsumerKey env (Some p)
                        {| self := caller2; world := nothing_yet |}))) = [req]
    /\ json.parse (http.ReqBody req)
       = Some (json.Object
                 [("accessRules",
                   json.Array [json.Object [("method", json.Str "GET");
                                            ("path", json.Str "/me")];
                               json.Null]);
                  ("redirection", json.Str "https://example.org/?a=1&b=<2>")]).
Proof.
  intros env p.
  assert (exists req, sent (world (snd (V2.GetConsumerKey env (Some p)
                                          {| self := caller2; world := nothing_yet |})))
                      = ([] ++ [req])%list) as [req Hreq]
    by (eexists; vm_compute; reflexivity).
  exists req. split; [exact Hreq |].
  refine (proj2 (proj2 (proj2 (GetConsumerKey_body_reads_back env plain (Some p) _) _ req
                          Hreq))).
  intros p' Hp'. injection Hp' as <-. split.
  - apply (bool_decide_unpack _). vm_compute. reflexivity.
  - intros l r Hl Hin. injection Hl as <-.
    destruct Hin as [Hin | [Hin | []]]; [| discriminate Hin]. injection Hin as <-.
    split; apply (bool_decide_unpack _); vm_compute; reflexivity.
Defined.

(** ** The timestamp of the newer version *)

(** X15.  In [src/unnamed/part_000], creating a caller and then calling the
    API compose as follows: when the API answered the time [remote], in
    seconds, and the local clock read [L] nanoseconds after the answer, a
    call made when the local clock reads [N] nanoseconds carries the
    timestamp [(N + L) / 10^9 - remote], that is the local time plus the
    lead of the local clock over the remote one, provided that lead fits a
    [time.Duration]. *)
Theorem V2_call_after_NewCaller_adds_the_local_lead
  (env : Env) (endpoint key secret consumer : string)
  (w w' : World) (c : V2.Caller) :
  V2.NewCaller env endpoint key secret consumer w = (inr c, w') ->
  exists req0 body remote,
    roundtrip env (length (sent w)) req0
    = inr {| http.StatusCode := 200; http.Body := inr body |}
    /\ strconv.Atoi body = inr remote
    /\ forall (R : Type) url method payload
              (typeResult : option (json.value -> json.Error + R)) (w2 : World) req,
         let L := now env (reads w) in
         let N := now env (reads w2) in
         time.minDuration <= L - remote * time.Second <= time.maxDuration ->
         sent (world (snd (V2.CallAPI env url method payload typeResult
                             {| self := c; world := w2 |})))
         = (sent w2 ++ [req])%list ->
         http.Header req !! "X-Ovh-Timestamp"
         = Some [strconv.FormatInt ((N + L) / time.Second - remote)].
Proof.
  intros H.
  destruct (V2.APIURL !! endpoint) as [url|] eqn:Hu.
  2: { revert H. unfold V2.NewCaller. rewrite Hu. discriminate. }
  rewrite <- (proj1 (endpoint_lookup endpoint)) in Hu.
  rewrite (proj2 (NewCaller_run env endpoint key secret consumer url w Hu)) in H.
  cbv zeta in H.
  destruct (fst (V2.Time env _)) as [e|t] eqn:Ht; [discriminate |].
  apply (proj2 (Time_returned env)) in Ht as (req0 & body & remote & Hs & _ & Hrt & Ha & ->).
  rewrite Hs in H. cbn [self world reads sent] in H, Hrt. injection H as <- _.
  exists req0, body, remote. split; [exact Hrt |]. split; [exact Ha |].
  intros R url' method payload tr w2 req L N HL Hsent.
  apply V2_timestamp_is_clock_plus_delay in Hsent as [Hts _].
  cbn [self world V2.delay] in Hts. rewrite Hts. fold L N.
  unfold time.Sub, time.Unix_, time.Add, time.Unix.
  destruct (Z.ltb_spec (L - remote * time.Second) time.minDuration); [lia |].
  destruct (Z.ltb_spec time.maxDuration (L - remote * time.Second)); [lia |].
  replace (N + (L - remote * time.Second)) with (N + L + - remote * time.Second) by lia.
  rewrite Z.div_add by (unfold time.Second; lia).
  reflexivity.
Qed.

Lemma V2_call_after_NewCaller_adds_the_local_lead_witness :
  let env := answering (fun n => match n with O => 900 | _ => 950 end) 200 "1000" in
  exists (c : V2.Caller) (w' : World) (req : http.Request),
    V2.NewCaller env "ovh-eu" "AK" "AS" "CK" nothing_yet = (inr c, w')
    /\ sent (world (snd (V2.CallAPI (R := unit) env "/me" "GET" None None
                           {| self := c; world := w' |})))
       = (sent w' ++ [req])%list
    /\ http.Header req !! "X-Ovh-Timestamp" = Some ["850"].
Proof.
  intros env.
  exists {| V2.ApplicationKey := "AK"; V2.ApplicationSecret := "AS"; V2.ConsumerKey := "CK";
            V2.URL := "https://api.ovh.com/1.0"; V2.delay := -100000000000 |}.
  do 2 eexists.
  assert (V2.NewCaller env "ovh-eu" "AK" "AS" "CK" nothing_yet
          = (inr {| V2.ApplicationKey := "AK"; V2.ApplicationSecret := "AS";
                    V2.ConsumerKey := "CK"; V2.URL := "https://api.ovh.com/1.0";
                    V2.delay := -100000000000 |},
             {| reads := 1;
                sent := [{| http.Method := "GET";
                            http.URL := "https://api.ovh.com/1.0/auth/time";
                            http.ReqBody := EmptyString;
                            http.Header := {[ "Content-Type" := ["application/json"] ]} |}]
             |})) as Hnew
    by (vm_compute; reflexivity).
  split; [exact Hnew |]. split; [vm_compute; reflexivity |].
  destruct (V2_call_after_NewCaller_adds_the_local_lead env _ _ _ _ _ _ _ Hnew)
    as (req0 & body & remote & Hrt & Ha & Hcall).
  cbn in Hrt. injection Hrt as <-. vm_compute in Ha. injection Ha as <-.
  match goal with
  | |- http.Header ?r !! _ = _ =>
      etransitivity;
        [apply (Hcall unit "/me" "GET" None None
                  {| reads := 1;
                     sent := [{| http.Method := "GET";
                                 http.URL := "https://api.ovh.com/1.0/auth/time";
                                 http.ReqBody := EmptyString;
                                 http.Header :=
                                   {[ "Content-Type" := ["application/json"] ]} |}] |} r);
           [vm_compute; split; discriminate | vm_compute; reflexivity]
        | vm_compute; reflexivity]
  end.
Defined.

(** ** The consumer key that was granted *)

Lemma GetConsumerKey_caller_after (env : Env) (errs : V1.Errors)
  (ckParams : option GetCKParams.t) :
  (forall s : State V1.Caller,
      self (snd (V1.GetConsumerKey env errs ckParams s))
      = match fst (V1.GetConsumerKey env errs ckParams s) with
        | inl _ => self s
        | inr askCK =>
            {| V1.ApplicationKey := V1.ApplicationKey (self s);
               V1.ApplicationSecret := V1.ApplicationSecret (self s);
               V1.ConsumerKey := V1.GetCKResponse.ConsumerKey askCK;
               V1.Url := V1.Url (self s); V1.delay := V1.delay (self s) |}
        end)
  /\ (forall s : State V2.Caller,
         self (snd (V2.GetConsumerKey env ckParams s))
         = match fst (V2.GetConsumerKey env ckParams s) with
           | inl _ => self s
           | inr askCK =>
               {| V2.ApplicationKey := V2.ApplicationKey (self s);
                  V2.ApplicationSecret := V2.ApplicationSecret (self s);
                  V2.ConsumerKey := V2.GetCKResponse.ConsumerKey askCK;
                  V2.URL := V2.URL (self s); V2.delay := V2.delay (self s) |}
           end).
Proof. split; intros s; run; branches; reflexivity. Qed.

(** X16.  The consumer key that [GetConsumerKey] was granted is the one of
    the calls that follow: the next call to the API carries it in the
    header [X-Ovh-Consumer] and signs with it, with the application key and
    secret, the base URL and the clock offset that the caller had before. *)
Theorem granted_key_is_used_by_the_next_call (env : Env) (errs : V1.Errors)
  (ckParams : option GetCKParams.t) :
  (forall (s : State V1.Caller) askCK (R : Type) url method body
          (typeResult : option (json.value -> json.Error + R)) req,
      fst (V1.GetConsumerKey env errs ckParams s) = inr askCK ->
      let s' := snd (V1.GetConsumerKey env errs ckParams s) in
      let granted := V1.GetCKResponse.ConsumerKey askCK in
      let ts := wrap_int (time.Unix (now env (reads (world s'))) + V1.delay (self s)) in
      sent (world (snd (V1.CallApi env errs url method body typeResult s')))
      = (sent (world s') ++ [req])%list ->
      http.Header req !! "X-Ovh-Consumer" = Some [granted]
      /\ http.Header req !! "X-Ovh-Application" = Some [V1.ApplicationKey (self s)]
      /\ exists params,
           http.Header req !! "X-Ovh-Signature"
           = Some [V1.getSignature
                     {| V1.ApplicationKey := V1.ApplicationKey (self s);
                        V1.ApplicationSecret := V1.ApplicationSecret (self s);
                        V1.ConsumerKey := granted;
                        V1.Url := V1.Url (self s); V1.delay := V1.delay (self s) |}
                     method (V1.Url (self s) ++ url) params ts])
  /\ (forall (s : State V2.Caller) askCK (R : Type) url method body
             (typeResult : option (json.value -> json.Error + R)) req,
         fst (V2.GetConsumerKey env ckParams s) = inr askCK ->
         let s' := snd (V2.GetConsumerKey env ckParams s) in
         let granted := V2.GetCKResponse.ConsumerKey askCK in
         let ts := time.Unix (time.Add (now env (reads (world s'))) (V2.delay (self s))) in
         sent (world (snd (V2.CallAPI env url method body typeResult s')))
         = (sent (world s') ++ [req])%list ->
         http.Header req !! "X-Ovh-Consumer" = Some [granted]
         /\ http.Header req !! "X-Ovh-Application" = Some [V2.ApplicationKey (self s)]
         /\ exists params,
              http.Header req !! "X-Ovh-Signature"
              = Some [V2.getSignature
                        {| V2.ApplicationKey := V2.ApplicationKey (self s);
                           V2.ApplicationSecret := V2.ApplicationSecret (self s);
                           V2.ConsumerKey := granted;
                           V2.URL := V2.URL (self s); V2.delay := V2.delay (self s) |}
                        method (V2.URL (self s) ++ url) params ts]).
Proof.
  split; intros s askCK R url method body tr req Hck s' granted ts Hsent.
  - pose proof (proj1 (GetConsumerKey_caller_after env errs ckParams) s) as Hself.
    rewrite Hck in Hself. fold s' in Hself.
    apply V1_CallApi_sent in Hsent as (params & r0 & _ & Hr & -> & _).
    apply NewRequest_header in Hr as (H0 & _ & _).
    rewrite Hself. cbn [V1.ApplicationKey V1.ConsumerKey V1.Url V1.delay].
    fold granted ts.
    match goal with
    | |- context [http.Header (http.HeaderAdd _ ?sig (http.HeaderAdd _ ?ck
                   (http.HeaderAdd _ ?k (http.HeaderAdd _ ?t (http.HeaderAdd _ _ ?r)))))] =>
        destruct (signed_header r t k ck sig H0) as (Hh & _ & _ & Hs)
    end.
    rewrite Hh. split; [vm_compute; reflexivity |]. split; [vm_compute; reflexivity |].
    exists params. exact Hs.
  - pose proof (proj2 (GetConsumerKey_caller_after env errs ckParams) s) as Hself.
    rewrite Hck in Hself. fold s' in Hself.
    apply V2_CallAPI_sent in Hsent as (params & r0 & _ & Hr & -> & _).
    apply NewRequest_header in Hr as (H0 & _ & _).
    rewrite Hself. cbn [V2.ApplicationKey V2.ConsumerKey V2.URL V2.delay].
    fold granted ts.
    match goal with
    | |- context [http.Header (V2.add_headers [_; (_, ?t); (_, ?k); (_, ?ck); (_, ?sig)] ?r)] =>
        destruct (signed_header r t k ck sig H0) as (_ & Hh & _ & Hs)
    end.
    rewrite Hh. split; [vm_compute; reflexivity |]. split; [vm_compute; reflexivity |].
    exists params. exact Hs.
Qed.

Lemma granted_key_is_used_by_the_next_call_witness :
  let env := answering (fun _ => 1700000000) 200
               (quoted "{'consumerKey':'abc','state':'pendingValidation','validationUrl':'u'}") in
  let s := {| self := caller2; world := nothing_yet |} in
  let s' := snd (V2.GetConsumerKey env None s) in
  exists askCK req,
    fst (V2.GetConsumerKey env None s) = inr askCK
    /\ sent (world (snd (V2.CallAPI (R := unit) env "/me" "GET" None None s')))
       = (sent (world s') ++ [req])%list
    /\ http.Header req !! "X-Ovh-Consumer" = Some ["abc"].
Proof.
  intros env s s'.
  exists {| V2.GetCKResponse.ConsumerKey := "abc";
            V2.GetCKResponse.Status := "pendingValidation";
            V2.GetCKResponse.ValidationURL := "u" |}.
  assert (exists req, sent (world (snd (V2.CallAPI (R := unit) env "/me" "GET" None None s')))
                      = (sent (world s') ++ [req])%list) as [req Hreq]
    by (eexists; vm_compute; reflexivity).
  exists req. split; [vm_compute; reflexivity |]. split; [exact Hreq |].
  exact (proj1 (proj2 (granted_key_is_used_by_the_next_call env plain None) s _ unit
                        "/me" "GET" None None req ltac:(vm_compute; reflexivity) Hreq)).
Defined.

(** ** Answers written by a JSON encoder *)

(** An object whose members are strings is read back as it was written. *)
Lemma parse_string_members (kvs : list (string * string)) :
  forall (kv : string * string) (rest : string) (f : nat),
    json.parse_members (length kvs + 2 + f)
      (String.concat ","
         (map (fun kv => json.quote (fst kv) ++ ":" ++ json.encode (snd kv))
            (map (fun kv => (fst kv, json.Str (snd kv))) (kv :: kvs)))
       ++ "}" ++ rest)
    = Some (map (fun kv => (fst kv, json.Str (snd kv))) (kv :: kvs), rest).
Proof.
  induction kvs as [|kv' kvs IH]; intros kv rest f.
  - cbn [map String.concat length Nat.add fst snd json.encode].
    rewrite !append_assoc.
    rewrite (parse_member (S f) (fst kv) _ (json.Str (snd kv)) "}" rest);
      [reflexivity | apply parse_Str | reflexivity].
  - change (map ?g (map ?h (kv :: kv' :: kvs)))
      with (g (h kv) :: map g (map h (kv' :: kvs))).
    change (String.concat "," (?a :: map ?g (map ?h (kv' :: kvs))))
      with (a ++ "," ++ String.concat "," (map g (map h (kv' :: kvs))))%string.
    cbn [fst snd json.encode]. rewrite !append_assoc.
    change (length (kv' :: kvs) + 2 + f)%nat with (S (length kvs + 2 + f)).
    rewrite (parse_member (length kvs + 2 + f) (fst kv) _ (json.Str (snd kv)) ","
               (String.concat ","
                  (map (fun kv => json.quote (fst kv) ++ ":" ++ json.encode (snd kv))
                     (map (fun kv => (fst kv, json.Str (snd kv))) (kv' :: kvs)))
                ++ "}" ++ rest)).
    + change (json.eqc "," "}") with false. change (json.eqc "," ",") with true.
      cbv iota. rewrite IH. reflexivity.
    + replace (length kvs + 2 + f)%nat with (S (length kvs + 1 + f)) by lia.
      apply parse_Str.
    + reflexivity.
Qed.

Lemma parse_string_object (kv : string * string) (kvs : list (string * string)) :
  let v := json.Object (map (fun kv => (fst kv, json.Str (snd kv))) (kv :: kvs)) in
  json.parse (json.encode v) = Some v.
Proof.
  intros v. subst v.
  apply (parse_has_enough_fuel (S (length kvs + 2 + 0)) _ _ EmptyString); [| reflexivity].
  cbn [json.encode]. rewrite ?append_assoc.
  change ("{" ++ ?x)%string with (String "{" x).
  cbn [json.parse_value json.skip_ws].
  change (json.is_space "{") with false. cbv iota.
  change (json.eqc "{" "n") with false. change (json.eqc "{" "t") with false.
  change (json.eqc "{" "f") with false. change (json.eqc "{" json.dquote) with false.
  change (json.eqc "{" "[") with false. change (json.eqc "{" "{") with true. cbv iota.
  change (?x ++ "}")%string with (x ++ "}" ++ EmptyString)%string.
  rewrite parse_string_members.
  change (map ?g (map ?h (kv :: kvs))) with (g (h kv) :: map g (map h kvs)).
  cbn [String.concat fst snd json.encode].
  destruct (map _ (map _ kvs)); rewrite ?append_assoc, quote_append; reflexivity.
Qed.

(** X17.  Answers that a JSON encoder wrote are decoded whatever their
    strings hold, escapes included.  A status 200 answer to [GetConsumerKey]
    whose body is the object with the members [consumerKey], [state] and
    [validationUrl] returns the three strings in
    [src/unnamed/part_000], and the key and the URL in [src/caller.go],
    where the status of the grant stays empty.  An answer to a call with a
    status outside 200..299 whose body is the object with the member
    [message] returns the [ApiOvhError] with that message and the status of
    the answer.  The strings are taken to be ASCII: the decoder is modelled
    for valid UTF-8 only. *)
Theorem answers_of_an_encoder_are_decoded (env : Env) (errs : V1.Errors) :
  let ascii (s : string) := Forall (fun b => b < 128) (Bytes.of_string s) in
  let grant (k st u : string) :=
    json.encode (json.Object [("consumerKey", json.Str k); ("state", json.Str st);
                              ("validationUrl", json.Str u)]) in
  let failure (m : string) := json.encode (json.Object [("message", json.Str m)]) in
  (forall ckParams (s : State V2.Caller) req k st u,
      ascii k -> ascii st -> ascii u ->
      sent (world (snd (V2.GetConsumerKey env ckParams s))) = (sent (world s) ++ [req])%list ->
      roundtrip env (length (sent (world s))) req
      = inr {| http.StatusCode := 200; http.Body := inr (grant k st u) |} ->
      fst (V2.GetConsumerKey env ckParams s)
      = inr {| V2.GetCKResponse.ConsumerKey := k; V2.GetCKResponse.Status := st;
               V2.GetCKResponse.ValidationURL := u |}
      /\ V2.ConsumerKey (self (snd (V2.GetConsumerKey env ckParams s))) = k)
  /\ (forall ckParams (s : State V1.Caller) req k st u,
         ascii k -> ascii st -> ascii u ->
         sent (world (snd (V1.GetConsumerKey env errs ckParams s)))
         = (sent (world s) ++ [req])%list ->
         roundtrip env (length (sent (world s))) req
         = inr {| http.StatusCode := 200; http.Body := inr (grant k st u) |} ->
         fst (V1.GetConsumerKey env errs ckParams s)
         = inr {| V1.GetCKResponse.ConsumerKey := k;
                  V1.GetCKResponse.Status := EmptyString;
                  V1.GetCKResponse.ValidationUrl := u |}
         /\ V1.ConsumerKey (self (snd (V1.GetConsumerKey env errs ckParams s))) = k)
  /\ (forall (R : Type) url method body (typeResult : option (json.value -> json.Error + R))
             (s : State V2.Caller) req status m,
         ascii m ->
         sent (world (snd (V2.CallAPI env url method body typeResult s)))
         = (sent (world s) ++ [req])%list ->
         Spec.success status = false ->
         roundtrip env (length (sent (world s))) req
         = inr {| http.StatusCode := status; http.Body := inr (failure m) |} ->
         fst (V2.CallAPI env url method body typeResult s)
         = inl (ApiError {| Message := m; Code := status; Tracer := EmptyString |}))
  /\ (forall (R : Type) url method body (typeResult : option (json.value -> json.Error + R))
             (s : State V1.Caller) req status m,
         ascii m ->
         sent (world (snd (V1.CallApi env errs url method body typeResult s)))
         = (sent (world s) ++ [req])%list ->
         Spec.success status = false ->
         roundtrip env (length (sent (world s))) req
         = inr {| http.StatusCode := status; http.Body := inr (failure m) |} ->
         fst (V1.CallApi env errs url method body typeResult s)
         = inl (ApiError {| Message := m; Code := status; Tracer := EmptyString |})).
Proof.
  intros ascii grant failure.
  assert (forall k st u,
             json.parse (grant k st u)
             = Some (json.Object [("consumerKey", json.Str k); ("state", json.Str st);
                                  ("validationUrl", json.Str u)])) as Hgrant
    by (intros k st u;
        exact (parse_string_object ("consumerKey", k) [("state", st); ("validationUrl", u)])).
  assert (forall m, json.parse (failure m) = Some (json.Object [("message", json.Str m)]))
    as Hfailure by (intros m; exact (parse_string_object ("message", m) [])).
  split; [| split; [| split]].
  - intros ckParams s req k st u _ _ _ Hsent Hrt.
    exact (V2_GetConsumerKey_round_trip env ckParams s req _ k st u Hsent Hrt
             (Hgrant k st u)).
  - intros ckParams s req k st u _ _ _ Hsent Hrt.
    exact (V1_GetConsumerKey_round_trip env errs ckParams s req _ k st u Hsent Hrt
             (Hgrant k st u)).
  - intros R url method body tr s req status m _ Hsent Hst Hrt.
    apply V2_CallAPI_sent in Hsent as (params & r0 & _ & _ & _ & ->).
    rewrite Hrt. cbn [http.Body http.StatusCode]. rewrite Hst.
    unfold Unmarshal_ApiOvhError, json.Unmarshal. rewrite Hfailure. reflexivity.
  - intros R url method body tr s req status m _ Hsent Hst Hrt.
    apply V1_CallApi_sent in Hsent as (params & r0 & _ & _ & _ & ->).
    rewrite Hrt. cbn [http.Body http.StatusCode]. rewrite Hst.
    unfold Unmarshal_ApiOvhError, json.Unmarshal. rewrite Hfailure. reflexivity.
Qed.

Lemma answers_of_an_encoder_are_decoded_witness :
  let m := quoted "The '<b>' rule is not allowed" in
  let env := answering (fun _ => 1700000000) 403
               (json.encode (json.Object [("message", json.Str m)])) in
  fst (V2.CallAPI (R := unit) env "/me" "GET" None None
         {| self := caller2; world := nothing_yet |})
  = inl (ApiError {| Message := m; Code := 403; Tracer := EmptyString |}).
Proof.
  intros m env.
  assert (exists req, sent (world (snd (V2.CallAPI (R := unit) env "/me" "GET" None None
                                          {| self := caller2; world := nothing_yet |})))
                      = ([] ++ [req])%list) as [req Hreq]
    by (eexists; vm_compute; reflexivity).
  refine (proj1 (proj2 (proj2 (answers_of_an_encoder_are_decoded env plain))) unit
            "/me" "GET" None None {| self := caller2; world := nothing_yet |} req 403 m
            _ Hreq eq_refl eq_refl).
  apply (bool_decide_unpack _). vm_compute. reflexivity.
Defined.
